(** * A DTLS 1.2 PSK client and its AES block cipher: a shallow embedding

    The development follows two source files of the repository:

    - [extension/plugins/philipshue-desktopsync/dtlsclient.js], the DTLS
      client (integer codec, record and handshake codec, key derivation
      glue, handshake state machine, application data channel);
    - the AES block cipher module (key schedule, block encryption and
      decryption).

    JavaScript numbers that the code only ever feeds to bitwise operators are
    modelled as [Z], with the 32-bit conversion that those operators perform
    written out ([ToInt32]). *)

From Stdlib Require Import String Ascii ZArith List Lia Bool QArith Qround.
From Stdlib Require Import Btauto.
Import ListNotations.

Local Open Scope Z_scope.

(** ** JavaScript 32-bit integer operators *)

Module JS.

(** [ToInt32] of ECMAScript on an integral number: reduce modulo [2^32] into
    the signed range. *)
Definition ToInt32 (x : Z) : Z := (x + 2 ^ 31) mod 2 ^ 32 - 2 ^ 31.

(** [a & b] *)
Definition and (a b : Z) : Z := Z.land (ToInt32 a) (ToInt32 b).

(** [a | b] *)
Definition or (a b : Z) : Z := Z.lor (ToInt32 a) (ToInt32 b).

(** [a ^ b] *)
Definition xor (a b : Z) : Z := Z.lxor (ToInt32 a) (ToInt32 b).

(** [a << n]: the shift count is taken modulo 32 and the result wraps. *)
Definition shl (a n : Z) : Z := ToInt32 (Z.shiftl (ToInt32 a) (Z.land n 31)).

(** [a >> n]: sign-propagating shift, count modulo 32. *)
Definition sar (a n : Z) : Z := Z.shiftr (ToInt32 a) (Z.land n 31).

End JS.

(** ** Integer codec of dtlsclient.js *)

(** [uintToArray(number, length)]: pushes one array element per test that
    succeeds, most significant first. *)
Definition uintToArray (number length : Z) : list Z :=
  let a := [] in
  let a := if 48 <=? length
           then a ++ [JS.sar (JS.and number 0xFF00000000) 40] else a in
  let a := if 40 <=? length
           then a ++ [JS.sar (JS.and number 0xFF00000000) 32] else a in
  let a := if 32 <=? length
           then a ++ [JS.sar (JS.and number 0xFF000000) 24] else a in
  let a := if 24 <=? length
           then a ++ [JS.sar (JS.and number 0xFF0000) 16] else a in
  let a := if 16 <=? length
           then a ++ [JS.sar (JS.and number 0xFF00) 8] else a in
  let a := if 8 <=? length
           then a ++ [JS.and number 0xFF] else a in
  a.

(** [arrayToUint(a)]: [for (let i in a) { number = number << 8; number = number | a[i]; }] *)
Definition arrayToUint (a : list Z) : Z :=
  fold_left (fun number ai => JS.or (JS.shl number 8) ai) a 0.

(** The byte of [n] that starts at bit [k]. *)
Definition byteAt (n k : Z) : Z := (n / 2 ^ k) mod 256.


(** ** Outcomes of a call *)

(** A call returns normally ([Ok]), throws a JavaScript exception ([Throw]),
    or the loop bound of the model is reached ([OutOfFuel]); the theorems
    below show that the last one does not happen. *)
Inductive result (A : Type) : Type :=
| Ok (a : A)
| Throw (e : string)
| OutOfFuel.

Arguments Ok {A} a.
Arguments Throw {A} e.
Arguments OutOfFuel {A}.

Definition bind {A B : Type} (r : result A) (k : A -> result B) : result B :=
  match r with
  | Ok a => k a
  | Throw e => Throw e
  | OutOfFuel => OutOfFuel
  end.

Declare Scope result_scope.
Delimit Scope result_scope with result.
Notation "x <- c ;; k" := (bind c (fun x => k))
  (at level 61, c at next level, right associativity) : result_scope.

(** [for (let i = lo; i < hi; i++) body], with the number of iterations as
    the structural argument. *)
Fixpoint for_up {S : Type} (n : nat) (i : Z) (body : Z -> S -> result S) (s : S)
  : result S :=
  match n with
  | O => Ok s
  | Datatypes.S n' => bind (body i s) (for_up n' (i + 1) body)
  end.

Definition for_range {S : Type} (lo hi : Z) (body : Z -> S -> result S) (s : S)
  : result S :=
  for_up (Z.to_nat (hi - lo)) lo body s.

(** [for (let i = hi; i >= lo; i--) body] *)
Fixpoint for_down {S : Type} (n : nat) (i : Z) (body : Z -> S -> result S) (s : S)
  : result S :=
  match n with
  | O => Ok s
  | Datatypes.S n' => bind (body i s) (for_down n' (i - 1) body)
  end.

Definition for_range_down {S : Type} (hi lo : Z) (body : Z -> S -> result S) (s : S)
  : result S :=
  for_down (Z.to_nat (hi - lo + 1)) hi body s.

(** ** Array accesses *)

(** [a[i]] on an array of numbers. An absent element is [undefined] in
    JavaScript; the AES code passes every element through a bitwise operator
    before it reaches the output, and those operators read [undefined] as 0,
    so an absent element is represented by 0. *)
Definition num_at (a : list Z) (i : Z) : Z :=
  if i <? 0 then 0 else nth (Z.to_nat i) a 0.

(** [a[i]] on an array of arrays; using an absent row throws a TypeError. *)
Definition row_at {A : Type} (a : list A) (i : Z) : result A :=
  if i <? 0 then Throw "TypeError"
  else match nth_error a (Z.to_nat i) with
       | Some r => Ok r
       | None => Throw "TypeError"
       end.

Fixpoint replace_nth {A : Type} (n : nat) (a : list A) (v : A) : list A :=
  match n, a with
  | O, _ :: t => v :: t
  | Datatypes.S n', x :: t => x :: replace_nth n' t v
  | _, [] => []
  end.

(** [a[i] = v]: replaces an element, or extends the array when [i] is its
    length or beyond (the gap, if any, holds absent elements, written [hole]). *)
Definition set_at {A : Type} (hole : A) (a : list A) (i : Z) (v : A) : list A :=
  let n := Z.to_nat i in
  if (n <? List.length a)%nat then replace_nth n a v
  else a ++ repeat hole (n - List.length a) ++ [v].

(** ** The AES block cipher *)

Module AES.

Local Open Scope result_scope.

Definition SBox : list (list Z) :=
  [
   [0x63; 0x7c; 0x77; 0x7b; 0xf2; 0x6b; 0x6f; 0xc5; 0x30; 0x01; 0x67; 0x2b; 0xfe; 0xd7; 0xab; 0x76];
   [0xca; 0x82; 0xc9; 0x7d; 0xfa; 0x59; 0x47; 0xf0; 0xad; 0xd4; 0xa2; 0xaf; 0x9c; 0xa4; 0x72; 0xc0];
   [0xb7; 0xfd; 0x93; 0x26; 0x36; 0x3f; 0xf7; 0xcc; 0x34; 0xa5; 0xe5; 0xf1; 0x71; 0xd8; 0x31; 0x15];
   [0x04; 0xc7; 0x23; 0xc3; 0x18; 0x96; 0x05; 0x9a; 0x07; 0x12; 0x80; 0xe2; 0xeb; 0x27; 0xb2; 0x75];
   [0x09; 0x83; 0x2c; 0x1a; 0x1b; 0x6e; 0x5a; 0xa0; 0x52; 0x3b; 0xd6; 0xb3; 0x29; 0xe3; 0x2f; 0x84];
   [0x53; 0xd1; 0x00; 0xed; 0x20; 0xfc; 0xb1; 0x5b; 0x6a; 0xcb; 0xbe; 0x39; 0x4a; 0x4c; 0x58; 0xcf];
   [0xd0; 0xef; 0xaa; 0xfb; 0x43; 0x4d; 0x33; 0x85; 0x45; 0xf9; 0x02; 0x7f; 0x50; 0x3c; 0x9f; 0xa8];
   [0x51; 0xa3; 0x40; 0x8f; 0x92; 0x9d; 0x38; 0xf5; 0xbc; 0xb6; 0xda; 0x21; 0x10; 0xff; 0xf3; 0xd2];
   [0xcd; 0x0c; 0x13; 0xec; 0x5f; 0x97; 0x44; 0x17; 0xc4; 0xa7; 0x7e; 0x3d; 0x64; 0x5d; 0x19; 0x73];
   [0x60; 0x81; 0x4f; 0xdc; 0x22; 0x2a; 0x90; 0x88; 0x46; 0xee; 0xb8; 0x14; 0xde; 0x5e; 0x0b; 0xdb];
   [0xe0; 0x32; 0x3a; 0x0a; 0x49; 0x06; 0x24; 0x5c; 0xc2; 0xd3; 0xac; 0x62; 0x91; 0x95; 0xe4; 0x79];
   [0xe7; 0xc8; 0x37; 0x6d; 0x8d; 0xd5; 0x4e; 0xa9; 0x6c; 0x56; 0xf4; 0xea; 0x65; 0x7a; 0xae; 0x08];
   [0xba; 0x78; 0x25; 0x2e; 0x1c; 0xa6; 0xb4; 0xc6; 0xe8; 0xdd; 0x74; 0x1f; 0x4b; 0xbd; 0x8b; 0x8a];
   [0x70; 0x3e; 0xb5; 0x66; 0x48; 0x03; 0xf6; 0x0e; 0x61; 0x35; 0x57; 0xb9; 0x86; 0xc1; 0x1d; 0x9e];
   [0xe1; 0xf8; 0x98; 0x11; 0x69; 0xd9; 0x8e; 0x94; 0x9b; 0x1e; 0x87; 0xe9; 0xce; 0x55; 0x28; 0xdf];
   [0x8c; 0xa1; 0x89; 0x0d; 0xbf; 0xe6; 0x42; 0x68; 0x41; 0x99; 0x2d; 0x0f; 0xb0; 0x54; 0xbb; 0x16]
  ].

Definition InvSBox : list (list Z) :=
  [
   [0x52; 0x09; 0x6a; 0xd5; 0x30; 0x36; 0xa5; 0x38; 0xbf; 0x40; 0xa3; 0x9e; 0x81; 0xf3; 0xd7; 0xfb];
   [0x7c; 0xe3; 0x39; 0x82; 0x9b; 0x2f; 0xff; 0x87; 0x34; 0x8e; 0x43; 0x44; 0xc4; 0xde; 0xe9; 0xcb];
   [0x54; 0x7b; 0x94; 0x32; 0xa6; 0xc2; 0x23; 0x3d; 0xee; 0x4c; 0x95; 0x0b; 0x42; 0xfa; 0xc3; 0x4e];
   [0x08; 0x2e; 0xa1; 0x66; 0x28; 0xd9; 0x24; 0xb2; 0x76; 0x5b; 0xa2; 0x49; 0x6d; 0x8b; 0xd1; 0x25];
   [0x72; 0xf8; 0xf6; 0x64; 0x86; 0x68; 0x98; 0x16; 0xd4; 0xa4; 0x5c; 0xcc; 0x5d; 0x65; 0xb6; 0x92];
   [0x6c; 0x70; 0x48; 0x50; 0xfd; 0xed; 0xb9; 0xda; 0x5e; 0x15; 0x46; 0x57; 0xa7; 0x8d; 0x9d; 0x84];
   [0x90; 0xd8; 0xab; 0x00; 0x8c; 0xbc; 0xd3; 0x0a; 0xf7; 0xe4; 0x58; 0x05; 0xb8; 0xb3; 0x45; 0x06];
   [0xd0; 0x2c; 0x1e; 0x8f; 0xca; 0x3f; 0x0f; 0x02; 0xc1; 0xaf; 0xbd; 0x03; 0x01; 0x13; 0x8a; 0x6b];
   [0x3a; 0x91; 0x11; 0x41; 0x4f; 0x67; 0xdc; 0xea; 0x97; 0xf2; 0xcf; 0xce; 0xf0; 0xb4; 0xe6; 0x73];
   [0x96; 0xac; 0x74; 0x22; 0xe7; 0xad; 0x35; 0x85; 0xe2; 0xf9; 0x37; 0xe8; 0x1c; 0x75; 0xdf; 0x6e];
   [0x47; 0xf1; 0x1a; 0x71; 0x1d; 0x29; 0xc5; 0x89; 0x6f; 0xb7; 0x62; 0x0e; 0xaa; 0x18; 0xbe; 0x1b];
   [0xfc; 0x56; 0x3e; 0x4b; 0xc6; 0xd2; 0x79; 0x20; 0x9a; 0xdb; 0xc0; 0xfe; 0x78; 0xcd; 0x5a; 0xf4];
   [0x1f; 0xdd; 0xa8; 0x33; 0x88; 0x07; 0xc7; 0x31; 0xb1; 0x12; 0x10; 0x59; 0x27; 0x80; 0xec; 0x5f];
   [0x60; 0x51; 0x7f; 0xa9; 0x19; 0xb5; 0x4a; 0x0d; 0x2d; 0xe5; 0x7a; 0x9f; 0x93; 0xc9; 0x9c; 0xef];
   [0xa0; 0xe0; 0x3b; 0x4d; 0xae; 0x2a; 0xf5; 0xb0; 0xc8; 0xeb; 0xbb; 0x3c; 0x83; 0x53; 0x99; 0x61];
   [0x17; 0x2b; 0x04; 0x7e; 0xba; 0x77; 0xd6; 0x26; 0xe1; 0x69; 0x14; 0x63; 0x55; 0x21; 0x0c; 0x7d]
  ].

Definition Rcon : list (list Z) :=
  [
   [0x00; 0x00; 0x00; 0x00];
   [0x01; 0x00; 0x00; 0x00];
   [0x02; 0x00; 0x00; 0x00];
   [0x04; 0x00; 0x00; 0x00];
   [0x08; 0x00; 0x00; 0x00];
   [0x10; 0x00; 0x00; 0x00];
   [0x20; 0x00; 0x00; 0x00];
   [0x40; 0x00; 0x00; 0x00];
   [0x80; 0x00; 0x00; 0x00];
   [0x1b; 0x00; 0x00; 0x00];
   [0x36; 0x00; 0x00; 0x00]
  ].

Definition State := list (list Z).

(** [state[i][j]] *)
Definition cell (state : State) (i j : Z) : result Z :=
  r <- row_at state i ;; Ok (num_at r j).

(** [state[i][j] = v] *)
Definition set_cell (state : State) (i j : Z) (v : Z) : result State :=
  r <- row_at state i ;; Ok (set_at [] state i (set_at 0 r j v)).

(** [SBox[(x & 0xF0) >> 4][x & 0x0F]] *)
Definition subByte (x : Z) : Z :=
  num_at (nth (Z.to_nat (JS.sar (JS.and x 0xF0) 4)) SBox []) (JS.and x 0x0F).

Definition invSubByte (x : Z) : Z :=
  num_at (nth (Z.to_nat (JS.sar (JS.and x 0xF0) 4)) InvSBox []) (JS.and x 0x0F).

Definition addRoundKey (state : State) (roundKeyArray : list (list Z)) (offset : Z)
  : result State :=
  for_range 0 4 (fun i =>
    for_range 0 4 (fun j state =>
      s <- cell state i j ;;
      w <- row_at roundKeyArray (offset + j) ;;
      set_cell state i j (JS.xor s (num_at w i)))) state.

Definition subBytes (state : State) : result State :=
  for_range 0 4 (fun i =>
    for_range 0 4 (fun j state =>
      s <- cell state i j ;;
      set_cell state i j (subByte s))) state.

Definition invSubBytes (state : State) : result State :=
  for_range 0 4 (fun i =>
    for_range 0 4 (fun j state =>
      s <- cell state i j ;;
      set_cell state i j (invSubByte s))) state.

(** [subWord(value)] and [rotWord(value)] change their argument in place; the
    model returns the changed word. *)
Definition subWord (value : list Z) : result (list Z) :=
  for_range 0 4 (fun i value =>
    Ok (set_at 0 value i (subByte (num_at value i)))) value.

Definition rotWord (value : list Z) : list Z :=
  let tmp := num_at value 0 in
  let value := set_at 0 value 0 (num_at value 1) in
  let value := set_at 0 value 1 (num_at value 2) in
  let value := set_at 0 value 2 (num_at value 3) in
  set_at 0 value 3 tmp.

(** The [while(true)] loop shared by [shiftRows] and [invShiftRows]: it moves
    the elements of row [i] along the cycle that starts at column [j], and
    leaves in [k] the column that receives [tmp]. *)
Fixpoint shiftCycle (fuel : nat) (i j k : Z) (state : State) : result (State * Z) :=
  match fuel with
  | O => OutOfFuel
  | Datatypes.S fuel' =>
      let l := k + i in
      let l := if 4 <=? l then l - 4 else l in
      if l =? j then Ok (state, k)
      else
        v <- cell state i l ;;
        state <- set_cell state i k v ;;
        shiftCycle fuel' i j l state
  end.

Definition shiftOne (i j : Z) (state : State) : result State :=
  tmp <- cell state i j ;;
  sk <- shiftCycle 8 i j j state ;;
  set_cell (fst sk) i (snd sk) tmp.

Definition shiftRows (state : State) : result State :=
  for_range 1 4 (fun i =>
    for_range 0 (Z.rem (i - 1) 2 + 1) (fun j => shiftOne i j)) state.

Definition invShiftRows (state : State) : result State :=
  for_range_down 3 0 (fun i =>
    for_range_down 3 (Z.rem (i - 1) 2 + 1) (fun j => shiftOne i j)) state.

Fixpoint ffmLoop (n : nat) (value0 value1 result : Z) : Z :=
  match n with
  | O => result
  | Datatypes.S n' =>
      let result := if negb (JS.and value1 1 =? 0) then JS.xor result value0
                    else result in
      let value0 := if negb (JS.and value0 0x80 =? 0)
                    then JS.xor (JS.shl value0 1) 0x11b
                    else JS.shl value0 1 in
      ffmLoop n' value0 (JS.sar value1 1) result
  end.

Definition finiteFieldMultiplication (value0 value1 : Z) : Z :=
  ffmLoop 8 value0 value1 0.

Definition xor4 (a b c d : Z) : Z := JS.xor (JS.xor (JS.xor a b) c) d.

(** [mixColumns]: the first loop fills [tmp] column by column, the second
    copies [tmp] into [state]. *)
Definition mixColumns (state : State) : result State :=
  let ffm := finiteFieldMultiplication in
  tmp <- for_range 0 4 (fun i tmp =>
    s0 <- cell state 0 i ;; s1 <- cell state 1 i ;;
    s2 <- cell state 2 i ;; s3 <- cell state 3 i ;;
    tmp <- set_cell tmp 0 i (xor4 (ffm 0x02 s0) (ffm 0x03 s1) s2 s3) ;;
    tmp <- set_cell tmp 1 i (xor4 s0 (ffm 0x02 s1) (ffm 0x03 s2) s3) ;;
    tmp <- set_cell tmp 2 i (xor4 s0 s1 (ffm 0x02 s2) (ffm 0x03 s3)) ;;
    set_cell tmp 3 i (xor4 (ffm 0x03 s0) s1 s2 (ffm 0x02 s3)))
    [[]; []; []; []] ;;
  for_range 0 4 (fun i =>
    for_range 0 4 (fun j state =>
      t <- cell tmp i j ;; set_cell state i j t)) state.

Definition invMixColumns (state : State) : result State :=
  let ffm := finiteFieldMultiplication in
  tmp <- for_range 0 4 (fun i tmp =>
    s0 <- cell state 0 i ;; s1 <- cell state 1 i ;;
    s2 <- cell state 2 i ;; s3 <- cell state 3 i ;;
    tmp <- set_cell tmp 0 i
      (xor4 (ffm 0x0e s0) (ffm 0x0b s1) (ffm 0x0d s2) (ffm 0x09 s3)) ;;
    tmp <- set_cell tmp 1 i
      (xor4 (ffm 0x09 s0) (ffm 0x0e s1) (ffm 0x0b s2) (ffm 0x0d s3)) ;;
    tmp <- set_cell tmp 2 i
      (xor4 (ffm 0x0d s0) (ffm 0x09 s1) (ffm 0x0e s2) (ffm 0x0b s3)) ;;
    set_cell tmp 3 i
      (xor4 (ffm 0x0b s0) (ffm 0x0d s1) (ffm 0x09 s2) (ffm 0x0e s3)))
    [[]; []; []; []] ;;
  for_range 0 4 (fun j =>
    for_range 0 4 (fun i state =>
      t <- cell tmp i j ;; set_cell state i j t)) state.

(** [keyExpansion(roundLimit, key)]. [parseInt(x / y)] on non-negative
    integers is the integer quotient; [%] is [Z.rem]. The function is private
    to the module and is called with keys of 16, 24 or 32 elements only. *)
Definition keyExpansion (roundLimit : Z) (key : list Z) : result (list (list Z)) :=
  let nK := Z.of_nat (List.length key) / 4 in
  result <- for_range 0 (Z.of_nat (List.length key)) (fun i result =>
    let result := if Z.rem i 4 =? 0 then result ++ [[]] else result in
    r <- row_at result (i / 4) ;;
    Ok (set_at [] result (i / 4) (r ++ [num_at key i]))) [] ;;
  for_range nK (4 * roundLimit) (fun i result =>
    tmp <- row_at result (i - 1) ;;
    tmp <-
      (if Z.rem i nK =? 0 then
         tmp <- subWord (rotWord tmp) ;;
         rc <- row_at Rcon (i / nK) ;;
         for_range 0 4 (fun j tmp =>
           Ok (set_at 0 tmp j (JS.xor (num_at tmp j) (num_at rc j)))) tmp
       else if (6 <? nK) && (Z.rem i nK =? 4) then subWord tmp
       else Ok tmp) ;;
    prev <- row_at result (i - nK) ;;
    word <- for_range 0 4 (fun j word =>
      Ok (set_at 0 word j (JS.xor (num_at prev j) (num_at tmp j)))) [] ;;
    Ok (set_at [] result i word)) result.

Definition roundLimitOf (key : list Z) : result Z :=
  let n := Z.of_nat (List.length key) in
  if n =? 16 then Ok 11
  else if n =? 24 then Ok 13
  else if n =? 32 then Ok 15
  else Throw "illegal key length".

(** Loading the input into the state, as both [encrypt] and [decrypt] do. *)
Definition loadState (input : list Z) : result State :=
  state <- for_range 0 15 (fun i state =>
    r <- row_at state (i / 4) ;;
    Ok (set_at [] state (i / 4) (r ++ [num_at input (Z.rem (i * 4) 15)])))
    [[]; []; []; []] ;;
  r <- row_at state 3 ;;
  Ok (set_at [] state 3 (r ++ [num_at input 15])).

Definition storeState (state : State) : result (list Z) :=
  for_range 0 4 (fun i =>
    for_range 0 4 (fun j output =>
      s <- cell state j i ;; Ok (output ++ [s]))) [].

Definition encrypt (input key : list Z) : result (list Z) :=
  roundLimit <- roundLimitOf key ;;
  w <- keyExpansion roundLimit key ;;
  state <- loadState input ;;
  state <- addRoundKey state w 0 ;;
  state <- for_range 1 roundLimit (fun round state =>
    state <- subBytes state ;;
    state <- shiftRows state ;;
    state <- (if round + 1 <? roundLimit then mixColumns state else Ok state) ;;
    addRoundKey state w (round * 4)) state ;;
  storeState state.

Definition decrypt (input key : list Z) : result (list Z) :=
  roundLimit <- roundLimitOf key ;;
  w <- keyExpansion roundLimit key ;;
  state <- loadState input ;;
  state <- addRoundKey state w ((roundLimit - 1) * 4) ;;
  state <- for_range_down (roundLimit - 2) 0 (fun round state =>
    state <- invShiftRows state ;;
    state <- invSubBytes state ;;
    state <- addRoundKey state w (round * 4) ;;
    if 0 <? round then invMixColumns state else Ok state) state ;;
  storeState state.

End AES.

(** ** Auxiliary definitions for the AES proofs *)

Definition is_byte (x : Z) : Prop := 0 <= x < 256.

Definition all_bytes : list Z := map Z.of_nat (seq 0 256).

Module AESAux.

Import AES.
Local Open Scope result_scope.

(** doubling in GF(2^8) *)
Definition xtime (v : Z) : Z := if Z.testbit v 7 then Z.lxor (2 * v) 0x11b else 2 * v.

Fixpoint ffmFast (n : nat) (v0 v1 r : Z) : Z :=
  match n with
  | O => r
  | S n' => ffmFast n' (xtime v0) (v1 / 2) (if Z.odd v1 then Z.lxor r v0 else r)
  end.

Definition gmul (c x : Z) : Z := ffmFast 8 c x 0.

Definition mixColumn (s0 s1 s2 s3 : Z) : list Z :=
  let ffm := finiteFieldMultiplication in
  [xor4 (ffm 0x02 s0) (ffm 0x03 s1) s2 s3;
   xor4 s0 (ffm 0x02 s1) (ffm 0x03 s2) s3;
   xor4 s0 s1 (ffm 0x02 s2) (ffm 0x03 s3);
   xor4 (ffm 0x03 s0) s1 s2 (ffm 0x02 s3)].

Definition invMixColumn (s0 s1 s2 s3 : Z) : list Z :=
  let ffm := finiteFieldMultiplication in
  [xor4 (ffm 0x0e s0) (ffm 0x0b s1) (ffm 0x0d s2) (ffm 0x09 s3);
   xor4 (ffm 0x09 s0) (ffm 0x0e s1) (ffm 0x0b s2) (ffm 0x0d s3);
   xor4 (ffm 0x0d s0) (ffm 0x09 s1) (ffm 0x0e s2) (ffm 0x0b s3);
   xor4 (ffm 0x0b s0) (ffm 0x0d s1) (ffm 0x09 s2) (ffm 0x0e s3)].

(** The columns in terms of [gmul] and [Z.lxor]. *)
Definition mixColumnG (a b c d : Z) : list Z :=
  [Z.lxor (Z.lxor (Z.lxor (gmul 2 a) (gmul 3 b)) c) d;
   Z.lxor (Z.lxor (Z.lxor a (gmul 2 b)) (gmul 3 c)) d;
   Z.lxor (Z.lxor (Z.lxor a b) (gmul 2 c)) (gmul 3 d);
   Z.lxor (Z.lxor (Z.lxor (gmul 3 a) b) c) (gmul 2 d)].

Definition invMixColumnG (a b c d : Z) : list Z :=
  [Z.lxor (Z.lxor (Z.lxor (gmul 14 a) (gmul 11 b)) (gmul 13 c)) (gmul 9 d);
   Z.lxor (Z.lxor (Z.lxor (gmul 9 a) (gmul 14 b)) (gmul 11 c)) (gmul 13 d);
   Z.lxor (Z.lxor (Z.lxor (gmul 13 a) (gmul 9 b)) (gmul 14 c)) (gmul 11 d);
   Z.lxor (Z.lxor (Z.lxor (gmul 11 a) (gmul 13 b)) (gmul 9 c)) (gmul 14 d)].

Definition byte_row (r : list Z) : Prop := List.length r = 4%nat /\ Forall is_byte r.
Definition byte_state (st : State) : Prop :=
  List.length st = 4%nat /\ Forall byte_row st.

(** The state whose columns are the four given lists. *)
Definition of_columns (k0 k1 k2 k3 : list Z) : State :=
  map (fun i => [num_at k0 i; num_at k1 i; num_at k2 i; num_at k3 i]) [0; 1; 2; 3].

(** A key schedule is well formed for an offset when the four words from
    that offset on are rows of bytes. *)
Definition schedule_ok (w : list (list Z)) (n : Z) : Prop :=
  Z.of_nat (List.length w) = n /\ Forall byte_row w.

(** The body of the round loop of [encrypt], and that of [decrypt]. *)
Definition encRound (roundLimit : Z) (w : list (list Z)) (round : Z) (state : State)
  : result State :=
  state <- subBytes state ;;
  state <- shiftRows state ;;
  state <- (if round + 1 <? roundLimit then mixColumns state else Ok state) ;;
  addRoundKey state w (round * 4).

Definition decRound (w : list (list Z)) (round : Z) (state : State) : result State :=
  state <- invShiftRows state ;;
  state <- invSubBytes state ;;
  state <- addRoundKey state w (round * 4) ;;
  if 0 <? round then invMixColumns state else Ok state.

(** The body of the second loop of [keyExpansion]. *)
Definition expandStep (nK : Z) (i : Z) (words : list (list Z)) : result (list (list Z)) :=
  tmp <- row_at words (i - 1) ;;
  tmp <-
    (if Z.rem i nK =? 0 then
       tmp <- subWord (rotWord tmp) ;;
       rc <- row_at Rcon (i / nK) ;;
       for_range 0 4 (fun j tmp =>
         Ok (set_at 0 tmp j (JS.xor (num_at tmp j) (num_at rc j)))) tmp
     else if (6 <? nK) && (Z.rem i nK =? 4) then subWord tmp
     else Ok tmp) ;;
  prev <- row_at words (i - nK) ;;
  word <- for_range 0 4 (fun j word =>
    Ok (set_at 0 word j (JS.xor (num_at prev j) (num_at tmp j)))) [] ;;
  Ok (set_at [] words i word).

End AESAux.

(** ** The DTLS client of dtlsclient.js *)

(** *** JavaScript values and arrays *)

(** An array element or a numeric field: [undefined], [NaN] or an integral
    number. *)
Inductive jsval : Type :=
| Undef
| NaN
| Num (z : Z).

Definition jsarray : Type := list jsval.

(** The number that a bitwise operator sees: [undefined] and [NaN] are
    converted to 0 by [ToInt32]. *)
Definition toInt (v : jsval) : Z :=
  match v with
  | Num z => z
  | _ => 0
  end.

Definition nums (l : list Z) : jsarray := map Num l.

Definition jsval_eqb (a b : jsval) : bool :=
  match a, b with
  | Undef, Undef => true
  | NaN, NaN => true
  | Num x, Num y => x =? y
  | _, _ => false
  end.

(** [x++] on a field that holds a sequence number. Numbers are doubles:
    below [2^53] the increment is exact, at [2^53] the sum rounds back to
    [2^53]; a counter that starts at 0 never holds another value. *)
Definition js_incr (v : jsval) : jsval :=
  match v with
  | Num z => if z <? 2 ^ 53 then Num (z + 1) else Num z
  | _ => NaN
  end.

(** [a.slice(start, end)] *)
Definition slice {A : Type} (a : list A) (start stop : Z) : list A :=
  let len := Z.of_nat (List.length a) in
  let norm := fun i => if i <? 0 then Z.max (len + i) 0 else Z.min i len in
  firstn (Z.to_nat (norm stop - norm start)) (skipn (Z.to_nat (norm start)) a).

(** [a.concat(x)] where [x] is an array or [undefined]: an array is spliced,
    [undefined] is appended as one element. *)
Definition concatU (a : jsarray) (x : option jsarray) : jsarray :=
  match x with
  | Some b => a ++ b
  | None => a ++ [Undef]
  end.

(** [uintToArray] and [arrayToUint] on JavaScript values. *)
Definition uintToArrayV (number : jsval) (length : Z) : jsarray :=
  nums (uintToArray (toInt number) length).

Definition arrayToUintV (a : jsarray) : Z := arrayToUint (map toInt a).

Definition bytesUpToArray_fuel : nat := 64.

(** [bytesUpToArray(number)]: the [while (number > 0)] loop ends within a
    few turns, because [>>] leaves a 32-bit number that shrinks at every turn. *)
Fixpoint bytesUpToArrayLoop (fuel : nat) (number : Z) (a : list Z) : result (list Z) :=
  match fuel with
  | O => OutOfFuel
  | S fuel' =>
      if 0 <? number
      then bytesUpToArrayLoop fuel' (JS.sar number 8) (JS.and number 0xFF :: a)
      else Ok a
  end.

Definition bytesUpToArray (number : Z) : result (list Z) :=
  if number =? 0 then Ok [0x00]
  else bytesUpToArrayLoop bytesUpToArray_fuel number [].

(** [stringToArray(s)]; a string is a sequence of code units below 256. *)
Definition charCode (c : ascii) : Z := Z.of_N (N_of_ascii c).

Definition stringToArray (s : string) : list Z :=
  fold_left (fun a c => a ++ uintToArray (charCode c) 8) (list_ascii_of_string s) [].

(** *** Constants *)

Module handshakeType.
Definition HELLO_REQUEST : Z := 0.
Definition CLIENT_HELLO : Z := 1.
Definition SERVER_HELLO : Z := 2.
Definition HELLO_VERIFY_REQUEST : Z := 3.
Definition SERVER_HELLO_DONE : Z := 14.
Definition CLIENT_KEY_EXCHANGE : Z := 16.
Definition FINISHED : Z := 20.
End handshakeType.

Module contentType.
Definition CHANGE_CIPHER_SPEC : Z := 20.
Definition ALERT : Z := 21.
Definition HANDSHAKE : Z := 22.
Definition APPLICATION_DATA : Z := 23.
End contentType.

Definition DTLS_MASTER_SECRET_LENGTH : Z := 48.

(** [this._protocolVersion] and [this._cipherSuites] are assigned once, in
    [_init] (DTLS 1.2 and TLS_PSK_WITH_AES_128_GCM_SHA256). *)
Definition _protocolVersion : Z := 0xfefd.
Definition _cipherSuites : Z := 0x00a8.

(** *** Packets *)

(** An outgoing packet object. [cookie = None] stands for the number 0 that
    the initial ClientHello carries in that field; [random = None] and
    [hType = None] for an absent property. The [psk] property of the key
    exchange packet is never read and is left out. *)
Record OutPacket : Type := mkOutPacket {
  cType : Z;
  hType : option Z;
  epoch : Z;
  headerSeq : jsval;
  sessionId : Z;
  cookie : option jsarray;
  handshakeSeq : Z;
  random : option jsarray
}.

Definition with_cType (v : Z) (p : OutPacket) : OutPacket :=
  mkOutPacket v (hType p) (epoch p) (headerSeq p) (sessionId p) (cookie p) (handshakeSeq p) (random p).

Definition with_hType (v : option Z) (p : OutPacket) : OutPacket :=
  mkOutPacket (cType p) v (epoch p) (headerSeq p) (sessionId p) (cookie p) (handshakeSeq p) (random p).

Definition with_epoch (v : Z) (p : OutPacket) : OutPacket :=
  mkOutPacket (cType p) (hType p) v (headerSeq p) (sessionId p) (cookie p) (handshakeSeq p) (random p).

Definition with_headerSeq (v : jsval) (p : OutPacket) : OutPacket :=
  mkOutPacket (cType p) (hType p) (epoch p) v (sessionId p) (cookie p) (handshakeSeq p) (random p).

Definition with_sessionId (v : Z) (p : OutPacket) : OutPacket :=
  mkOutPacket (cType p) (hType p) (epoch p) (headerSeq p) v (cookie p) (handshakeSeq p) (random p).

Definition with_cookie (v : option jsarray) (p : OutPacket) : OutPacket :=
  mkOutPacket (cType p) (hType p) (epoch p) (headerSeq p) (sessionId p) v (handshakeSeq p) (random p).

Definition with_handshakeSeq (v : Z) (p : OutPacket) : OutPacket :=
  mkOutPacket (cType p) (hType p) (epoch p) (headerSeq p) (sessionId p) (cookie p) v (random p).

Definition with_random (v : option jsarray) (p : OutPacket) : OutPacket :=
  mkOutPacket (cType p) (hType p) (epoch p) (headerSeq p) (sessionId p) (cookie p) (handshakeSeq p) v.


(** The properties that [_readHandshakePacket] adds to an incoming packet. *)
Inductive SubPacket : Type :=
| SubNone
| SubHelloVerify (protocolVersionH cookieLegth : Z) (cookie : jsarray)
| SubServerHello (protocolVersionH : Z) (time random : jsarray)
                 (sessionIdLength : Z) (sessionId : jsarray) (cipherSuite : Z).

Record InPacket : Type := mkInPacket {
  in_cType : Z;
  in_protocolVersion : Z;
  in_epoch : Z;
  in_headerSeq : Z;
  in_hType : option Z;
  in_handshakeSeq : option Z;
  in_fragmentOffset : option Z;
  in_fragmentLength : option Z;
  in_sub : SubPacket
}.

(** *** The client object and its surroundings *)

(** A continuation passed to [_sendMsg]. *)
Inductive Callback : Type :=
| CbNone
| CbSendHandshakeCipherSpec
| CbSendHandshakeFinished.

(** A GLib timeout source armed by [_initiateHandshake]: its id, the time it
    is due and the [attemptCounter] captured by its closure. *)
Record Source : Type := mkSource {
  src_id : Z;
  src_due : Z;
  src_attemptCounter : Z
}.

(** The fields of the client object ([timers] to [_pskIdentity]) followed by
    the state of its collaborators: the clock and the armed timeout sources of
    the main loop, the writes in flight (each with its continuation and
    whether it was cancelled), the two cancellables, the socket, whether a
    read is outstanding, the number of [Math.random()] draws made, the
    messages handed to the output stream (with the time) and the signals
    emitted. An [option] field is [None] while the property is [undefined]
    (or [null]). *)
Record Client : Type := mkClient {
  timers : list Z;
  _handshakeInProgress : bool;
  _encrypted : bool;
  _connection : bool;
  _handshakeMessages : list (jsval * jsarray);
  _clientRandom : option jsarray;
  _serverRandom : option jsarray;
  _masterSecret : option jsarray;
  _keyBlock : option jsarray;
  _clientWriteKey : option jsarray;
  _serverWriteKey : option jsarray;
  _clientIV : option jsarray;
  _serverIV : option jsarray;
  _helloClientPacket : option OutPacket;
  streamSeq : jsval;
  _readyToSend : option bool;
  _psk : option string;
  _pskIdentity : option string;
  now : Z;
  nextSourceId : Z;
  sources : list Source;
  pendingWrites : list (Callback * bool);
  outputCancelled : bool;
  inputCancelled : bool;
  socketClosed : bool;
  reading : bool;
  randomDraws : nat;
  sent : list (Z * jsarray);
  emitted : list string
}.

Definition set_timers (v : list Z) (s : Client) : Client :=
  mkClient v (_handshakeInProgress s) (_encrypted s) (_connection s) (_handshakeMessages s) (_clientRandom s) (_serverRandom s) (_masterSecret s) (_keyBlock s) (_clientWriteKey s) (_serverWriteKey s) (_clientIV s) (_serverIV s) (_helloClientPacket s) (streamSeq s) (_readyToSend s) (_psk s) (_pskIdentity s) (now s) (nextSourceId s) (sources s) (pendingWrites s) (outputCancelled s) (inputCancelled s) (socketClosed s) (reading s) (randomDraws s) (sent s) (emitted s).

Definition set__handshakeInProgress (v : bool) (s : Client) : Client :=
  mkClient (timers s) v (_encrypted s) (_connection s) (_handshakeMessages s) (_clientRandom s) (_serverRandom s) (_masterSecret s) (_keyBlock s) (_clientWriteKey s) (_serverWriteKey s) (_clientIV s) (_serverIV s) (_helloClientPacket s) (streamSeq s) (_readyToSend s) (_psk s) (_pskIdentity s) (now s) (nextSourceId s) (sources s) (pendingWrites s) (outputCancelled s) (inputCancelled s) (socketClosed s) (reading s) (randomDraws s) (sent s) (emitted s).

Definition set__encrypted (v : bool) (s : Client) : Client :=
  mkClient (timers s) (_handshakeInProgress s) v (_connection s) (_handshakeMessages s) (_clientRandom s) (_serverRandom s) (_masterSecret s) (_keyBlock s) (_clientWriteKey s) (_serverWriteKey s) (_clientIV s) (_serverIV s) (_helloClientPacket s) (streamSeq s) (_readyToSend s) (_psk s) (_pskIdentity s) (now s) (nextSourceId s) (sources s) (pendingWrites s) (outputCancelled s) (inputCancelled s) (socketClosed s) (reading s) (randomDraws s) (sent s) (emitted s).

Definition set__connection (v : bool) (s : Client) : Client :=
  mkClient (timers s) (_handshakeInProgress s) (_encrypted s) v (_handshakeMessages s) (_clientRandom s) (_serverRandom s) (_masterSecret s) (_keyBlock s) (_clientWriteKey s) (_serverWriteKey s) (_clientIV s) (_serverIV s) (_helloClientPacket s) (streamSeq s) (_readyToSend s) (_psk s) (_pskIdentity s) (now s) (nextSourceId s) (sources s) (pendingWrites s) (outputCancelled s) (inputCancelled s) (socketClosed s) (reading s) (randomDraws s) (sent s) (emitted s).

Definition set__handshakeMessages (v : list (jsval * jsarray)) (s : Client) : Client :=
  mkClient (timers s) (_handshakeInProgress s) (_encrypted s) (_connection s) v (_clientRandom s) (_serverRandom s) (_masterSecret s) (_keyBlock s) (_clientWriteKey s) (_serverWriteKey s) (_clientIV s) (_serverIV s) (_helloClientPacket s) (streamSeq s) (_readyToSend s) (_psk s) (_pskIdentity s) (now s) (nextSourceId s) (sources s) (pendingWrites s) (outputCancelled s) (inputCancelled s) (socketClosed s) (reading s) (randomDraws s) (sent s) (emitted s).

Definition set__clientRandom (v : option jsarray) (s : Client) : Client :=
  mkClient (timers s) (_handshakeInProgress s) (_encrypted s) (_connection s) (_handshakeMessages s) v (_serverRandom s) (_masterSecret s) (_keyBlock s) (_clientWriteKey s) (_serverWriteKey s) (_clientIV s) (_serverIV s) (_helloClientPacket s) (streamSeq s) (_readyToSend s) (_psk s) (_pskIdentity s) (now s) (nextSourceId s) (sources s) (pendingWrites s) (outputCancelled s) (inputCancelled s) (socketClosed s) (reading s) (randomDraws s) (sent s) (emitted s).

Definition set__serverRandom (v : option jsarray) (s : Client) : Client :=
  mkClient (timers s) (_handshakeInProgress s) (_encrypted s) (_connection s) (_handshakeMessages s) (_clientRandom s) v (_masterSecret s) (_keyBlock s) (_clientWriteKey s) (_serverWriteKey s) (_clientIV s) (_serverIV s) (_helloClientPacket s) (streamSeq s) (_readyToSend s) (_psk s) (_pskIdentity s) (now s) (nextSourceId s) (sources s) (pendingWrites s) (outputCancelled s) (inputCancelled s) (socketClosed s) (reading s) (randomDraws s) (sent s) (emitted s).

Definition set__masterSecret (v : option jsarray) (s : Client) : Client :=
  mkClient (timers s) (_handshakeInProgress s) (_encrypted s) (_connection s) (_handshakeMessages s) (_clientRandom s) (_serverRandom s) v (_keyBlock s) (_clientWriteKey s) (_serverWriteKey s) (_clientIV s) (_serverIV s) (_helloClientPacket s) (streamSeq s) (_readyToSend s) (_psk s) (_pskIdentity s) (now s) (nextSourceId s) (sources s) (pendingWrites s) (outputCancelled s) (inputCancelled s) (socketClosed s) (reading s) (randomDraws s) (sent s) (emitted s).

Definition set__keyBlock (v : option jsarray) (s : Client) : Client :=
  mkClient (timers s) (_handshakeInProgress s) (_encrypted s) (_connection s) (_handshakeMessages s) (_clientRandom s) (_serverRandom s) (_masterSecret s) v (_clientWriteKey s) (_serverWriteKey s) (_clientIV s) (_serverIV s) (_helloClientPacket s) (streamSeq s) (_readyToSend s) (_psk s) (_pskIdentity s) (now s) (nextSourceId s) (sources s) (pendingWrites s) (outputCancelled s) (inputCancelled s) (socketClosed s) (reading s) (randomDraws s) (sent s) (emitted s).

Definition set__clientWriteKey (v : option jsarray) (s : Client) : Client :=
  mkClient (timers s) (_handshakeInProgress s) (_encrypted s) (_connection s) (_handshakeMessages s) (_clientRandom s) (_serverRandom s) (_masterSecret s) (_keyBlock s) v (_serverWriteKey s) (_clientIV s) (_serverIV s) (_helloClientPacket s) (streamSeq s) (_readyToSend s) (_psk s) (_pskIdentity s) (now s) (nextSourceId s) (sources s) (pendingWrites s) (outputCancelled s) (inputCancelled s) (socketClosed s) (reading s) (randomDraws s) (sent s) (emitted s).

Definition set__serverWriteKey (v : option jsarray) (s : Client) : Client :=
  mkClient (timers s) (_handshakeInProgress s) (_encrypted s) (_connection s) (_handshakeMessages s) (_clientRandom s) (_serverRandom s) (_masterSecret s) (_keyBlock s) (_clientWriteKey s) v (_clientIV s) (_serverIV s) (_helloClientPacket s) (streamSeq s) (_readyToSend s) (_psk s) (_pskIdentity s) (now s) (nextSourceId s) (sources s) (pendingWrites s) (outputCancelled s) (inputCancelled s) (socketClosed s) (reading s) (randomDraws s) (sent s) (emitted s).

Definition set__clientIV (v : option jsarray) (s : Client) : Client :=
  mkClient (timers s) (_handshakeInProgress s) (_encrypted s) (_connection s) (_handshakeMessages s) (_clientRandom s) (_serverRandom s) (_masterSecret s) (_keyBlock s) (_clientWriteKey s) (_serverWriteKey s) v (_serverIV s) (_helloClientPacket s) (streamSeq s) (_readyToSend s) (_psk s) (_pskIdentity s) (now s) (nextSourceId s) (sources s) (pendingWrites s) (outputCancelled s) (inputCancelled s) (socketClosed s) (reading s) (randomDraws s) (sent s) (emitted s).

Definition set__serverIV (v : option jsarray) (s : Client) : Client :=
  mkClient (timers s) (_handshakeInProgress s) (_encrypted s) (_connection s) (_handshakeMessages s) (_clientRandom s) (_serverRandom s) (_masterSecret s) (_keyBlock s) (_clientWriteKey s) (_serverWriteKey s) (_clientIV s) v (_helloClientPacket s) (streamSeq s) (_readyToSend s) (_psk s) (_pskIdentity s) (now s) (nextSourceId s) (sources s) (pendingWrites s) (outputCancelled s) (inputCancelled s) (socketClosed s) (reading s) (randomDraws s) (sent s) (emitted s).

Definition set__helloClientPacket (v : option OutPacket) (s : Client) : Client :=
  mkClient (timers s) (_handshakeInProgress s) (_encrypted s) (_connection s) (_handshakeMessages s) (_clientRandom s) (_serverRandom s) (_masterSecret s) (_keyBlock s) (_clientWriteKey s) (_serverWriteKey s) (_clientIV s) (_serverIV s) v (streamSeq s) (_readyToSend s) (_psk s) (_pskIdentity s) (now s) (nextSourceId s) (sources s) (pendingWrites s) (outputCancelled s) (inputCancelled s) (socketClosed s) (reading s) (randomDraws s) (sent s) (emitted s).

Definition set_streamSeq (v : jsval) (s : Client) : Client :=
  mkClient (timers s) (_handshakeInProgress s) (_encrypted s) (_connection s) (_handshakeMessages s) (_clientRandom s) (_serverRandom s) (_masterSecret s) (_keyBlock s) (_clientWriteKey s) (_serverWriteKey s) (_clientIV s) (_serverIV s) (_helloClientPacket s) v (_readyToSend s) (_psk s) (_pskIdentity s) (now s) (nextSourceId s) (sources s) (pendingWrites s) (outputCancelled s) (inputCancelled s) (socketClosed s) (reading s) (randomDraws s) (sent s) (emitted s).

Definition set__readyToSend (v : option bool) (s : Client) : Client :=
  mkClient (timers s) (_handshakeInProgress s) (_encrypted s) (_connection s) (_handshakeMessages s) (_clientRandom s) (_serverRandom s) (_masterSecret s) (_keyBlock s) (_clientWriteKey s) (_serverWriteKey s) (_clientIV s) (_serverIV s) (_helloClientPacket s) (streamSeq s) v (_psk s) (_pskIdentity s) (now s) (nextSourceId s) (sources s) (pendingWrites s) (outputCancelled s) (inputCancelled s) (socketClosed s) (reading s) (randomDraws s) (sent s) (emitted s).

Definition set__psk (v : option string) (s : Client) : Client :=
  mkClient (timers s) (_handshakeInProgress s) (_encrypted s) (_connection s) (_handshakeMessages s) (_clientRandom s) (_serverRandom s) (_masterSecret s) (_keyBlock s) (_clientWriteKey s) (_serverWriteKey s) (_clientIV s) (_serverIV s) (_helloClientPacket s) (streamSeq s) (_readyToSend s) v (_pskIdentity s) (now s) (nextSourceId s) (sources s) (pendingWrites s) (outputCancelled s) (inputCancelled s) (socketClosed s) (reading s) (randomDraws s) (sent s) (emitted s).

Definition set__pskIdentity (v : option string) (s : Client) : Client :=
  mkClient (timers s) (_handshakeInProgress s) (_encrypted s) (_connection s) (_handshakeMessages s) (_clientRandom s) (_serverRandom s) (_masterSecret s) (_keyBlock s) (_clientWriteKey s) (_serverWriteKey s) (_clientIV s) (_serverIV s) (_helloClientPacket s) (streamSeq s) (_readyToSend s) (_psk s) v (now s) (nextSourceId s) (sources s) (pendingWrites s) (outputCancelled s) (inputCancelled s) (socketClosed s) (reading s) (randomDraws s) (sent s) (emitted s).

Definition set_now (v : Z) (s : Client) : Client :=
  mkClient (timers s) (_handshakeInProgress s) (_encrypted s) (_connection s) (_handshakeMessages s) (_clientRandom s) (_serverRandom s) (_masterSecret s) (_keyBlock s) (_clientWriteKey s) (_serverWriteKey s) (_clientIV s) (_serverIV s) (_helloClientPacket s) (streamSeq s) (_readyToSend s) (_psk s) (_pskIdentity s) v (nextSourceId s) (sources s) (pendingWrites s) (outputCancelled s) (inputCancelled s) (socketClosed s) (reading s) (randomDraws s) (sent s) (emitted s).

Definition set_nextSourceId (v : Z) (s : Client) : Client :=
  mkClient (timers s) (_handshakeInProgress s) (_encrypted s) (_connection s) (_handshakeMessages s) (_clientRandom s) (_serverRandom s) (_masterSecret s) (_keyBlock s) (_clientWriteKey s) (_serverWriteKey s) (_clientIV s) (_serverIV s) (_helloClientPacket s) (streamSeq s) (_readyToSend s) (_psk s) (_pskIdentity s) (now s) v (sources s) (pendingWrites s) (outputCancelled s) (inputCancelled s) (socketClosed s) (reading s) (randomDraws s) (sent s) (emitted s).

Definition set_sources (v : list Source) (s : Client) : Client :=
  mkClient (timers s) (_handshakeInProgress s) (_encrypted s) (_connection s) (_handshakeMessages s) (_clientRandom s) (_serverRandom s) (_masterSecret s) (_keyBlock s) (_clientWriteKey s) (_serverWriteKey s) (_clientIV s) (_serverIV s) (_helloClientPacket s) (streamSeq s) (_readyToSend s) (_psk s) (_pskIdentity s) (now s) (nextSourceId s) v (pendingWrites s) (outputCancelled s) (inputCancelled s) (socketClosed s) (reading s) (randomDraws s) (sent s) (emitted s).

Definition set_pendingWrites (v : list (Callback * bool)) (s : Client) : Client :=
  mkClient (timers s) (_handshakeInProgress s) (_encrypted s) (_connection s) (_handshakeMessages s) (_clientRandom s) (_serverRandom s) (_masterSecret s) (_keyBlock s) (_clientWriteKey s) (_serverWriteKey s) (_clientIV s) (_serverIV s) (_helloClientPacket s) (streamSeq s) (_readyToSend s) (_psk s) (_pskIdentity s) (now s) (nextSourceId s) (sources s) v (outputCancelled s) (inputCancelled s) (socketClosed s) (reading s) (randomDraws s) (sent s) (emitted s).

Definition set_outputCancelled (v : bool) (s : Client) : Client :=
  mkClient (timers s) (_handshakeInProgress s) (_encrypted s) (_connection s) (_handshakeMessages s) (_clientRandom s) (_serverRandom s) (_masterSecret s) (_keyBlock s) (_clientWriteKey s) (_serverWriteKey s) (_clientIV s) (_serverIV s) (_helloClientPacket s) (streamSeq s) (_readyToSend s) (_psk s) (_pskIdentity s) (now s) (nextSourceId s) (sources s) (pendingWrites s) v (inputCancelled s) (socketClosed s) (reading s) (randomDraws s) (sent s) (emitted s).

Definition set_inputCancelled (v : bool) (s : Client) : Client :=
  mkClient (timers s) (_handshakeInProgress s) (_encrypted s) (_connection s) (_handshakeMessages s) (_clientRandom s) (_serverRandom s) (_masterSecret s) (_keyBlock s) (_clientWriteKey s) (_serverWriteKey s) (_clientIV s) (_serverIV s) (_helloClientPacket s) (streamSeq s) (_readyToSend s) (_psk s) (_pskIdentity s) (now s) (nextSourceId s) (sources s) (pendingWrites s) (outputCancelled s) v (socketClosed s) (reading s) (randomDraws s) (sent s) (emitted s).

Definition set_socketClosed (v : bool) (s : Client) : Client :=
  mkClient (timers s) (_handshakeInProgress s) (_encrypted s) (_connection s) (_handshakeMessages s) (_clientRandom s) (_serverRandom s) (_masterSecret s) (_keyBlock s) (_clientWriteKey s) (_serverWriteKey s) (_clientIV s) (_serverIV s) (_helloClientPacket s) (streamSeq s) (_readyToSend s) (_psk s) (_pskIdentity s) (now s) (nextSourceId s) (sources s) (pendingWrites s) (outputCancelled s) (inputCancelled s) v (reading s) (randomDraws s) (sent s) (emitted s).

Definition set_reading (v : bool) (s : Client) : Client :=
  mkClient (timers s) (_handshakeInProgress s) (_encrypted s) (_connection s) (_handshakeMessages s) (_clientRandom s) (_serverRandom s) (_masterSecret s) (_keyBlock s) (_clientWriteKey s) (_serverWriteKey s) (_clientIV s) (_serverIV s) (_helloClientPacket s) (streamSeq s) (_readyToSend s) (_psk s) (_pskIdentity s) (now s) (nextSourceId s) (sources s) (pendingWrites s) (outputCancelled s) (inputCancelled s) (socketClosed s) v (randomDraws s) (sent s) (emitted s).

Definition set_randomDraws (v : nat) (s : Client) : Client :=
  mkClient (timers s) (_handshakeInProgress s) (_encrypted s) (_connection s) (_handshakeMessages s) (_clientRandom s) (_serverRandom s) (_masterSecret s) (_keyBlock s) (_clientWriteKey s) (_serverWriteKey s) (_clientIV s) (_serverIV s) (_helloClientPacket s) (streamSeq s) (_readyToSend s) (_psk s) (_pskIdentity s) (now s) (nextSourceId s) (sources s) (pendingWrites s) (outputCancelled s) (inputCancelled s) (socketClosed s) (reading s) v (sent s) (emitted s).

Definition set_sent (v : list (Z * jsarray)) (s : Client) : Client :=
  mkClient (timers s) (_handshakeInProgress s) (_encrypted s) (_connection s) (_handshakeMessages s) (_clientRandom s) (_serverRandom s) (_masterSecret s) (_keyBlock s) (_clientWriteKey s) (_serverWriteKey s) (_clientIV s) (_serverIV s) (_helloClientPacket s) (streamSeq s) (_readyToSend s) (_psk s) (_pskIdentity s) (now s) (nextSourceId s) (sources s) (pendingWrites s) (outputCancelled s) (inputCancelled s) (socketClosed s) (reading s) (randomDraws s) v (emitted s).

Definition set_emitted (v : list string) (s : Client) : Client :=
  mkClient (timers s) (_handshakeInProgress s) (_encrypted s) (_connection s) (_handshakeMessages s) (_clientRandom s) (_serverRandom s) (_masterSecret s) (_keyBlock s) (_clientWriteKey s) (_serverWriteKey s) (_clientIV s) (_serverIV s) (_helloClientPacket s) (streamSeq s) (_readyToSend s) (_psk s) (_pskIdentity s) (now s) (nextSourceId s) (sources s) (pendingWrites s) (outputCancelled s) (inputCancelled s) (socketClosed s) (reading s) (randomDraws s) (sent s) v.


(** The object after [_init], given the two construction properties. *)
Definition initial (psk pskidentity : option string) : Client :=
  mkClient [] true false false [] None None None None None None None None None
           Undef None psk pskidentity 0 1 [] [] false false false false 0%nat [] [].

(** *** Collaborators that are not part of the sources *)

(** Modelled from the spec: the hashing and AEAD modules
    ([crypto/hashing.js], [crypto/gcm.js]) and [Utils.removeFromArray] are
    not among the sources. Section 6 describes [HMAC] and the SHA-256 digest
    as pure functions of byte sequences; section 4.2 describes the AEAD
    operations: encryption gives a ciphertext and a tag ([None] when it
    throws, which [_encryptMsg] catches), decryption gives the plaintext or
    fails ([None]), in which case the caller does not continue.
    [Math_random n] is the value of the [n]-th call of [Math.random()]. *)
Record Externals : Type := mkExternals {
  HMAC : jsarray -> jsarray -> jsarray;
  sha256_hash : jsarray -> jsarray;
  authenticatedEncryption :
    jsarray -> jsarray -> jsarray -> option jsarray -> option (jsarray * jsarray);
  authenticatedDecryption :
    jsarray -> jsarray -> jsarray -> jsarray -> jsarray -> option jsarray;
  removeFromArray : list Z -> Z -> list Z;
  Math_random : nat -> Q
}.

(** *** Calls that read and change the client *)

Definition M (A : Type) : Type := Client -> result A * Client.

Definition ret {A : Type} (a : A) : M A := fun s => (Ok a, s).

Definition throw {A : Type} (e : string) : M A := fun s => (Throw e, s).

Definition mbind {A B : Type} (m : M A) (k : A -> M B) : M B :=
  fun s =>
    match m s with
    | (Ok a, s') => k a s'
    | (Throw e, s') => (Throw e, s')
    | (OutOfFuel, s') => (OutOfFuel, s')
    end.

Definition gets {A : Type} (f : Client -> A) : M A := fun s => (Ok (f s), s).

Definition modify (f : Client -> Client) : M unit := fun s => (Ok tt, f s).

(** A pure computation that may throw. *)
Definition lift {A : Type} (r : result A) : M A := fun s => (r, s).

(** Using a property as an object: a TypeError when it is [undefined]. *)
Definition need {A : Type} (f : Client -> option A) : M A :=
  fun s =>
    match f s with
    | Some a => (Ok a, s)
    | None => (Throw "TypeError", s)
    end.

(** The rest of a callback is abandoned when it throws; the object keeps the
    changes made so far. *)
Definition catch {A : Type} (m : M A) : M unit :=
  fun s => (Ok tt, snd (m s)).

Declare Scope M_scope.
Delimit Scope M_scope with M.
Notation "x <- c ;; k" := (mbind c (fun x => k))
  (at level 61, c at next level, right associativity) : M_scope.
Notation "c ;;; k" := (mbind c (fun _ => k))
  (at level 61, right associativity) : M_scope.

Fixpoint repeatM {A : Type} (n : nat) (body : A -> M A) (a : A) : M A :=
  match n with
  | O => ret a
  | S n' => mbind (body a) (repeatM n' body)
  end.

(** *** Record and handshake codec, key derivation *)

Section DTLSClient.

Variable ext : Externals.

Local Open Scope M_scope.

(** [getRandomInt(max)] for an integral [max]:
    [Math.floor(Math.random() * Math.floor(max))], computed on rationals. *)
Definition getRandomInt (max : Z) : M Z :=
  fun s =>
    (Ok (Qfloor (Math_random ext (randomDraws s) * inject_Z max)),
     set_randomDraws (S (randomDraws s)) s).

(** [_createRecordHeader(packet, length)] *)
Definition _createRecordHeader (packet : OutPacket) (length : Z) : jsarray :=
  let message := [] in
  (* content type *)
  let message := message ++ nums (uintToArray (cType packet) 8) in
  (* protocol version *)
  let message := message ++ nums (uintToArray _protocolVersion 16) in
  (* epoch *)
  let message := message ++ nums (uintToArray (epoch packet) 16) in
  (* sequence number *)
  let message := message ++ uintToArrayV (headerSeq packet) 48 in
  (* length *)
  let message := message ++ nums (uintToArray length 16) in
  message.

Definition len {A : Type} (a : list A) : Z := Z.of_nat (List.length a).

(** [_createHandshakeClientHelloBody(packet)]; returns the body and the
    packet, which gains its [random] property on first use. *)
Definition _createHandshakeClientHelloBody (packet : OutPacket) : M (jsarray * OutPacket) :=
  let handshakeBody := [] in
  (* protocol version *)
  let handshakeBody := handshakeBody ++ nums (uintToArray _protocolVersion 16) in
  (* time *)
  let time := nums (uintToArray 0 32) in
  let handshakeBody := handshakeBody ++ time in
  (* random *)
  packet <-
    match random packet with
    | None =>
        rnd <- repeatM 28 (fun random =>
                 rnd <- getRandomInt 0xFF ;;
                 ret (random ++ nums (uintToArray rnd 8))) [] ;;
        modify (set__clientRandom (Some (time ++ rnd))) ;;;
        ret (with_random (Some rnd) packet)
    | Some _ => ret packet
    end ;;
  let handshakeBody := concatU handshakeBody (random packet) in
  (* session ID: [this.bytesUpToArray] is not a method of the class *)
  handshakeBody <-
    (if sessionId packet =? 0
     then ret (handshakeBody ++ nums (uintToArray 0 8))
     else throw "TypeError") ;;
  (* cookie *)
  let handshakeBody :=
    match cookie packet with
    | None => handshakeBody ++ [Num 0x0]
    | Some c => (handshakeBody ++ nums (uintToArray (len c) 8)) ++ c
    end in
  (* cipher suites *)
  let cipherSuitesBytes := uintToArray _cipherSuites 16 in
  let handshakeBody := handshakeBody ++ nums (uintToArray (len cipherSuitesBytes) 16) in
  let handshakeBody := handshakeBody ++ nums cipherSuitesBytes in
  let handshakeBody := handshakeBody ++ nums (uintToArray 1 8) in
  let handshakeBody := handshakeBody ++ nums (uintToArray 0 8) in
  ret (handshakeBody, packet).

(** [_createHandshakeClientKeyExchangeBody(packet)] *)
Definition _createHandshakeClientKeyExchangeBody (packet : OutPacket) : M jsarray :=
  pskIdentity <- need _pskIdentity ;;
  let handshakeBody := [] in
  (* psk identity length *)
  let handshakeBody :=
    handshakeBody ++ nums (uintToArray (Z.of_nat (String.length pskIdentity)) 16) in
  (* psk identity *)
  let handshakeBody := handshakeBody ++ nums (stringToArray pskIdentity) in
  ret handshakeBody.

(** The [while] loop of [P_hash]; it stops as soon as [res] holds 48
    elements, which takes at most 48 turns when [HMAC] returns digests. *)
Fixpoint P_hash_loop (fuel : nat) (secret seed res Ai : jsarray) : result jsarray :=
  if len res <? DTLS_MASTER_SECRET_LENGTH then
    match fuel with
    | O => OutOfFuel
    | S fuel' =>
        P_hash_loop fuel' secret seed
          (res ++ HMAC ext secret (Ai ++ seed)) (HMAC ext secret Ai)
    end
  else Ok res.

(** [P_hash(secret, seed)] *)
Definition P_hash (secret seed : jsarray) : result jsarray :=
  (* Ai is A1 for now *)
  let Ai := HMAC ext secret seed in
  bind (P_hash_loop 48 secret seed [] Ai)
       (fun res => Ok (firstn (Z.to_nat DTLS_MASTER_SECRET_LENGTH) res)).

(** [PRF(secret, label, seed)] *)
Definition PRF (secret : jsarray) (label : string) (seed : jsarray) : result jsarray :=
  P_hash secret (nums (stringToArray label) ++ seed).

(** The value of a hexadecimal digit. *)
Definition hexDigit (c : ascii) : option Z :=
  let n := charCode c in
  if (48 <=? n) && (n <=? 57) then Some (n - 48)
  else if (97 <=? n) && (n <=? 102) then Some (n - 87)
  else if (65 <=? n) && (n <=? 70) then Some (n - 55)
  else None.

(** [parseInt("0x" + c1 + c2)], where [c2 = None] stands for the [undefined]
    that indexing past the end of the string gives (the text "undefined"
    starts with no hexadecimal digit): the value of the longest run of
    hexadecimal digits after the prefix, [NaN] when there is none. *)
Definition parseHexPair (c1 : ascii) (c2 : option ascii) : jsval :=
  match hexDigit c1 with
  | None => NaN
  | Some h1 =>
      match c2 with
      | None => Num h1
      | Some c =>
          match hexDigit c with
          | Some h2 => Num (16 * h1 + h2)
          | None => Num h1
          end
      end
  end.

(** The loop [for (i = 0; i < psk.length; i = i + 2)] of
    [_createHandshakeFinishedBody]. *)
Fixpoint pskBytes (psk : list ascii) : jsarray :=
  match psk with
  | [] => []
  | [c1] => [parseHexPair c1 None]
  | c1 :: c2 :: rest => parseHexPair c1 (Some c2) :: pskBytes rest
  end.

(** The pre-master secret that [_createHandshakeFinishedBody] builds.
    [psk.length / 2] is only read through [uintToArray], whose bitwise
    operators drop the fraction of an odd length. *)
Definition preMasterSecret (psk : string) : jsarray :=
  let preMasterSecret := [] in
  let preMasterSecret :=
    preMasterSecret ++ nums (uintToArray (Z.of_nat (String.length psk) / 2) 16) in
  let preMasterSecret :=
    fold_left (fun a _ => a ++ nums (uintToArray 0 8)) (seq 0 16) preMasterSecret in
  let preMasterSecret :=
    preMasterSecret ++ nums (uintToArray (Z.of_nat (String.length psk) / 2) 16) in
  preMasterSecret ++ pskBytes (list_ascii_of_string psk).

Definition hm_get (m : list (jsval * jsarray)) (k : jsval) : option jsarray :=
  match find (fun e => jsval_eqb (fst e) k) m with
  | Some e => Some (snd e)
  | None => None
  end.

Definition hm_set (m : list (jsval * jsarray)) (k : jsval) (v : jsarray)
  : list (jsval * jsarray) :=
  (k, v) :: m.

(** [_createHandshakeFinishedBody(packet)] *)
Definition _createHandshakeFinishedBody (packet : OutPacket) : M jsarray :=
  psk <- need _psk ;;
  let preMasterSecret := preMasterSecret psk in
  clientRandom <- need _clientRandom ;;
  serverRandom <- gets _serverRandom ;;
  masterSecret <- lift (PRF preMasterSecret "master secret"
                            (concatU clientRandom serverRandom)) ;;
  modify (set__masterSecret (Some masterSecret)) ;;;
  serverRandom <- need _serverRandom ;;
  keyBlock <- lift (PRF masterSecret "key expansion" (serverRandom ++ clientRandom)) ;;
  modify (set__keyBlock (Some keyBlock)) ;;;
  modify (set__clientWriteKey (Some (slice keyBlock 0 16))) ;;;
  modify (set__serverWriteKey (Some (slice keyBlock 16 32))) ;;;
  modify (set__clientIV (Some (slice keyBlock 32 36))) ;;;
  modify (set__serverIV (Some (slice keyBlock 36 40))) ;;;
  messages <- gets _handshakeMessages ;;
  let handshakeMsg := [] in
  let handshakeMsg :=
    concatU handshakeMsg (hm_get messages (Num handshakeType.CLIENT_HELLO)) in
  let handshakeMsg :=
    concatU handshakeMsg (hm_get messages (Num handshakeType.SERVER_HELLO)) in
  let handshakeMsg :=
    concatU handshakeMsg (hm_get messages (Num handshakeType.SERVER_HELLO_DONE)) in
  let handshakeMsg :=
    concatU handshakeMsg (hm_get messages (Num handshakeType.CLIENT_KEY_EXCHANGE)) in
  finishMsg <- lift (PRF masterSecret "client finished"
                         (sha256_hash ext handshakeMsg)) ;;
  ret (slice finishMsg 0 12).

(** [_encryptMsg(packet, msg)] *)
Definition _encryptMsg (packet : OutPacket) (msg : jsarray) : M jsarray :=
  let epochAndSeq := nums (uintToArray (epoch packet) 16) in
  let epochAndSeq := epochAndSeq ++ uintToArrayV (headerSeq packet) 48 in
  clientIV <- need _clientIV ;;
  let nonce := clientIV ++ epochAndSeq in
  let aad := epochAndSeq in
  let aad := aad ++ nums (uintToArray (cType packet) 8) in
  let aad := aad ++ nums (uintToArray _protocolVersion 16) in
  let aad := aad ++ nums (uintToArray (len msg) 16) in
  clientWriteKey <- gets _clientWriteKey ;;
  let encryptedMsg :=
    match authenticatedEncryption ext msg aad nonce clientWriteKey with
    | Some (cipherText, authenticationTag) => cipherText ++ authenticationTag
    | None => []
    end in
  ret (epochAndSeq ++ encryptedMsg).

(** [_decryptMsg(packet, msg)], for an incoming packet of content type
    [cType]. *)
Definition _decryptMsg (cType : Z) (msg : jsarray) : M jsarray :=
  let epochAndSeq := slice msg 0 8 in
  serverWriteKey <- need _serverWriteKey ;;
  let tag := slice msg (len msg - len serverWriteKey) (len msg) in
  serverIV <- need _serverIV ;;
  let nonce := serverIV ++ epochAndSeq in
  let encryptedMsg := slice msg 8 (len msg - len serverWriteKey) in
  let aad := epochAndSeq in
  let aad := aad ++ nums (uintToArray cType 8) in
  let aad := aad ++ nums (uintToArray _protocolVersion 16) in
  let aad := aad ++ nums (uintToArray (len encryptedMsg) 16) in
  match authenticatedDecryption ext encryptedMsg aad nonce tag serverWriteKey with
  | Some decryptedMsg => ret decryptedMsg
  | None => throw "AuthenticationFailure"
  end.

(** [_createHandshake(packet)] *)
Definition _createHandshake (packet : OutPacket) : M (jsarray * OutPacket) :=
  match hType packet with
  | Some t =>
      if (t =? handshakeType.CLIENT_HELLO) || (t =? handshakeType.CLIENT_KEY_EXCHANGE)
         || (t =? handshakeType.FINISHED)
      then
        bp <- (if t =? handshakeType.CLIENT_HELLO
               then _createHandshakeClientHelloBody packet
               else if t =? handshakeType.CLIENT_KEY_EXCHANGE
               then b <- _createHandshakeClientKeyExchangeBody packet ;; ret (b, packet)
               else b <- _createHandshakeFinishedBody packet ;; ret (b, packet)) ;;
        let handshakeBody := fst bp in
        let packet := snd bp in
        let handshakeMsg := [] in
        (* handshake type *)
        let handshakeMsg := handshakeMsg ++ nums (uintToArray t 8) in
        (* handshake body length *)
        let handshakeMsg := handshakeMsg ++ nums (uintToArray (len handshakeBody) 24) in
        (* sequence number *)
        let handshakeMsg := handshakeMsg ++ nums (uintToArray (handshakeSeq packet) 16) in
        (* fragment offset *)
        let handshakeMsg := handshakeMsg ++ nums (uintToArray 0 24) in
        (* fragment length *)
        let handshakeMsg := handshakeMsg ++ nums (uintToArray (len handshakeBody) 24) in
        let handshakeMsg := handshakeMsg ++ handshakeBody in
        handshakeMsg <- (if t =? handshakeType.FINISHED
                         then _encryptMsg packet handshakeMsg
                         else ret handshakeMsg) ;;
        messages <- gets _handshakeMessages ;;
        modify (set__handshakeMessages (hm_set messages (Num t) handshakeMsg)) ;;;
        ret (handshakeMsg, packet)
      else ret ([], packet)
  | None => ret ([], packet)
  end.

(** [_createPacket(packet)] *)
Definition _createPacket (packet : OutPacket) : M (jsarray * OutPacket) :=
  if cType packet =? contentType.HANDSHAKE then
    bp <- _createHandshake packet ;;
    let recordHeader := _createRecordHeader (snd bp) (len (fst bp)) in
    ret (recordHeader ++ fst bp, snd bp)
  else if cType packet =? contentType.CHANGE_CIPHER_SPEC then
    let body := [Num 0x01] in
    let recordHeader := _createRecordHeader packet (len body) in
    ret (recordHeader ++ body, packet)
  else ret ([], packet).

(** [popNextN(msg, n)]: the [n] elements removed from the front of [msg]
    ([undefined] once [msg] is empty) and what is left of [msg]. *)
Fixpoint popNextN (msg : jsarray) (n : nat) : jsarray * jsarray :=
  match n with
  | O => ([], msg)
  | S n' =>
      match msg with
      | [] => let pr := popNextN [] n' in (Undef :: fst pr, snd pr)
      | x :: t => let pr := popNextN t n' in (x :: fst pr, snd pr)
      end
  end.

(** [_readHandshakePacket(msg, hType)] *)
Definition _readHandshakePacket (msg : jsarray) (hType : Z) : M SubPacket :=
  if hType =? handshakeType.HELLO_VERIFY_REQUEST then
    let p := popNextN msg 2 in
    let protocolVersionH := arrayToUintV (fst p) in
    let p := popNextN (snd p) 1 in
    let cookieLegth := arrayToUintV (fst p) in
    let p := popNextN (snd p) (Z.to_nat cookieLegth) in
    ret (SubHelloVerify protocolVersionH cookieLegth (fst p))
  else if hType =? handshakeType.SERVER_HELLO then
    let p := popNextN msg 2 in
    let protocolVersionH := arrayToUintV (fst p) in
    let p := popNextN (snd p) 4 in
    let time := fst p in
    let p := popNextN (snd p) 28 in
    let random := fst p in
    let p := popNextN (snd p) 1 in
    let sessionIdLength := arrayToUintV (fst p) in
    let p := popNextN (snd p) (Z.to_nat sessionIdLength) in
    let sessionId := fst p in
    let p := popNextN (snd p) 2 in
    let cipherSuite := arrayToUintV (fst p) in
    modify (set__serverRandom (Some (time ++ random))) ;;;
    ret (SubServerHello protocolVersionH time random sessionIdLength sessionId cipherSuite)
  else ret SubNone.

(** [_readPacket(msg)]; returns the packet and what is left of [msg]. *)
Definition _readPacket (msg : jsarray) : M (InPacket * jsarray) :=
  let p := popNextN msg 1 in
  let cType := arrayToUintV (fst p) in
  let p := popNextN (snd p) 2 in
  let protocolVersion := arrayToUintV (fst p) in
  let p := popNextN (snd p) 2 in
  let epoch := arrayToUintV (fst p) in
  let p := popNextN (snd p) 6 in
  let headerSeq := arrayToUintV (fst p) in
  let p := popNextN (snd p) 2 in
  let bodyLength := arrayToUintV (fst p) in
  let p := popNextN (snd p) (Z.to_nat bodyLength) in
  let bodyMsg := fst p in
  let msg := snd p in
  if cType =? contentType.HANDSHAKE then
    encrypted <- gets _encrypted ;;
    bodyMsg <- (if encrypted then _decryptMsg cType bodyMsg else ret bodyMsg) ;;
    handshakeInProgress <- gets _handshakeInProgress ;;
    (if handshakeInProgress
     then messages <- gets _handshakeMessages ;;
          modify (set__handshakeMessages
                    (hm_set messages (nth 0 bodyMsg Undef) (slice bodyMsg 0 bodyLength)))
     else ret tt) ;;;
    let q := popNextN bodyMsg 1 in
    let hType := arrayToUintV (fst q) in
    let q := popNextN (snd q) 3 in
    let handshakeBodyLength := arrayToUintV (fst q) in
    let q := popNextN (snd q) 2 in
    let handshakeSeq := arrayToUintV (fst q) in
    let q := popNextN (snd q) 3 in
    let fragmentOffset := arrayToUintV (fst q) in
    let q := popNextN (snd q) 3 in
    let fragmentLength := arrayToUintV (fst q) in
    let q := popNextN (snd q) (Z.to_nat handshakeBodyLength) in
    let handshakeBody := fst q in
    sub <- _readHandshakePacket handshakeBody hType ;;
    ret (mkInPacket cType protocolVersion epoch headerSeq (Some hType)
           (Some handshakeSeq) (Some fragmentOffset) (Some fragmentLength) sub, msg)
  else
    (* for a ChangeCipherSpec the body byte is read and only logged *)
    ret (mkInPacket cType protocolVersion epoch headerSeq None None None None SubNone,
         msg).

(** *** Sending, the handshake state machine and the data channel *)

(** [this._outputStream.write_all_async(msg, ..., this._ouputCancelleable, cb)]
    as section 6 of the specification describes the transport: the message is
    handed over and its continuation waits for the completion of the write;
    with the cancellable already cancelled nothing is handed over. Before the
    connection is made the stream is [null] and the call throws. *)
Definition write_all_async (msg : jsarray) (callback : Callback) : M unit :=
  connection <- gets _connection ;;
  if negb connection then throw "TypeError"
  else
    cancelled <- gets outputCancelled ;;
    if cancelled
    then modify (fun s => set_pendingWrites (pendingWrites s ++ [(callback, true)]) s)
    else modify (fun s =>
           set_sent (sent s ++ [(now s, msg)])
             (set_pendingWrites (pendingWrites s ++ [(callback, false)]) s)).

(** [_sendMsg(msg, callback)] *)
Definition _sendMsg (msg : jsarray) (callback : Callback) : M unit :=
  write_all_async msg callback.

(** [this._ouputCancelleable.cancel()]: the writes in flight will complete
    with an error. *)
Definition cancelOutput : M unit :=
  modify (fun s =>
    set_outputCancelled true
      (set_pendingWrites (map (fun w => (fst w, true)) (pendingWrites s)) s)).

Definition emit (signal : string) : M unit :=
  modify (fun s => set_emitted (emitted s ++ [signal]) s).

(** [_sendHandshakeFinished()] *)
Definition _sendHandshakeFinished : M unit :=
  let responsePacket :=
    mkOutPacket contentType.HANDSHAKE (Some handshakeType.FINISHED) 1 (Num 0)
                0 None 3 None in
  modify (set__encrypted true) ;;;
  modify (set__handshakeInProgress false) ;;;
  mp <- _createPacket responsePacket ;;
  _sendMsg (fst mp) CbNone.

(** [_sendHandshakeCipherSpec()] *)
Definition _sendHandshakeCipherSpec : M unit :=
  let responsePacket :=
    mkOutPacket contentType.CHANGE_CIPHER_SPEC None 0 (Num 3) 0 None 3 None in
  mp <- _createPacket responsePacket ;;
  _sendMsg (fst mp) CbSendHandshakeFinished.

(** [_sendKeyExchange()] *)
Definition _sendKeyExchange : M unit :=
  let responsePacket :=
    mkOutPacket contentType.HANDSHAKE (Some handshakeType.CLIENT_KEY_EXCHANGE)
                0 (Num 2) 0 None 2 None in
  mp <- _createPacket responsePacket ;;
  _sendMsg (fst mp) CbSendHandshakeCipherSpec.

(** [_sendHandshakeRequest()] *)
Definition _sendHandshakeRequest : M unit :=
  let packet :=
    mkOutPacket contentType.HANDSHAKE (Some handshakeType.CLIENT_HELLO)
                0 (Num 0) 0 None 0 None in
  modify (set__encrypted false) ;;;
  mp <- _createPacket packet ;;
  _sendMsg (fst mp) CbNone ;;;
  modify (set__helloClientPacket (Some (snd mp))).

(** [clearTimers()] *)
Definition clearTimers : M unit :=
  modify (fun s =>
    set_timers []
      (set_sources
         (filter (fun src =>
            negb (existsb (fun t => negb (t =? 0) && (t =? src_id src)) (timers s)))
            (sources s)) s)).

(** [closeBridge()] *)
Definition closeBridge : M unit :=
  clearTimers ;;;
  connection <- gets _connection ;;
  if negb connection then ret tt
  else
    cancelOutput ;;;
    modify (set_inputCancelled true) ;;;
    modify (set_socketClosed true) ;;;
    emit "disconnected".

(** [_handleResponseHandshake(packet)] *)
Definition _handleResponseHandshake (packet : InPacket) : M unit :=
  match in_hType packet with
  | Some t =>
      if t =? handshakeType.SERVER_HELLO then ret tt
      else if t =? handshakeType.SERVER_HELLO_DONE then _sendKeyExchange
      else if t =? handshakeType.HELLO_VERIFY_REQUEST then
        responsePacket <- need _helloClientPacket ;;
        let responsePacket := with_headerSeq (Num 1) responsePacket in
        let responsePacket := with_handshakeSeq 1 responsePacket in
        match in_sub packet with
        | SubHelloVerify _ _ c =>
            let responsePacket := with_cookie (Some c) responsePacket in
            (* [responsePacket] is the object that [_helloClientPacket] holds *)
            modify (set__helloClientPacket (Some responsePacket)) ;;;
            mp <- _createPacket responsePacket ;;
            modify (set__helloClientPacket (Some (snd mp))) ;;;
            _sendMsg (fst mp) CbNone
        | _ =>
            (* a packet without cookie: [undefined.length] throws; packets
               built by [_readPacket] with this type always carry one *)
            modify (set__helloClientPacket (Some responsePacket)) ;;;
            throw "TypeError"
        end
      else if t =? handshakeType.FINISHED then
        modify (set__encrypted true) ;;;
        modify (set__handshakeInProgress false) ;;;
        modify (set_streamSeq (Num 0)) ;;;
        emit "connected"
      else ret tt
  | None => ret tt
  end.

(** [_handleResponse(packet)] *)
Definition _handleResponse (packet : InPacket) : M unit :=
  if in_cType packet =? contentType.HANDSHAKE then _handleResponseHandshake packet
  else if in_cType packet =? contentType.CHANGE_CIPHER_SPEC then ret tt
  else if in_cType packet =? contentType.ALERT then closeBridge
  else ret tt.

(** [GLib.timeout_add(GLib.PRIORITY_DEFAULT, 200, ...)] in
    [_initiateHandshake]; returns the id of the new source. *)
Definition timeout_add (interval attemptCounter : Z) : M Z :=
  fun s =>
    (Ok (nextSourceId s),
     set_nextSourceId (nextSourceId s + 1)
       (set_sources
          (sources s ++ [mkSource (nextSourceId s) (now s + interval) attemptCounter])
          s)).

(** [_initiateHandshake(attemptCounter)]. [_sendHandshakeRequest] is an
    [async] method: when its body throws, the promise it returns is rejected
    and the caller goes on. *)
Definition _initiateHandshake (attemptCounter : Z) : M unit :=
  modify (set_outputCancelled false) ;;;
  if 2 <? attemptCounter then ret tt
  else
    catch _sendHandshakeRequest ;;;
    timerId <- timeout_add 200 attemptCounter ;;
    modify (fun s => set_timers (timers s ++ [timerId]) s).

(** The function given to [GLib.timeout_add], for the source [timerId] whose
    closure holds [attemptCounter]. *)
Definition timerCallback (timerId attemptCounter : Z) : M unit :=
  modify (fun s => set_timers (removeFromArray ext (timers s) timerId) s) ;;;
  (* if the handshake is still in progress, we have probably lost some UDP
     data, try again *)
  handshakeInProgress <- gets _handshakeInProgress ;;
  if handshakeInProgress
  then cancelOutput ;;; _initiateHandshake (attemptCounter + 1)
  else ret tt.

(** [sendEncrypted(cleartext)] *)
Definition sendEncrypted (cleartext : jsarray) : M bool :=
  modify (set__readyToSend (Some false)) ;;;
  encrypted <- gets _encrypted ;;
  if negb encrypted then ret false
  else
    modify (fun s => set_streamSeq (js_incr (streamSeq s)) s) ;;;
    streamSeq <- gets streamSeq ;;
    let packet :=
      mkOutPacket contentType.APPLICATION_DATA None 1 streamSeq 0 None 0 None in
    encryptedMsg <- _encryptMsg packet cleartext ;;
    let msg := _createRecordHeader packet (len encryptedMsg) in
    let msg := msg ++ encryptedMsg in
    write_all_async msg CbNone ;;;
    ret true.

(** The [while(msg.length !== 0)] loop of [_readResponse]. Every turn removes
    at least one element, so the length of the data bounds the turns. *)
Fixpoint readLoop (fuel : nat) (msg : jsarray) : M unit :=
  match msg with
  | [] => ret tt
  | _ :: _ =>
      match fuel with
      | O => lift OutOfFuel
      | S fuel' =>
          pm <- _readPacket msg ;;
          _handleResponse (fst pm) ;;;
          readLoop fuel' (snd pm)
      end
  end.

(** [_readResponse()]: a read is outstanding from now on. *)
Definition _readResponse : M unit := modify (set_reading true).

(** The completion of the read started by [_readResponse], with the bytes
    that arrived. *)
Definition readCallback (data : list Z) : M unit :=
  closed <- gets socketClosed ;;
  cancelled <- gets inputCancelled ;;
  if closed || cancelled then ret tt
  else
    (match data with
     | [] => ret tt
     | _ :: _ => readLoop (List.length data) (nums data)
     end) ;;;
    _readResponse.

(** The completion of [connect_async] in [connectBridge]. *)
Definition connectCallback (ok : bool) : M unit :=
  if negb ok then ret tt
  else
    modify (set__connection true) ;;;
    modify (set_outputCancelled false) ;;;
    modify (set_inputCancelled false) ;;;
    _readResponse ;;;
    let attemptCounter := 0 in
    _initiateHandshake attemptCounter.

(** The completion of a write started by [_sendMsg]:
    [write_all_finish] throws when the write was cancelled, otherwise the
    continuation runs. *)
Definition writeCallback (callback : Callback) (cancelled : bool) : M unit :=
  if cancelled then throw "Cancelled"
  else
    match callback with
    | CbNone => ret tt
    | CbSendHandshakeCipherSpec => _sendHandshakeCipherSpec
    | CbSendHandshakeFinished => _sendHandshakeFinished
    end.

(** *** What happens to the client *)

Inductive Event : Type :=
| ConnectDone (ok : bool)
| TimerFire (timerId : Z)
| WriteDone
| Incoming (data : list Z)
| CallSendEncrypted (cleartext : jsarray)
| CallCloseBridge.

(** One event. A timer fires once and is then removed from the main loop
    (its callback returns [GLib.SOURCE_REMOVE]); the clock moves to the time
    it was due. The oldest write in flight completes first. Data arrives only
    while a read is outstanding. *)
Definition handle (e : Event) : M unit :=
  match e with
  | ConnectDone ok => connectCallback ok
  | TimerFire timerId =>
      srcs <- gets sources ;;
      match find (fun src => src_id src =? timerId) srcs with
      | Some src =>
          modify (fun s =>
            set_now (Z.max (now s) (src_due src))
              (set_sources
                 (filter (fun x => negb (src_id x =? timerId)) (sources s)) s)) ;;;
          timerCallback timerId (src_attemptCounter src)
      | None => ret tt
      end
  | WriteDone =>
      writes <- gets pendingWrites ;;
      match writes with
      | [] => ret tt
      | (callback, cancelled) :: rest =>
          modify (set_pendingWrites rest) ;;;
          writeCallback callback cancelled
      end
  | Incoming data =>
      reading <- gets reading ;;
      if reading
      then modify (set_reading false) ;;; readCallback data
      else ret tt
  | CallSendEncrypted cleartext => r <- sendEncrypted cleartext ;; ret tt
  | CallCloseBridge => closeBridge
  end.

(** An exception that leaves a callback is reported by the main loop; the
    object keeps its state. *)
Definition step (s : Client) (e : Event) : Client := snd (handle e s).

Definition run (events : list Event) (s : Client) : Client :=
  fold_left step events s.

End DTLSClient.

(** *** The other end of the connection, for stating what the client does *)

(** Big-endian encoding of [v] on [k] bytes. *)
Fixpoint be (k : nat) (v : Z) : list Z :=
  match k with
  | O => []
  | S k' => be k' (v / 256) ++ [v mod 256]
  end.

(** A record as the peer sends it: the 13-byte header, then the body. *)
Definition peerRecord (cType epoch seq : Z) (body : list Z) : list Z :=
  be 1 cType ++ be 2 0xfefd ++ be 2 epoch ++ be 6 seq ++ be 2 (Z.of_nat (List.length body))
  ++ body.

(** A handshake message as the peer sends it, in one fragment. *)
Definition peerHandshake (hType seq : Z) (body : list Z) : list Z :=
  be 1 hType ++ be 3 (Z.of_nat (List.length body)) ++ be 2 seq ++ be 3 0
  ++ be 3 (Z.of_nat (List.length body)) ++ body.


Definition serverHello (time random : list Z) : list Z :=
  peerRecord 22 0 1
    (peerHandshake 2 1 (be 2 0xfefd ++ time ++ random ++ [0] ++ be 2 0x00a8 ++ [0])).

Definition serverHelloDone : list Z :=
  peerRecord 22 0 2 (peerHandshake 14 2 []).

(** A Finished message sent in the clear. *)
Definition plainFinished (verify : list Z) : list Z :=
  peerRecord 22 0 3 (peerHandshake 20 3 verify).

(** A protected record of epoch 1: explicit epoch and sequence number, the
    ciphertext, the tag. *)
Definition protectedRecord (cType seq : Z) (ciphertext tag : list Z) : list Z :=
  peerRecord cType 1 seq (be 2 1 ++ be 6 seq ++ ciphertext ++ tag).

(** Collaborators for running the client on concrete inputs: digests of 32
    zero bytes, an AEAD that leaves the text as it is, appends a tag of 16
    zero bytes and accepts every tag, and a random source that walks through
    the multiples of 1/256. *)
Definition sampleExternals : Externals :=
  mkExternals
    (fun _ _ => repeat (Num 0) 32)
    (fun _ => repeat (Num 0) 32)
    (fun msg _ _ _ => Some (msg, repeat (Num 0) 16))
    (fun ciphertext _ _ _ _ => Some ciphertext)
    (fun a x => filter (fun y => negb (y =? x)) a)
    (fun n => inject_Z (Z.of_nat n) / inject_Z 256)%Q.

Definition samplePsk : string := "000102030405060708090a0b0c0d0e0f".
Definition sampleIdentity : string := "hue-application-id".
Definition sampleClient : Client := initial (Some samplePsk) (Some sampleIdentity).

(** ** Auxiliary definitions for the proofs about the client *)

(** [keeps f m]: the call [m] does not change what [f] reads. *)
Definition keeps {A B : Type} (f : Client -> B) (m : M A) : Prop :=
  forall s, f (snd (m s)) = f s.

(** The application-data packet that [sendEncrypted] builds for sequence
    number [n]. *)
Definition dataPacket (n : Z) : OutPacket :=
  mkOutPacket contentType.APPLICATION_DATA None 1 (Num n) 0 None 0 None.

(** The fields of a record as [_readPacket] reads them from the data. *)
Definition recordType (msg : jsarray) : Z := arrayToUintV (fst (popNextN msg 1)).

Definition recordBody (msg : jsarray) : jsarray :=
  let p := popNextN msg 1 in
  let p := popNextN (snd p) 2 in
  let p := popNextN (snd p) 2 in
  let p := popNextN (snd p) 6 in
  let p := popNextN (snd p) 2 in
  let bodyLength := arrayToUintV (fst p) in
  fst (popNextN (snd p) (Z.to_nat bodyLength)).

(** The type of a handshake message, from its first byte. *)
Definition messageType (plain : jsarray) : Z := arrayToUintV (fst (popNextN plain 1)).

Section DTLSAux.

Variable ext : Externals.

Local Open Scope M_scope.

(** One turn of the loop of [_readResponse]. *)
Definition handleRecord (msg : jsarray) : M jsarray :=
  pm <- _readPacket ext msg ;;
  _handleResponse ext (fst pm) ;;;
  ret (snd pm).

(** The handshake message of a record: its body, opened by [_decryptMsg]
    when the client expects protected records. *)
Definition recordPlain (msg : jsarray) : M jsarray :=
  encrypted <- gets _encrypted ;;
  if encrypted then _decryptMsg ext (recordType msg) (recordBody msg)
  else ret (recordBody msg).

(** What [_readPacket] does with the opened body of a handshake record. *)
Definition readHandshake (msg bodyMsg : jsarray) : M (InPacket * jsarray) :=
  let p := popNextN msg 1 in
  let cType := arrayToUintV (fst p) in
  let p := popNextN (snd p) 2 in
  let protocolVersion := arrayToUintV (fst p) in
  let p := popNextN (snd p) 2 in
  let epoch := arrayToUintV (fst p) in
  let p := popNextN (snd p) 6 in
  let headerSeq := arrayToUintV (fst p) in
  let p := popNextN (snd p) 2 in
  let bodyLength := arrayToUintV (fst p) in
  let p := popNextN (snd p) (Z.to_nat bodyLength) in
  let msg := snd p in
  handshakeInProgress <- gets _handshakeInProgress ;;
  (if handshakeInProgress
   then messages <- gets _handshakeMessages ;;
        modify (set__handshakeMessages
                  (hm_set messages (nth 0 bodyMsg Undef) (slice bodyMsg 0 bodyLength)))
   else ret tt) ;;;
  let q := popNextN bodyMsg 1 in
  let hType := arrayToUintV (fst q) in
  let q := popNextN (snd q) 3 in
  let handshakeBodyLength := arrayToUintV (fst q) in
  let q := popNextN (snd q) 2 in
  let handshakeSeq := arrayToUintV (fst q) in
  let q := popNextN (snd q) 3 in
  let fragmentOffset := arrayToUintV (fst q) in
  let q := popNextN (snd q) 3 in
  let fragmentLength := arrayToUintV (fst q) in
  let q := popNextN (snd q) (Z.to_nat handshakeBodyLength) in
  let handshakeBody := fst q in
  sub <- _readHandshakePacket handshakeBody hType ;;
  ret (mkInPacket cType protocolVersion epoch headerSeq (Some hType)
         (Some handshakeSeq) (Some fragmentOffset) (Some fragmentLength) sub, msg).

(** [_readPacket] keeps the handshake messages that arrive while the
    handshake is in progress. *)
Definition storeIncoming (key : jsval) (message : jsarray) : M unit :=
  handshakeInProgress <- gets _handshakeInProgress ;;
  if handshakeInProgress
  then messages <- gets _handshakeMessages ;;
       modify (set__handshakeMessages (hm_set messages key message))
  else ret tt.

(** Calling [sendEncrypted] on each cleartext in turn: what the calls return
    and the client afterwards. *)
Fixpoint sendAll (cleartexts : list jsarray) (s : Client) : list (result bool) * Client :=
  match cleartexts with
  | [] => ([], s)
  | cleartext :: rest =>
      let rs := sendEncrypted ext cleartext s in
      let rest' := sendAll rest (snd rs) in
      (fst rs :: fst rest', snd rest')
  end.

(** What each event of a run returns. *)
Fixpoint outcomes (events : list Event) (s : Client) : list (result unit) :=
  match events with
  | [] => []
  | e :: rest => fst (handle ext e s) :: outcomes rest (step ext s e)
  end.

End DTLSAux.

(** The body of a ClientHello and the whole record, field by field. *)
Definition clientHelloBody (random cookie : list Z) : list Z :=
  be 2 0xfefd ++ be 4 0 ++ random ++ be 1 0
  ++ be 1 (Z.of_nat (List.length cookie)) ++ cookie
  ++ be 2 2 ++ be 2 0x00a8 ++ be 1 1 ++ be 1 0.

Definition clientHello (headerSeq handshakeSeq : Z) (random cookie : list Z) : list Z :=
  peerRecord 22 0 headerSeq (peerHandshake 1 handshakeSeq (clientHelloBody random cookie)).


(** The 28 random bytes of a ClientHello built when [k] draws of
    [Math.random()] were made before. *)
Definition helloRandom (ext : Externals) (k : nat) : list Z :=
  map (fun i => JS.and (Qfloor (Math_random ext (k + i) * inject_Z 0xFF)) 0xFF)
      (seq 0 28).




(** ** The data channel *)

(** The state in which the data channel works: protected records are
    expected, the keys are derived, the connection is open and writes are
    not cancelled; [n] is the sequence number used last. *)
Definition channel_open (s : Client) (n : Z) : Prop :=
  _encrypted s = true /\ streamSeq s = Num n /\
  (exists iv, _clientIV s = Some iv) /\
  _connection s = true /\ outputCancelled s = false.

(** ** Concrete runs *)

(** A handshake up to the client's own Finished: the connection is made, the
    peer answers with ServerHello and ServerHelloDone, and the three writes of
    the client's last flight complete one after the other. *)
Definition toClientFinished : list Event :=
  [ConnectDone true;
   Incoming (serverHello [1; 2; 3; 4] (repeat 7 28));
   Incoming serverHelloDone;
   WriteDone; WriteDone; WriteDone; WriteDone].

(** The Finished message of the peer, as a protected record. *)
Definition peerFinished : list Z :=
  protectedRecord 22 0 (peerHandshake 20 4 (repeat 9 12)) (repeat 0 16).

(** The pre-master secret of RFC 4279 for a key given as bytes: the length of
    the key, as many zero bytes, the length again, the key. *)
Definition premaster_rfc4279 (key : list Z) : list Z :=
  be 2 (Z.of_nat (List.length key)) ++ repeat 0 (List.length key)
  ++ be 2 (Z.of_nat (List.length key)) ++ key.


(** ** Auxiliary definitions for further properties *)

(** The number that a list of digits in base 256 denotes, most significant
    digit first. *)
Definition beValue (l : list Z) : Z := fold_left (fun acc b => 256 * acc + b) l 0.

(** A state of bytes for running the transforms on. *)
Definition sampleState : AES.State :=
  [[0x32; 0x88; 0x31; 0xe0]; [0x43; 0x5a; 0x31; 0x37];
   [0xf6; 0x30; 0x98; 0x07]; [0xa8; 0x8d; 0xa2; 0x34]].
(** * Part II: properties *)

(** ** Facts about the 32-bit operators *)

Lemma ToInt32_small (x : Z) : - 2 ^ 31 <= x < 2 ^ 31 -> JS.ToInt32 x = x.
Proof.
  intros H. unfold JS.ToInt32.
  rewrite Z.mod_small; lia.
Qed.

Lemma ToInt32_range (x : Z) : - 2 ^ 31 <= JS.ToInt32 x < 2 ^ 31.
Proof.
  unfold JS.ToInt32.
  pose proof (Z.mod_pos_bound (x + 2 ^ 31) (2 ^ 32) ltac:(lia)). lia.
Qed.

Lemma land_byte_mask (n k : Z) :
  0 <= k ->
  Z.shiftr (Z.land n (Z.shiftl 255 k)) k = (n / 2 ^ k) mod 256.
Proof.
  intros Hk.
  rewrite Z.shiftr_land, Z.shiftr_shiftl_l, Z.sub_diag, Z.shiftl_0_r by lia.
  change 255 with (Z.ones 8).
  rewrite Z.land_ones, Z.shiftr_div_pow2 by lia.
  reflexivity.
Qed.

Lemma land_shl8_byte (x b : Z) :
  0 <= b < 256 -> Z.land (Z.shiftl x 8) b = 0.
Proof.
  intros Hb.
  apply Z.bits_inj'. intros i Hi.
  rewrite Z.land_spec, Z.bits_0.
  destruct (Z.ltb_spec i 8).
  - rewrite Z.shiftl_spec_low by lia. reflexivity.
  - replace (Z.testbit b i) with false; [apply andb_false_r|].
    symmetry. apply Z.bits_above_log2; [lia|].
    destruct (Z.eq_dec b 0) as [->|]; [simpl; lia|].
    apply Z.lt_le_trans with 8; [|lia].
    apply Z.log2_lt_pow2; lia.
Qed.

Lemma lor_shl8_byte (x b : Z) :
  0 <= b < 256 -> Z.lor (Z.shiftl x 8) b = 256 * x + b.
Proof.
  intros Hb.
  pose proof (land_shl8_byte x b Hb) as E.
  rewrite <- Z.lxor_lor, <- Z.add_nocarry_lxor by exact E.
  rewrite Z.shiftl_mul_pow2 by lia. lia.
Qed.

(** A non-negative number whose bits from position [n] on are all clear is
    below [2^n], and conversely. *)
Lemma testbit_high_clear (x n i : Z) :
  0 <= x < 2 ^ n -> n <= i -> Z.testbit x i = false.
Proof.
  intros Hx Hi.
  destruct (Z.eq_dec x 0) as [->|Hnz]; [apply Z.bits_0|].
  destruct (Z.ltb_spec n 0) as [Hn|Hn].
  - rewrite Z.pow_neg_r in Hx by lia. lia.
  - apply Z.bits_above_log2; [lia|].
    apply Z.lt_le_trans with n; [|lia].
    apply Z.log2_lt_pow2; lia.
Qed.

Lemma below_pow2_of_bits (x n : Z) :
  0 <= n -> 0 <= x ->
  (forall i, n <= i -> Z.testbit x i = false) ->
  x < 2 ^ n.
Proof.
  intros Hn Hx Hbits.
  assert (E : x mod 2 ^ n = x).
  { apply Z.bits_inj'. intros i Hi.
    destruct (Z.ltb_spec i n).
    - apply Z.mod_pow2_bits_low; lia.
    - rewrite Z.mod_pow2_bits_high by lia. symmetry. apply Hbits. lia. }
  rewrite <- E. apply Z.mod_pos_bound. lia.
Qed.

Lemma land_below_pow2 (a b n : Z) :
  0 <= n -> 0 <= a < 2 ^ n -> 0 <= Z.land a b < 2 ^ n.
Proof.
  intros Hn Ha. split.
  - apply Z.land_nonneg. lia.
  - apply below_pow2_of_bits; [lia|apply Z.land_nonneg; lia|].
    intros i Hi. rewrite Z.land_spec, (testbit_high_clear a n i) by lia.
    reflexivity.
Qed.

Lemma lxor_below_pow2 (a b n : Z) :
  0 <= n -> 0 <= a < 2 ^ n -> 0 <= b < 2 ^ n -> 0 <= Z.lxor a b < 2 ^ n.
Proof.
  intros Hn Ha Hb. split.
  - apply Z.lxor_nonneg. lia.
  - apply below_pow2_of_bits; [lia|apply Z.lxor_nonneg; lia|].
    intros i Hi.
    rewrite Z.lxor_spec, (testbit_high_clear a n i), (testbit_high_clear b n i) by lia.
    reflexivity.
Qed.

Lemma byteAt_range (n k : Z) : 0 <= byteAt n k < 256.
Proof. unfold byteAt. apply Z.mod_pos_bound. lia. Qed.

Lemma and_FF (n : Z) : 0 <= n < 2 ^ 31 -> JS.and n 0xFF = byteAt n 0.
Proof.
  intros Hn. unfold JS.and, byteAt.
  rewrite (ToInt32_small n), (ToInt32_small 255) by lia.
  change 255 with (Z.ones 8). rewrite Z.land_ones by lia.
  change (2 ^ 0) with 1. rewrite Z.div_1_r. reflexivity.
Qed.

Lemma sar_and_mask (n k : Z) :
  0 <= n < 2 ^ 31 -> 0 <= k <= 16 -> Z.land k 31 = k ->
  JS.sar (JS.and n (Z.shiftl 255 k)) k = byteAt n k.
Proof.
  intros Hn Hk Ek. unfold JS.sar, JS.and, byteAt.
  rewrite Ek.
  assert (Hm : 0 <= Z.shiftl 255 k < 2 ^ 31).
  { rewrite Z.shiftl_mul_pow2 by lia. split; [nia|].
    assert (2 ^ k <= 2 ^ 16) by (apply Z.pow_le_mono_r; lia). lia. }
  rewrite (ToInt32_small n), (ToInt32_small (Z.shiftl 255 k)) by lia.
  rewrite ToInt32_small
    by (pose proof (land_below_pow2 n (Z.shiftl 255 k) 31 ltac:(lia) Hn); lia).
  apply land_byte_mask. lia.
Qed.

Lemma sar_and_top (n : Z) :
  0 <= n < 2 ^ 31 -> JS.sar (JS.and n 0xFF000000) 24 = byteAt n 24.
Proof.
  intros Hn. unfold JS.sar, JS.and, byteAt.
  change (Z.land 24 31) with 24.
  change (JS.ToInt32 0xFF000000) with (Z.shiftl (-1) 24).
  rewrite (ToInt32_small n) by lia.
  rewrite ToInt32_small
    by (pose proof (land_below_pow2 n (Z.shiftl (-1) 24) 31 ltac:(lia) Hn); lia).
  rewrite Z.shiftr_land, Z.shiftr_shiftl_l, Z.sub_diag, Z.shiftl_0_r by lia.
  rewrite Z.land_m1_r, Z.shiftr_div_pow2 by lia.
  symmetry. apply Z.mod_small.
  split; [apply Z.div_pos; lia|].
  apply Z.div_lt_upper_bound; lia.
Qed.

Lemma sar_and_wrapped (n k : Z) :
  JS.sar (JS.and n 0xFF00000000) k = 0.
Proof.
  unfold JS.sar, JS.and.
  change (JS.ToInt32 0xFF00000000) with 0.
  rewrite Z.land_0_r. change (JS.ToInt32 0) with 0. apply Z.shiftr_0_l.
Qed.

(** What [uintToArray] produces for each supported width, on numbers that the
    32-bit operators represent exactly. The two leading elements of the 40 and
    48 bit encodings are always zero: the mask [0xFF00000000] is zero once
    converted to 32 bits. *)
Lemma uintToArray_8 (n : Z) :
  0 <= n < 2 ^ 31 -> uintToArray n 8 = [byteAt n 0].
Proof. intros H. unfold uintToArray. simpl. rewrite and_FF by lia. reflexivity. Qed.

Lemma uintToArray_16 (n : Z) :
  0 <= n < 2 ^ 31 -> uintToArray n 16 = [byteAt n 8; byteAt n 0].
Proof.
  intros H. unfold uintToArray. simpl app.
  rewrite and_FF by lia.
  rewrite <- (sar_and_mask n 8) by (try reflexivity; lia). reflexivity.
Qed.

Lemma uintToArray_24 (n : Z) :
  0 <= n < 2 ^ 31 -> uintToArray n 24 = [byteAt n 16; byteAt n 8; byteAt n 0].
Proof.
  intros H. unfold uintToArray. simpl app.
  rewrite and_FF by lia.
  rewrite <- (sar_and_mask n 8), <- (sar_and_mask n 16) by (try reflexivity; lia).
  reflexivity.
Qed.

Lemma uintToArray_32 (n : Z) :
  0 <= n < 2 ^ 31 ->
  uintToArray n 32 = [byteAt n 24; byteAt n 16; byteAt n 8; byteAt n 0].
Proof.
  intros H. unfold uintToArray. simpl app.
  rewrite and_FF, sar_and_top by lia.
  rewrite <- (sar_and_mask n 8), <- (sar_and_mask n 16) by (try reflexivity; lia).
  reflexivity.
Qed.

Lemma uintToArray_40 (n : Z) :
  0 <= n < 2 ^ 31 ->
  uintToArray n 40 = [0; byteAt n 24; byteAt n 16; byteAt n 8; byteAt n 0].
Proof.
  intros H. unfold uintToArray. simpl app.
  rewrite and_FF, sar_and_top, sar_and_wrapped by lia.
  rewrite <- (sar_and_mask n 8), <- (sar_and_mask n 16) by (try reflexivity; lia).
  reflexivity.
Qed.

Lemma uintToArray_48 (n : Z) :
  0 <= n < 2 ^ 31 ->
  uintToArray n 48 = [0; 0; byteAt n 24; byteAt n 16; byteAt n 8; byteAt n 0].
Proof.
  intros H. unfold uintToArray. simpl app.
  rewrite and_FF, sar_and_top, !sar_and_wrapped by lia.
  rewrite <- (sar_and_mask n 8), <- (sar_and_mask n 16) by (try reflexivity; lia).
  reflexivity.
Qed.

(** One step of [arrayToUint] on a small accumulator and a byte. *)
Lemma arrayToUint_step (x b : Z) :
  0 <= x < 2 ^ 23 -> 0 <= b < 256 -> JS.or (JS.shl x 8) b = 256 * x + b.
Proof.
  intros Hx Hb. unfold JS.or, JS.shl.
  change (Z.land 8 31) with 8.
  rewrite (ToInt32_small x) by lia.
  assert (E : Z.shiftl x 8 = 256 * x) by (rewrite Z.shiftl_mul_pow2; lia).
  rewrite (ToInt32_small (Z.shiftl x 8)) by lia.
  rewrite (ToInt32_small (Z.shiftl x 8)), (ToInt32_small b) by lia.
  apply lor_shl8_byte. exact Hb.
Qed.

Ltac byte_bounds n :=
  pose proof (byteAt_range n 0); pose proof (byteAt_range n 8);
  pose proof (byteAt_range n 16); pose proof (byteAt_range n 24).

Lemma byteAt_24_small (n : Z) : 0 <= n < 2 ^ 31 -> 0 <= byteAt n 24 < 128.
Proof.
  intros H. unfold byteAt. rewrite Z.mod_small.
  - split; [apply Z.div_pos; lia|apply Z.div_lt_upper_bound; lia].
  - split; [apply Z.div_pos; lia|apply Z.div_lt_upper_bound; lia].
Qed.

Lemma bytes_recompose (n : Z) :
  0 <= n < 2 ^ 31 ->
  n mod 2 ^ 8 = byteAt n 0 /\
  n mod 2 ^ 16 = 256 * byteAt n 8 + byteAt n 0 /\
  n mod 2 ^ 24 = 256 * (256 * byteAt n 16 + byteAt n 8) + byteAt n 0 /\
  n = 256 * (256 * (256 * byteAt n 24 + byteAt n 16) + byteAt n 8) + byteAt n 0.
Proof.
  intros H. unfold byteAt.
  change (2 ^ 0) with 1. change (2 ^ 8) with 256. change (2 ^ 16) with 65536.
  change (2 ^ 24) with 16777216.
  rewrite Z.div_1_r.
  repeat split; Z.div_mod_to_equations; lia.
Qed.

Ltac fold_bytes :=
  unfold arrayToUint; simpl fold_left;
  repeat match goal with
         | |- context [JS.or (JS.shl ?x 8) ?b] =>
             rewrite (arrayToUint_step x b) by lia
         end.

(** Decoding what [uintToArray] encoded gives the number back up to the width
    of the encoding, for every number below [2^31]. *)
Lemma arrayToUint_uintToArray (n L : Z) :
  0 <= n < 2 ^ 31 ->
  In L [8; 16; 24; 32; 40; 48] ->
  arrayToUint (uintToArray n L) = n mod 2 ^ L.
Proof.
  intros Hn HL.
  byte_bounds n. pose proof (byteAt_24_small n Hn).
  destruct (bytes_recompose n Hn) as (E8 & E16 & E24 & E32).
  simpl in HL.
  destruct HL as [<-|[<-|[<-|[<-|[<-|[<-|[]]]]]]].
  - rewrite uintToArray_8 by lia. fold_bytes. lia.
  - rewrite uintToArray_16 by lia. fold_bytes. lia.
  - rewrite uintToArray_24 by lia. fold_bytes. lia.
  - rewrite uintToArray_32 by lia. fold_bytes.
    rewrite Z.mod_small by lia. lia.
  - rewrite uintToArray_40 by lia. fold_bytes.
    rewrite Z.mod_small by lia. lia.
  - rewrite uintToArray_48 by lia. fold_bytes.
    rewrite Z.mod_small by lia. lia.
Qed.

Lemma uintToArray_length (n L : Z) :
  In L [8; 16; 24; 32; 40; 48] ->
  Z.of_nat (length (uintToArray n L)) = L / 8.
Proof.
  simpl. intros [<-|[<-|[<-|[<-|[<-|[<-|[]]]]]]]; reflexivity.
Qed.

(** ** The AES block cipher: decryption inverts encryption *)

Module AESProofs.

Import AES AESAux.
Local Open Scope result_scope.

Lemma in_all_bytes (x : Z) : is_byte x -> In x all_bytes.
Proof.
  intros H. unfold all_bytes.
  rewrite <- (Z2Nat.id x) by (unfold is_byte in H; lia).
  apply in_map, in_seq. unfold is_byte in H. lia.
Qed.

Lemma forall_bytes (P : Z -> bool) :
  forallb P all_bytes = true -> forall x, is_byte x -> P x = true.
Proof.
  intros H x Hx. rewrite forallb_forall in H. apply H, in_all_bytes, Hx.
Qed.

Lemma xor_small (a b : Z) :
  - 2 ^ 31 <= a < 2 ^ 31 -> - 2 ^ 31 <= b < 2 ^ 31 -> JS.xor a b = Z.lxor a b.
Proof. intros. unfold JS.xor. rewrite !ToInt32_small by lia. reflexivity. Qed.

Lemma xor_byte (a b : Z) : is_byte a -> is_byte b -> JS.xor a b = Z.lxor a b.
Proof. unfold is_byte. intros. apply xor_small; lia. Qed.

Lemma lxor_is_byte (a b : Z) : is_byte a -> is_byte b -> is_byte (Z.lxor a b).
Proof. intros. apply (lxor_below_pow2 a b 8); [lia|assumption|assumption]. Qed.

Lemma xor_is_byte (a b : Z) : is_byte a -> is_byte b -> is_byte (JS.xor a b).
Proof. intros. rewrite xor_byte by assumption. apply lxor_is_byte; assumption. Qed.

(** The S-boxes *)
Lemma subByte_inv_check :
  forallb (fun x => (invSubByte (subByte x) =? x) && (0 <=? subByte x) && (subByte x <? 256)
                    && (subByte (invSubByte x) =? x) && (0 <=? invSubByte x) && (invSubByte x <? 256))
          all_bytes = true.
Proof. vm_compute. reflexivity. Qed.

Lemma xtime_check :
  forallb (fun v =>
    ((if negb (JS.and v 0x80 =? 0) then JS.xor (JS.shl v 1) 0x11b else JS.shl v 1) =? xtime v)
    && (0 <=? xtime v) && (xtime v <? 256)
    && (eqb (negb (JS.and v 1 =? 0)) (Z.odd v))
    && (JS.sar v 1 =? v / 2)) all_bytes = true.
Proof. vm_compute. reflexivity. Qed.

Lemma half_is_byte v : is_byte v -> is_byte (v / 2).
Proof. unfold is_byte. intros. Z.div_mod_to_equations. lia. Qed.

Lemma ffmLoop_fast (n : nat) : forall v0 v1 r,
  is_byte v0 -> is_byte v1 -> is_byte r ->
  ffmLoop n v0 v1 r = ffmFast n v0 v1 r /\ is_byte (ffmFast n v0 v1 r).
Proof.
  induction n as [|n IH]; intros v0 v1 r H0 H1 Hr; simpl; [auto|].
  pose proof (forall_bytes _ xtime_check v0 H0) as C0.
  pose proof (forall_bytes _ xtime_check v1 H1) as C1.
  rewrite !andb_true_iff in C0, C1.
  destruct C0 as ((((E0 & L0) & U0) & _) & _).
  destruct C1 as ((((_ & _) & _) & O1) & S1).
  apply Z.eqb_eq in E0, S1. apply eqb_prop in O1.
  apply Z.leb_le in L0. apply Z.ltb_lt in U0.
  rewrite E0, S1, O1.
  replace (if Z.odd v1 then JS.xor r v0 else r) with (if Z.odd v1 then Z.lxor r v0 else r)
    by (destruct (Z.odd v1); [rewrite xor_byte by assumption|]; reflexivity).
  apply IH.
  - split; assumption.
  - apply half_is_byte; assumption.
  - destruct (Z.odd v1); [apply lxor_is_byte|]; assumption.
Qed.

Lemma ffmFast_linear (n : nat) : forall v0 x y r s,
  ffmFast n v0 (Z.lxor x y) (Z.lxor r s)
  = Z.lxor (ffmFast n v0 x r) (ffmFast n v0 y s).
Proof.
  induction n as [|n IH]; intros v0 x y r s; simpl; [reflexivity|].
  assert (Ediv : Z.lxor x y / 2 = Z.lxor (x / 2) (y / 2)).
  { rewrite <- !Z.div2_div, !Z.div2_spec. apply Z.shiftr_lxor. }
  assert (Eodd : Z.odd (Z.lxor x y) = xorb (Z.odd x) (Z.odd y)).
  { rewrite <- !Z.bit0_odd. apply Z.lxor_spec. }
  rewrite Ediv, Eodd.
  rewrite <- IH. f_equal.
  destruct (Z.odd x), (Z.odd y); simpl.
  - rewrite (Z.lxor_comm s v0), Z.lxor_assoc, <- (Z.lxor_assoc v0 v0 s), Z.lxor_nilpotent, Z.lxor_0_l.
    reflexivity.
  - rewrite !Z.lxor_assoc. f_equal. apply Z.lxor_comm.
  - rewrite !Z.lxor_assoc. reflexivity.
  - reflexivity.
Qed.
Lemma ffm_gmul (c x : Z) :
  is_byte c -> is_byte x -> finiteFieldMultiplication c x = gmul c x.
Proof.
  intros Hc Hx. unfold finiteFieldMultiplication, gmul.
  apply ffmLoop_fast; [assumption|assumption|unfold is_byte; lia].
Qed.

Lemma gmul_is_byte (c x : Z) : is_byte c -> is_byte x -> is_byte (gmul c x).
Proof.
  intros Hc Hx. unfold gmul.
  apply ffmLoop_fast; [assumption|assumption|unfold is_byte; lia].
Qed.

Lemma gmul_lxor (c x y : Z) : gmul c (Z.lxor x y) = Z.lxor (gmul c x) (gmul c y).
Proof.
  unfold gmul. rewrite <- ffmFast_linear. rewrite Z.lxor_0_l. reflexivity.
Qed.

Lemma lxor_transpose (x11 x12 x13 x14 x21 x22 x23 x24 x31 x32 x33 x34 x41 x42 x43 x44 : Z) :
  Z.lxor (Z.lxor (Z.lxor (Z.lxor (Z.lxor (Z.lxor x11 x12) x13) x14)
                         (Z.lxor (Z.lxor (Z.lxor x21 x22) x23) x24))
                 (Z.lxor (Z.lxor (Z.lxor x31 x32) x33) x34))
         (Z.lxor (Z.lxor (Z.lxor x41 x42) x43) x44)
  =
  Z.lxor (Z.lxor (Z.lxor (Z.lxor (Z.lxor (Z.lxor x11 x21) x31) x41)
                         (Z.lxor (Z.lxor (Z.lxor x12 x22) x32) x42))
                 (Z.lxor (Z.lxor (Z.lxor x13 x23) x33) x43))
         (Z.lxor (Z.lxor (Z.lxor x14 x24) x34) x44).
Proof.
  apply Z.bits_inj'. intros n Hn. rewrite !Z.lxor_spec.
  repeat match goal with |- context [Z.testbit ?x n] => generalize (Z.testbit x n); intro end.
  btauto.
Qed.
Lemma invMix_mix_00 (x : Z) : is_byte x ->
  Z.lxor (Z.lxor (Z.lxor (gmul 14 (gmul 2 x)) (gmul 11 x)) (gmul 13 x)) (gmul 9 (gmul 3 x)) = x.
Proof.
  intros H. apply Z.eqb_eq.
  exact (forall_bytes (fun x => Z.lxor (Z.lxor (Z.lxor (gmul 14 (gmul 2 x)) (gmul 11 x)) (gmul 13 x)) (gmul 9 (gmul 3 x)) =? x)
           ltac:(vm_compute; reflexivity) x H).
Qed.

Lemma invMix_mix_01 (x : Z) : is_byte x ->
  Z.lxor (Z.lxor (Z.lxor (gmul 14 (gmul 3 x)) (gmul 11 (gmul 2 x))) (gmul 13 x)) (gmul 9 x) = 0.
Proof.
  intros H. apply Z.eqb_eq.
  exact (forall_bytes (fun x => Z.lxor (Z.lxor (Z.lxor (gmul 14 (gmul 3 x)) (gmul 11 (gmul 2 x))) (gmul 13 x)) (gmul 9 x) =? 0)
           ltac:(vm_compute; reflexivity) x H).
Qed.

Lemma invMix_mix_02 (x : Z) : is_byte x ->
  Z.lxor (Z.lxor (Z.lxor (gmul 14 x) (gmul 11 (gmul 3 x))) (gmul 13 (gmul 2 x))) (gmul 9 x) = 0.
Proof.
  intros H. apply Z.eqb_eq.
  exact (forall_bytes (fun x => Z.lxor (Z.lxor (Z.lxor (gmul 14 x) (gmul 11 (gmul 3 x))) (gmul 13 (gmul 2 x))) (gmul 9 x) =? 0)
           ltac:(vm_compute; reflexivity) x H).
Qed.

Lemma invMix_mix_03 (x : Z) : is_byte x ->
  Z.lxor (Z.lxor (Z.lxor (gmul 14 x) (gmul 11 x)) (gmul 13 (gmul 3 x))) (gmul 9 (gmul 2 x)) = 0.
Proof.
  intros H. apply Z.eqb_eq.
  exact (forall_bytes (fun x => Z.lxor (Z.lxor (Z.lxor (gmul 14 x) (gmul 11 x)) (gmul 13 (gmul 3 x))) (gmul 9 (gmul 2 x)) =? 0)
           ltac:(vm_compute; reflexivity) x H).
Qed.

Lemma invMix_mix_10 (x : Z) : is_byte x ->
  Z.lxor (Z.lxor (Z.lxor (gmul 9 (gmul 2 x)) (gmul 14 x)) (gmul 11 x)) (gmul 13 (gmul 3 x)) = 0.
Proof.
  intros H. apply Z.eqb_eq.
  exact (forall_bytes (fun x => Z.lxor (Z.lxor (Z.lxor (gmul 9 (gmul 2 x)) (gmul 14 x)) (gmul 11 x)) (gmul 13 (gmul 3 x)) =? 0)
           ltac:(vm_compute; reflexivity) x H).
Qed.

Lemma invMix_mix_11 (x : Z) : is_byte x ->
  Z.lxor (Z.lxor (Z.lxor (gmul 9 (gmul 3 x)) (gmul 14 (gmul 2 x))) (gmul 11 x)) (gmul 13 x) = x.
Proof.
  intros H. apply Z.eqb_eq.
  exact (forall_bytes (fun x => Z.lxor (Z.lxor (Z.lxor (gmul 9 (gmul 3 x)) (gmul 14 (gmul 2 x))) (gmul 11 x)) (gmul 13 x) =? x)
           ltac:(vm_compute; reflexivity) x H).
Qed.

Lemma invMix_mix_12 (x : Z) : is_byte x ->
  Z.lxor (Z.lxor (Z.lxor (gmul 9 x) (gmul 14 (gmul 3 x))) (gmul 11 (gmul 2 x))) (gmul 13 x) = 0.
Proof.
  intros H. apply Z.eqb_eq.
  exact (forall_bytes (fun x => Z.lxor (Z.lxor (Z.lxor (gmul 9 x) (gmul 14 (gmul 3 x))) (gmul 11 (gmul 2 x))) (gmul 13 x) =? 0)
           ltac:(vm_compute; reflexivity) x H).
Qed.

Lemma invMix_mix_13 (x : Z) : is_byte x ->
  Z.lxor (Z.lxor (Z.lxor (gmul 9 x) (gmul 14 x)) (gmul 11 (gmul 3 x))) (gmul 13 (gmul 2 x)) = 0.
Proof.
  intros H. apply Z.eqb_eq.
  exact (forall_bytes (fun x => Z.lxor (Z.lxor (Z.lxor (gmul 9 x) (gmul 14 x)) (gmul 11 (gmul 3 x))) (gmul 13 (gmul 2 x)) =? 0)
           ltac:(vm_compute; reflexivity) x H).
Qed.

Lemma invMix_mix_20 (x : Z) : is_byte x ->
  Z.lxor (Z.lxor (Z.lxor (gmul 13 (gmul 2 x)) (gmul 9 x)) (gmul 14 x)) (gmul 11 (gmul 3 x)) = 0.
Proof.
  intros H. apply Z.eqb_eq.
  exact (forall_bytes (fun x => Z.lxor (Z.lxor (Z.lxor (gmul 13 (gmul 2 x)) (gmul 9 x)) (gmul 14 x)) (gmul 11 (gmul 3 x)) =? 0)
           ltac:(vm_compute; reflexivity) x H).
Qed.

Lemma invMix_mix_21 (x : Z) : is_byte x ->
  Z.lxor (Z.lxor (Z.lxor (gmul 13 (gmul 3 x)) (gmul 9 (gmul 2 x))) (gmul 14 x)) (gmul 11 x) = 0.
Proof.
  intros H. apply Z.eqb_eq.
  exact (forall_bytes (fun x => Z.lxor (Z.lxor (Z.lxor (gmul 13 (gmul 3 x)) (gmul 9 (gmul 2 x))) (gmul 14 x)) (gmul 11 x) =? 0)
           ltac:(vm_compute; reflexivity) x H).
Qed.

Lemma invMix_mix_22 (x : Z) : is_byte x ->
  Z.lxor (Z.lxor (Z.lxor (gmul 13 x) (gmul 9 (gmul 3 x))) (gmul 14 (gmul 2 x))) (gmul 11 x) = x.
Proof.
  intros H. apply Z.eqb_eq.
  exact (forall_bytes (fun x => Z.lxor (Z.lxor (Z.lxor (gmul 13 x) (gmul 9 (gmul 3 x))) (gmul 14 (gmul 2 x))) (gmul 11 x) =? x)
           ltac:(vm_compute; reflexivity) x H).
Qed.

Lemma invMix_mix_23 (x : Z) : is_byte x ->
  Z.lxor (Z.lxor (Z.lxor (gmul 13 x) (gmul 9 x)) (gmul 14 (gmul 3 x))) (gmul 11 (gmul 2 x)) = 0.
Proof.
  intros H. apply Z.eqb_eq.
  exact (forall_bytes (fun x => Z.lxor (Z.lxor (Z.lxor (gmul 13 x) (gmul 9 x)) (gmul 14 (gmul 3 x))) (gmul 11 (gmul 2 x)) =? 0)
           ltac:(vm_compute; reflexivity) x H).
Qed.

Lemma invMix_mix_30 (x : Z) : is_byte x ->
  Z.lxor (Z.lxor (Z.lxor (gmul 11 (gmul 2 x)) (gmul 13 x)) (gmul 9 x)) (gmul 14 (gmul 3 x)) = 0.
Proof.
  intros H. apply Z.eqb_eq.
  exact (forall_bytes (fun x => Z.lxor (Z.lxor (Z.lxor (gmul 11 (gmul 2 x)) (gmul 13 x)) (gmul 9 x)) (gmul 14 (gmul 3 x)) =? 0)
           ltac:(vm_compute; reflexivity) x H).
Qed.

Lemma invMix_mix_31 (x : Z) : is_byte x ->
  Z.lxor (Z.lxor (Z.lxor (gmul 11 (gmul 3 x)) (gmul 13 (gmul 2 x))) (gmul 9 x)) (gmul 14 x) = 0.
Proof.
  intros H. apply Z.eqb_eq.
  exact (forall_bytes (fun x => Z.lxor (Z.lxor (Z.lxor (gmul 11 (gmul 3 x)) (gmul 13 (gmul 2 x))) (gmul 9 x)) (gmul 14 x) =? 0)
           ltac:(vm_compute; reflexivity) x H).
Qed.

Lemma invMix_mix_32 (x : Z) : is_byte x ->
  Z.lxor (Z.lxor (Z.lxor (gmul 11 x) (gmul 13 (gmul 3 x))) (gmul 9 (gmul 2 x))) (gmul 14 x) = 0.
Proof.
  intros H. apply Z.eqb_eq.
  exact (forall_bytes (fun x => Z.lxor (Z.lxor (Z.lxor (gmul 11 x) (gmul 13 (gmul 3 x))) (gmul 9 (gmul 2 x))) (gmul 14 x) =? 0)
           ltac:(vm_compute; reflexivity) x H).
Qed.

Lemma invMix_mix_33 (x : Z) : is_byte x ->
  Z.lxor (Z.lxor (Z.lxor (gmul 11 x) (gmul 13 x)) (gmul 9 (gmul 3 x))) (gmul 14 (gmul 2 x)) = x.
Proof.
  intros H. apply Z.eqb_eq.
  exact (forall_bytes (fun x => Z.lxor (Z.lxor (Z.lxor (gmul 11 x) (gmul 13 x)) (gmul 9 (gmul 3 x))) (gmul 14 (gmul 2 x)) =? x)
           ltac:(vm_compute; reflexivity) x H).
Qed.


Ltac bytes :=
  repeat match goal with
         | |- is_byte (JS.xor _ _) => apply xor_is_byte
         | |- is_byte (Z.lxor _ _) => apply lxor_is_byte
         | |- is_byte (gmul _ _) => apply gmul_is_byte
         | H : is_byte ?x |- is_byte ?x => exact H
         | |- is_byte ?x => is_var x; fail 1
         | |- is_byte _ => unfold is_byte; lia
         end.

Lemma xor4_lxor (a b c d : Z) :
  is_byte a -> is_byte b -> is_byte c -> is_byte d ->
  xor4 a b c d = Z.lxor (Z.lxor (Z.lxor a b) c) d.
Proof.
  intros. unfold xor4. rewrite !xor_byte by bytes. reflexivity.
Qed.

Lemma mixColumn_G (a b c d : Z) :
  is_byte a -> is_byte b -> is_byte c -> is_byte d ->
  mixColumn a b c d = mixColumnG a b c d.
Proof.
  intros. cbv [mixColumn mixColumnG].
  rewrite !ffm_gmul by bytes. rewrite !xor4_lxor by bytes. reflexivity.
Qed.

Lemma invMixColumn_G (a b c d : Z) :
  is_byte a -> is_byte b -> is_byte c -> is_byte d ->
  invMixColumn a b c d = invMixColumnG a b c d.
Proof.
  intros. cbv [invMixColumn invMixColumnG].
  rewrite !ffm_gmul by bytes. rewrite !xor4_lxor by bytes. reflexivity.
Qed.

Lemma mixColumnG_bytes (a b c d : Z) :
  is_byte a -> is_byte b -> is_byte c -> is_byte d ->
  Forall is_byte (mixColumnG a b c d).
Proof. intros. unfold mixColumnG. repeat (constructor; [bytes|]). constructor. Qed.

Lemma invMixColumnG_bytes (a b c d : Z) :
  is_byte a -> is_byte b -> is_byte c -> is_byte d ->
  Forall is_byte (invMixColumnG a b c d).
Proof. intros. unfold invMixColumnG. repeat (constructor; [bytes|]). constructor. Qed.

Lemma invMix_mix_G (a b c d : Z) :
  is_byte a -> is_byte b -> is_byte c -> is_byte d ->
  invMixColumnG (Z.lxor (Z.lxor (Z.lxor (gmul 2 a) (gmul 3 b)) c) d)
                (Z.lxor (Z.lxor (Z.lxor a (gmul 2 b)) (gmul 3 c)) d)
                (Z.lxor (Z.lxor (Z.lxor a b) (gmul 2 c)) (gmul 3 d))
                (Z.lxor (Z.lxor (Z.lxor (gmul 3 a) b) c) (gmul 2 d))
  = [a; b; c; d].
Proof.
  intros Ha Hb Hc Hd. unfold invMixColumnG.
  rewrite !gmul_lxor.
  f_equal; [|f_equal; [|f_equal; [|f_equal]]]; rewrite lxor_transpose.
  - rewrite invMix_mix_00, invMix_mix_01, invMix_mix_02, invMix_mix_03 by assumption.
    rewrite !Z.lxor_0_r. reflexivity.
  - rewrite invMix_mix_10, invMix_mix_11, invMix_mix_12, invMix_mix_13 by assumption.
    rewrite !Z.lxor_0_r. reflexivity.
  - rewrite invMix_mix_20, invMix_mix_21, invMix_mix_22, invMix_mix_23 by assumption.
    rewrite !Z.lxor_0_r, Z.lxor_0_l. reflexivity.
  - rewrite invMix_mix_30, invMix_mix_31, invMix_mix_32, invMix_mix_33 by assumption.
    rewrite !Z.lxor_0_l. reflexivity.
Qed.

Lemma byte_row_inv (r : list Z) :
  byte_row r ->
  exists a b c d, r = [a; b; c; d] /\ is_byte a /\ is_byte b /\ is_byte c /\ is_byte d.
Proof.
  intros [Hl Hf].
  destruct r as [|a [|b [|c [|d [|e r]]]]]; try discriminate.
  exists a, b, c, d.
  inversion Hf as [|? ? Ha Hf1]; subst.
  inversion Hf1 as [|? ? Hb Hf2]; subst.
  inversion Hf2 as [|? ? Hc Hf3]; subst.
  inversion Hf3 as [|? ? Hd Hf4]; subst.
  auto.
Qed.

Lemma byte_row_intro (a b c d : Z) :
  is_byte a -> is_byte b -> is_byte c -> is_byte d -> byte_row [a; b; c; d].
Proof. intros. split; [reflexivity|]. repeat (constructor; [assumption|]). constructor. Qed.

Lemma byte_state_intro (r0 r1 r2 r3 : list Z) :
  byte_row r0 -> byte_row r1 -> byte_row r2 -> byte_row r3 ->
  byte_state [r0; r1; r2; r3].
Proof. intros. split; [reflexivity|]. repeat (constructor; [assumption|]). constructor. Qed.

Lemma byte_state_inv (st : State) :
  byte_state st ->
  exists r0 r1 r2 r3, st = [r0; r1; r2; r3] /\
    byte_row r0 /\ byte_row r1 /\ byte_row r2 /\ byte_row r3.
Proof.
  intros [Hl Hf].
  destruct st as [|a [|b [|c [|d [|e r]]]]]; try discriminate.
  exists a, b, c, d.
  inversion Hf as [|? ? Ha Hf1]; subst.
  inversion Hf1 as [|? ? Hb Hf2]; subst.
  inversion Hf2 as [|? ? Hc Hf3]; subst.
  inversion Hf3 as [|? ? Hd Hf4]; subst.
  auto.
Qed.

(** Naming the sixteen cells of a state of bytes. *)
Ltac explode_state H :=
  let r0 := fresh "r0" in let r1 := fresh "r1" in
  let r2 := fresh "r2" in let r3 := fresh "r3" in
  let H0 := fresh "H0" in let H1 := fresh "H1" in
  let H2 := fresh "H2" in let H3 := fresh "H3" in
  destruct (byte_state_inv _ H) as (r0 & r1 & r2 & r3 & -> & H0 & H1 & H2 & H3);
  destruct (byte_row_inv _ H0) as (? & ? & ? & ? & -> & ? & ? & ? & ?);
  destruct (byte_row_inv _ H1) as (? & ? & ? & ? & -> & ? & ? & ? & ?);
  destruct (byte_row_inv _ H2) as (? & ? & ? & ? & -> & ? & ? & ? & ?);
  destruct (byte_row_inv _ H3) as (? & ? & ? & ? & -> & ? & ? & ? & ?);
  clear H0 H1 H2 H3.

Ltac run_cells :=
  cbv -[subByte invSubByte finiteFieldMultiplication xor4 JS.xor];
  reflexivity.

Lemma subBytes_cells (a0 a1 a2 a3 b0 b1 b2 b3 c0 c1 c2 c3 d0 d1 d2 d3 : Z) :
  subBytes [[a0; a1; a2; a3]; [b0; b1; b2; b3]; [c0; c1; c2; c3]; [d0; d1; d2; d3]]
  = Ok [[subByte a0; subByte a1; subByte a2; subByte a3];
        [subByte b0; subByte b1; subByte b2; subByte b3];
        [subByte c0; subByte c1; subByte c2; subByte c3];
        [subByte d0; subByte d1; subByte d2; subByte d3]].
Proof. run_cells. Qed.

Lemma invSubBytes_cells (a0 a1 a2 a3 b0 b1 b2 b3 c0 c1 c2 c3 d0 d1 d2 d3 : Z) :
  invSubBytes [[a0; a1; a2; a3]; [b0; b1; b2; b3]; [c0; c1; c2; c3]; [d0; d1; d2; d3]]
  = Ok [[invSubByte a0; invSubByte a1; invSubByte a2; invSubByte a3];
        [invSubByte b0; invSubByte b1; invSubByte b2; invSubByte b3];
        [invSubByte c0; invSubByte c1; invSubByte c2; invSubByte c3];
        [invSubByte d0; invSubByte d1; invSubByte d2; invSubByte d3]].
Proof. run_cells. Qed.

Lemma shiftRows_cells (a0 a1 a2 a3 b0 b1 b2 b3 c0 c1 c2 c3 d0 d1 d2 d3 : Z) :
  shiftRows [[a0; a1; a2; a3]; [b0; b1; b2; b3]; [c0; c1; c2; c3]; [d0; d1; d2; d3]]
  = Ok [[a0; a1; a2; a3]; [b1; b2; b3; b0]; [c2; c3; c0; c1]; [d3; d0; d1; d2]].
Proof. run_cells. Qed.

Lemma invShiftRows_cells (a0 a1 a2 a3 b0 b1 b2 b3 c0 c1 c2 c3 d0 d1 d2 d3 : Z) :
  invShiftRows [[a0; a1; a2; a3]; [b0; b1; b2; b3]; [c0; c1; c2; c3]; [d0; d1; d2; d3]]
  = Ok [[a0; a1; a2; a3]; [b3; b0; b1; b2]; [c2; c3; c0; c1]; [d1; d2; d3; d0]].
Proof. run_cells. Qed.

Lemma mixColumns_cells (a0 a1 a2 a3 b0 b1 b2 b3 c0 c1 c2 c3 d0 d1 d2 d3 : Z) :
  mixColumns [[a0; a1; a2; a3]; [b0; b1; b2; b3]; [c0; c1; c2; c3]; [d0; d1; d2; d3]]
  = Ok (of_columns (mixColumn a0 b0 c0 d0) (mixColumn a1 b1 c1 d1)
                   (mixColumn a2 b2 c2 d2) (mixColumn a3 b3 c3 d3)).
Proof. run_cells. Qed.

Lemma invMixColumns_cells (a0 a1 a2 a3 b0 b1 b2 b3 c0 c1 c2 c3 d0 d1 d2 d3 : Z) :
  invMixColumns [[a0; a1; a2; a3]; [b0; b1; b2; b3]; [c0; c1; c2; c3]; [d0; d1; d2; d3]]
  = Ok (of_columns (invMixColumn a0 b0 c0 d0) (invMixColumn a1 b1 c1 d1)
                   (invMixColumn a2 b2 c2 d2) (invMixColumn a3 b3 c3 d3)).
Proof. run_cells. Qed.

Lemma addRoundKey_cells
  (a0 a1 a2 a3 b0 b1 b2 b3 c0 c1 c2 c3 d0 d1 d2 d3 : Z) (k0 k1 k2 k3 : list Z) :
  addRoundKey [[a0; a1; a2; a3]; [b0; b1; b2; b3]; [c0; c1; c2; c3]; [d0; d1; d2; d3]]
              [k0; k1; k2; k3] 0
  = Ok [[JS.xor a0 (num_at k0 0); JS.xor a1 (num_at k1 0);
         JS.xor a2 (num_at k2 0); JS.xor a3 (num_at k3 0)];
        [JS.xor b0 (num_at k0 1); JS.xor b1 (num_at k1 1);
         JS.xor b2 (num_at k2 1); JS.xor b3 (num_at k3 1)];
        [JS.xor c0 (num_at k0 2); JS.xor c1 (num_at k1 2);
         JS.xor c2 (num_at k2 2); JS.xor c3 (num_at k3 2)];
        [JS.xor d0 (num_at k0 3); JS.xor d1 (num_at k1 3);
         JS.xor d2 (num_at k2 3); JS.xor d3 (num_at k3 3)]].
Proof. run_cells. Qed.

(** *** Each transform is undone by its inverse *)

Lemma subByte_facts (x : Z) :
  is_byte x ->
  invSubByte (subByte x) = x /\ is_byte (subByte x) /\
  subByte (invSubByte x) = x /\ is_byte (invSubByte x).
Proof.
  intros H. pose proof (forall_bytes _ subByte_inv_check x H) as C.
  rewrite !andb_true_iff in C.
  destruct C as (((((C1 & C2) & C3) & C4) & C5) & C6).
  apply Z.eqb_eq in C1, C4. apply Z.leb_le in C2, C5. apply Z.ltb_lt in C3, C6.
  unfold is_byte. auto.
Qed.

Ltac bytes2 :=
  repeat match goal with
         | |- byte_state [_; _; _; _] => apply byte_state_intro
         | |- byte_row [_; _; _; _] => apply byte_row_intro
         | |- is_byte (subByte _) => apply subByte_facts
         | |- is_byte (invSubByte _) => apply subByte_facts
         | |- is_byte (JS.xor _ _) => apply xor_is_byte
         | |- is_byte (Z.lxor _ _) => apply lxor_is_byte
         | |- is_byte (gmul _ _) => apply gmul_is_byte
         | H : is_byte ?x |- is_byte ?x => exact H
         | |- is_byte ?x => is_var x; fail 1
         | |- is_byte _ => unfold is_byte; lia
         end.

Lemma subBytes_inverse (st : State) :
  byte_state st ->
  exists st', subBytes st = Ok st' /\ byte_state st' /\ invSubBytes st' = Ok st.
Proof.
  intros H. explode_state H.
  eexists. split; [apply subBytes_cells|]. split; [bytes2|].
  rewrite invSubBytes_cells.
  repeat match goal with
         | Hx : is_byte ?x |- context [invSubByte (subByte ?x)] =>
             rewrite (proj1 (subByte_facts x Hx))
         end.
  reflexivity.
Qed.

Lemma shiftRows_inverse (st : State) :
  byte_state st ->
  exists st', shiftRows st = Ok st' /\ byte_state st' /\ invShiftRows st' = Ok st.
Proof.
  intros H. explode_state H.
  eexists. split; [apply shiftRows_cells|]. split; [bytes2|].
  apply invShiftRows_cells.
Qed.

Lemma invMix_mix_column (a b c d : Z) :
  is_byte a -> is_byte b -> is_byte c -> is_byte d ->
  mixColumn a b c d = mixColumnG a b c d /\
  invMixColumn (num_at (mixColumnG a b c d) 0) (num_at (mixColumnG a b c d) 1)
               (num_at (mixColumnG a b c d) 2) (num_at (mixColumnG a b c d) 3)
  = [a; b; c; d].
Proof.
  intros Ha Hb Hc Hd. split; [apply mixColumn_G; assumption|].
  cbv [mixColumnG num_at Z.ltb Z.compare Z.to_nat Pos.to_nat Pos.iter_op Nat.add nth].
  rewrite invMixColumn_G by bytes2.
  apply invMix_mix_G; assumption.
Qed.

Lemma mixColumns_inverse (st : State) :
  byte_state st ->
  exists st', mixColumns st = Ok st' /\ byte_state st' /\ invMixColumns st' = Ok st.
Proof.
  intros H. explode_state H.
  eexists. split; [apply mixColumns_cells|].
  repeat match goal with
         | |- context [mixColumn ?a ?b ?c ?d] =>
             rewrite (proj1 (invMix_mix_column a b c d ltac:(assumption)
                        ltac:(assumption) ltac:(assumption) ltac:(assumption)))
         end.
  split.
  - cbv [of_columns map mixColumnG num_at Z.ltb Z.compare Z.to_nat Pos.to_nat
         Pos.iter_op Nat.add nth].
    bytes2.
  - cbv [of_columns map].
    rewrite invMixColumns_cells.
    repeat match goal with
           | |- context [invMixColumn (num_at (mixColumnG ?a ?b ?c ?d) 0) _ _ _] =>
               rewrite (proj2 (invMix_mix_column a b c d ltac:(assumption)
                          ltac:(assumption) ltac:(assumption) ltac:(assumption)))
           end.
    reflexivity.
Qed.

(** *** Loops *)

Lemma bind_assoc {A B C : Type} (r : result A) (f : A -> result B) (g : B -> result C) :
  bind (bind r f) g = bind r (fun a => bind (f a) g).
Proof. destruct r; reflexivity. Qed.

Lemma for_up_ext {St : Type} (n : nat) : forall (i : Z) (f g : Z -> St -> result St) (s : St),
  (forall k t, i <= k < i + Z.of_nat n -> f k t = g k t) ->
  for_up n i f s = for_up n i g s.
Proof.
  induction n as [|n IH]; intros i f g s H; [reflexivity|].
  cbn [for_up]. rewrite (H i s) by lia.
  destruct (g i s) as [s'| |]; cbn [bind]; try reflexivity.
  apply IH. intros k t Hk. apply H. lia.
Qed.

Lemma for_up_invariant {St : Type} (P : Z -> St -> Prop) (body : Z -> St -> result St)
  (n : nat) : forall (i : Z) (s : St),
  P i s ->
  (forall k t, i <= k < i + Z.of_nat n -> P k t ->
     exists t', body k t = Ok t' /\ P (k + 1) t') ->
  exists s', for_up n i body s = Ok s' /\ P (i + Z.of_nat n) s'.
Proof.
  induction n as [|n IH]; intros i s Hs Hstep.
  - exists s. split; [reflexivity|]. rewrite Z.add_0_r. exact Hs.
  - destruct (Hstep i s ltac:(lia) Hs) as (t & Et & Ht).
    destruct (IH (i + 1) t Ht) as (s' & Es' & Hs').
    + intros k u Hk. apply Hstep. lia.
    + exists s'. split.
      * cbn [for_up]. rewrite Et. exact Es'.
      * replace (i + Z.of_nat (S n)) with (i + 1 + Z.of_nat n) by lia. exact Hs'.
Qed.

Lemma for_down_last {St : Type} (n : nat) : forall (i : Z) (body : Z -> St -> result St) (s : St),
  for_down (S n) i body s
  = bind (for_down n i body s) (body (i - Z.of_nat n)).
Proof.
  induction n as [|n IH]; intros i body s.
  - cbn [for_down bind]. rewrite Z.sub_0_r.
    destruct (body i s); reflexivity.
  - change (for_down (S (S n)) i body s)
      with (bind (body i s) (for_down (S n) (i - 1) body)).
    change (for_down (S n) i body s)
      with (bind (body i s) (for_down n (i - 1) body)).
    rewrite bind_assoc.
    destruct (body i s) as [t| |]; cbn [bind]; try reflexivity.
    rewrite IH. do 2 f_equal. lia.
Qed.

(** *** Round keys *)

Lemma row_at_Forall {A : Type} (P : A -> Prop) (l : list A) (i : Z) :
  Forall P l -> 0 <= i < Z.of_nat (List.length l) ->
  exists r, row_at l i = Ok r /\ P r.
Proof.
  intros Hl Hi. unfold row_at.
  destruct (Z.ltb_spec i 0); [lia|].
  destruct (nth_error l (Z.to_nat i)) as [r|] eqn:E.
  - exists r. split; [reflexivity|].
    rewrite Forall_forall in Hl. apply Hl. eapply nth_error_In, E.
  - apply nth_error_None in E. lia.
Qed.

Lemma addRoundKey_window (st : State) (w : list (list Z)) (offset : Z)
  (k0 k1 k2 k3 : list Z) :
  row_at w (offset + 0) = Ok k0 -> row_at w (offset + 1) = Ok k1 ->
  row_at w (offset + 2) = Ok k2 -> row_at w (offset + 3) = Ok k3 ->
  addRoundKey st w offset = addRoundKey st [k0; k1; k2; k3] 0.
Proof.
  intros E0 E1 E2 E3. unfold addRoundKey, for_range.
  apply for_up_ext. intros i t Hi.
  apply for_up_ext. intros j u Hj.
  assert (E : row_at w (offset + j) = row_at [k0; k1; k2; k3] (0 + j)).
  { assert (Hc : j = 0 \/ j = 1 \/ j = 2 \/ j = 3) by (simpl in Hj; lia).
    destruct Hc as [-> | [-> | [-> | ->]]]; [rewrite E0|rewrite E1|rewrite E2|rewrite E3];
      reflexivity. }
  rewrite E. reflexivity.
Qed.

Lemma addRoundKey_involution (st : State) (w : list (list Z)) (n offset : Z) :
  schedule_ok w n -> 0 <= offset -> offset + 4 <= n ->
  byte_state st ->
  exists st', addRoundKey st w offset = Ok st' /\ byte_state st' /\
              addRoundKey st' w offset = Ok st.
Proof.
  intros [Hn Hw] Ho Hon H.
  destruct (row_at_Forall _ w (offset + 0) Hw ltac:(lia)) as (k0 & E0 & B0).
  destruct (row_at_Forall _ w (offset + 1) Hw ltac:(lia)) as (k1 & E1 & B1).
  destruct (row_at_Forall _ w (offset + 2) Hw ltac:(lia)) as (k2 & E2 & B2).
  destruct (row_at_Forall _ w (offset + 3) Hw ltac:(lia)) as (k3 & E3 & B3).
  destruct (byte_row_inv _ B0) as (? & ? & ? & ? & -> & ? & ? & ? & ?).
  destruct (byte_row_inv _ B1) as (? & ? & ? & ? & -> & ? & ? & ? & ?).
  destruct (byte_row_inv _ B2) as (? & ? & ? & ? & -> & ? & ? & ? & ?).
  destruct (byte_row_inv _ B3) as (? & ? & ? & ? & -> & ? & ? & ? & ?).
  explode_state H.
  eexists. split; [|split].
  - rewrite (addRoundKey_window _ w offset _ _ _ _ E0 E1 E2 E3).
    rewrite addRoundKey_cells.
    cbv [num_at Z.ltb Z.compare Z.to_nat Pos.to_nat Pos.iter_op Nat.add nth].
    reflexivity.
  - bytes2.
  - rewrite (addRoundKey_window _ w offset _ _ _ _ E0 E1 E2 E3).
    rewrite addRoundKey_cells.
    cbv [num_at Z.ltb Z.compare Z.to_nat Pos.to_nat Pos.iter_op Nat.add nth].
    rewrite !xor_byte by bytes2.
    rewrite !Z.lxor_assoc, !Z.lxor_nilpotent, !Z.lxor_0_r. reflexivity.
Qed.

(** *** Rounds *)


Lemma sub_shift_inverse (s : State) :
  byte_state s ->
  exists y x, subBytes s = Ok y /\ shiftRows y = Ok x /\ byte_state x /\
              invShiftRows x = Ok y /\ invSubBytes y = Ok s.
Proof.
  intros H.
  destruct (subBytes_inverse s H) as (y & E1 & By & I1).
  destruct (shiftRows_inverse y By) as (x & E2 & Bx & I2).
  exists y, x. auto.
Qed.

Section Rounds.

Variable R : Z.
Variable w : list (list Z).
Hypothesis Hw : schedule_ok w (4 * R).

Lemma rounds_inverse (m : nat) : forall (r : Z) (s : State),
  1 <= r -> r + Z.of_nat (S m) = R -> byte_state s ->
  exists out x,
    for_up (S m) r (encRound R w) s = Ok out /\ byte_state out /\
    bind (subBytes s) shiftRows = Ok x /\ byte_state x /\
    bind (addRoundKey out w ((R - 1) * 4)) (for_down m (R - 2) (decRound w)) = Ok x.
Proof.
  induction m as [|m IH]; intros r s Hr HR Hs.
  - destruct (sub_shift_inverse s Hs) as (y & x & E1 & E2 & Bx & I2 & I1).
    destruct (addRoundKey_involution x w (4 * R) (r * 4) Hw ltac:(lia) ltac:(lia) Bx)
      as (out & E3 & Bout & I3).
    exists out, x. split; [|split; [assumption|split; [|split; [assumption|]]]].
    + cbn [for_up]. unfold encRound. rewrite E1. cbn [bind]. rewrite E2. cbn [bind].
      replace (r + 1 <? R) with false by (symmetry; apply Z.ltb_ge; lia).
      cbn [bind]. rewrite E3. reflexivity.
    + rewrite E1. cbn [bind]. exact E2.
    + replace ((R - 1) * 4) with (r * 4) by lia. rewrite I3. reflexivity.
  - destruct (sub_shift_inverse s Hs) as (y & x & E1 & E2 & Bx & I2 & I1).
    destruct (mixColumns_inverse x Bx) as (mx & E3 & Bmx & I3).
    destruct (addRoundKey_involution mx w (4 * R) (r * 4) Hw ltac:(lia) ltac:(lia) Bmx)
      as (s' & E4 & Bs' & I4).
    destruct (IH (r + 1) s' ltac:(lia) ltac:(lia) Bs')
      as (out & x' & F1 & Bout & F2 & Bx' & F3).
    destruct (sub_shift_inverse s' Bs') as (y' & x'' & G1 & G2 & _ & J2 & J1).
    rewrite G1 in F2. cbn [bind] in F2. rewrite G2 in F2. injection F2 as <-.
    exists out, x. split; [|split; [assumption|split; [|split; [assumption|]]]].
    + change (for_up (S (S m)) r (encRound R w) s)
        with (bind (encRound R w r s) (for_up (S m) (r + 1) (encRound R w))).
      unfold encRound at 1. rewrite E1. cbn [bind]. rewrite E2. cbn [bind].
      replace (r + 1 <? R) with true by (symmetry; apply Z.ltb_lt; lia).
      rewrite E3. cbn [bind]. rewrite E4. cbn [bind]. exact F1.
    + rewrite E1. cbn [bind]. exact E2.
    + destruct (addRoundKey out w ((R - 1) * 4)) as [t| |] eqn:Et;
        cbn [bind] in F3 |- *; try discriminate.
      rewrite for_down_last, F3. cbn [bind].
      replace (R - 2 - Z.of_nat m) with r by lia.
      unfold decRound. rewrite J2. cbn [bind]. rewrite J1. cbn [bind].
      rewrite I4. cbn [bind].
      replace (0 <? r) with true by (symmetry; apply Z.ltb_lt; lia).
      exact I3.
Qed.

(** The rounds of [decrypt] undo the rounds of [encrypt]. *)
Lemma rounds_roundtrip (st : State) :
  2 <= R -> byte_state st ->
  exists s out,
    addRoundKey st w 0 = Ok s /\
    for_range 1 R (encRound R w) s = Ok out /\ byte_state out /\
    bind (addRoundKey out w ((R - 1) * 4)) (for_range_down (R - 2) 0 (decRound w))
    = Ok st.
Proof.
  intros HR Hst.
  destruct (addRoundKey_involution st w (4 * R) 0 Hw ltac:(lia) ltac:(lia) Hst)
    as (s & E0 & Bs & I0).
  destruct (rounds_inverse (Z.to_nat (R - 2)) 1 s ltac:(lia) ltac:(lia) Bs)
    as (out & x & F1 & Bout & F2 & Bx & F3).
  destruct (sub_shift_inverse s Bs) as (y & x' & G1 & G2 & _ & J2 & J1).
  rewrite G1 in F2. cbn [bind] in F2. rewrite G2 in F2. injection F2 as <-.
  exists s, out. split; [assumption|split; [|split; [assumption|]]].
  - unfold for_range. replace (Z.to_nat (R - 1)) with (S (Z.to_nat (R - 2))) by lia.
    exact F1.
  - unfold for_range_down.
    replace (Z.to_nat (R - 2 - 0 + 1)) with (S (Z.to_nat (R - 2))) by lia.
    destruct (addRoundKey out w ((R - 1) * 4)) as [t| |] eqn:Et;
      cbn [bind] in F3 |- *; try discriminate.
    rewrite for_down_last, F3. cbn [bind].
    replace (R - 2 - Z.of_nat (Z.to_nat (R - 2))) with 0 by lia.
    unfold decRound. rewrite J2. cbn [bind]. rewrite J1. cbn [bind].
    change (0 * 4) with 0. rewrite I0. reflexivity.
Qed.

End Rounds.

(** *** The key schedule *)

Lemma keyExpansion_unfold (roundLimit : Z) (key : list Z) :
  keyExpansion roundLimit key =
  (result <- for_range 0 (Z.of_nat (List.length key)) (fun i result =>
     let result := if Z.rem i 4 =? 0 then result ++ [[]] else result in
     r <- row_at result (i / 4) ;;
     Ok (set_at [] result (i / 4) (r ++ [num_at key i]))) [] ;;
   for_range (Z.of_nat (List.length key) / 4) (4 * roundLimit)
     (expandStep (Z.of_nat (List.length key) / 4)) result).
Proof. reflexivity. Qed.

Lemma set_at_end {A : Type} (hole : A) (l : list A) (i : Z) (v : A) :
  Z.of_nat (List.length l) = i -> set_at hole l i v = l ++ [v].
Proof.
  intros <-. unfold set_at. rewrite Nat2Z.id, Nat.ltb_irrefl, Nat.sub_diag.
  reflexivity.
Qed.

Lemma Rcon_rows : Forall byte_row Rcon.
Proof.
  unfold Rcon. repeat (constructor; [apply byte_row_intro; unfold is_byte; lia|]).
  constructor.
Qed.

Lemma subWord_rotWord_cells (a b c d : Z) :
  subWord (rotWord [a; b; c; d]) = Ok [subByte b; subByte c; subByte d; subByte a].
Proof. run_cells. Qed.

Lemma subWord_cells (a b c d : Z) :
  subWord [a; b; c; d] = Ok [subByte a; subByte b; subByte c; subByte d].
Proof. run_cells. Qed.

Lemma xorRcon_cells (a b c d r0 r1 r2 r3 : Z) :
  for_range 0 4 (fun j tmp =>
    Ok (set_at 0 tmp j (JS.xor (num_at tmp j) (num_at [r0; r1; r2; r3] j)))) [a; b; c; d]
  = Ok [JS.xor a r0; JS.xor b r1; JS.xor c r2; JS.xor d r3].
Proof. run_cells. Qed.

Lemma xorWord_cells (p0 p1 p2 p3 t0 t1 t2 t3 : Z) :
  for_range 0 4 (fun j word =>
    Ok (set_at 0 word j (JS.xor (num_at [p0; p1; p2; p3] j) (num_at [t0; t1; t2; t3] j)))) []
  = Ok [JS.xor p0 t0; JS.xor p1 t1; JS.xor p2 t2; JS.xor p3 t3].
Proof. run_cells. Qed.

Lemma expandStep_ok (nK i : Z) (words : list (list Z)) :
  0 < nK <= i -> i / nK <= 10 ->
  schedule_ok words i ->
  exists words', expandStep nK i words = Ok words' /\ schedule_ok words' (i + 1).
Proof.
  intros HnK Hrc [Hlen Hrows]. unfold expandStep.
  destruct (row_at_Forall _ words (i - 1) Hrows ltac:(lia)) as (tmp & -> & Btmp).
  destruct (row_at_Forall _ words (i - nK) Hrows ltac:(lia)) as (prev & Eprev & Bprev).
  destruct (byte_row_inv _ Btmp) as (a & b & c & d & -> & Ha & Hb & Hc & Hd).
  destruct (byte_row_inv _ Bprev) as (p0 & p1 & p2 & p3 & -> & ? & ? & ? & ?).
  cbn [bind].
  assert (Htmp : exists t0 t1 t2 t3,
    (if Z.rem i nK =? 0 then
       tmp <- subWord (rotWord [a; b; c; d]) ;;
       rc <- row_at Rcon (i / nK) ;;
       for_range 0 4 (fun j tmp =>
         Ok (set_at 0 tmp j (JS.xor (num_at tmp j) (num_at rc j)))) tmp
     else if (6 <? nK) && (Z.rem i nK =? 4) then subWord [a; b; c; d]
     else Ok [a; b; c; d]) = Ok [t0; t1; t2; t3]
    /\ is_byte t0 /\ is_byte t1 /\ is_byte t2 /\ is_byte t3).
  { destruct (Z.rem i nK =? 0).
    - rewrite subWord_rotWord_cells. cbn [bind].
      assert (0 <= i / nK) by (apply Z.div_pos; lia).
      destruct (row_at_Forall _ Rcon (i / nK) Rcon_rows ltac:(simpl; lia))
        as (rc & -> & Brc).
      destruct (byte_row_inv _ Brc) as (r0 & r1 & r2 & r3 & -> & ? & ? & ? & ?).
      cbn [bind]. rewrite xorRcon_cells.
      do 4 eexists. split; [reflexivity|]. split; [|split; [|split]]; bytes2.
    - destruct ((6 <? nK) && (Z.rem i nK =? 4)).
      + rewrite subWord_cells. do 4 eexists. split; [reflexivity|]. split; [|split; [|split]]; bytes2.
      + do 4 eexists. split; [reflexivity|]. split; [|split; [|split]]; bytes2. }
  destruct Htmp as (t0 & t1 & t2 & t3 & -> & ? & ? & ? & ?).
  cbn [bind]. rewrite Eprev. cbn [bind]. rewrite xorWord_cells. cbn [bind].
  eexists. split; [reflexivity|].
  rewrite (set_at_end _ _ _ _ Hlen). split.
  - rewrite length_app, Nat2Z.inj_add, Hlen. reflexivity.
  - apply Forall_app. split; [assumption|].
    constructor; [|constructor]. bytes2.
Qed.

Ltac explode_list key Hlen :=
  repeat (destruct key as [|? key]; [discriminate Hlen|]);
  destruct key; [|discriminate Hlen].

Ltac explode_Forall :=
  repeat match goal with
         | H : Forall _ (_ :: _) |- _ => inversion H; subst; clear H
         | H : Forall _ [] |- _ => clear H
         end.

Lemma keyExpansion_ok (roundLimit : Z) (key : list Z) :
  (List.length key = 16%nat /\ roundLimit = 11) \/
  (List.length key = 24%nat /\ roundLimit = 13) \/
  (List.length key = 32%nat /\ roundLimit = 15) ->
  Forall is_byte key ->
  exists w, keyExpansion roundLimit key = Ok w /\ schedule_ok w (4 * roundLimit).
Proof.
  intros Hcase Hkey. rewrite keyExpansion_unfold.
  destruct Hcase as [[Hlen ->]|[[Hlen ->]|[Hlen ->]]]; rewrite Hlen;
    explode_list key Hlen; explode_Forall.
  - match goal with
    | |- context [bind ?first _] =>
        let v := eval cbv in first in change first with v
    end.
    cbn [bind]. change (Z.of_nat 16 / 4) with 4. unfold for_range.
    match goal with
    | |- context [for_up ?n 4 ?body ?s] =>
        destruct (for_up_invariant (fun i r => schedule_ok r i) body n 4 s) as (w & Ew & Hw)
    end.
    + split; [reflexivity|]. repeat (constructor; [bytes2|]). constructor.
    + intros k t Hk Ht. rewrite Z2Nat.id in Hk by lia.
      apply expandStep_ok; [lia| |exact Ht].
      match goal with
      | |- k / ?nK <= 10 =>
          assert (k / nK < 11) by (apply Z.div_lt_upper_bound; lia); lia
      end.
    + exists w. split; [exact Ew|exact Hw].
  - match goal with
    | |- context [bind ?first _] =>
        let v := eval cbv in first in change first with v
    end.
    cbn [bind]. change (Z.of_nat 24 / 4) with 6. unfold for_range.
    match goal with
    | |- context [for_up ?n 6 ?body ?s] =>
        destruct (for_up_invariant (fun i r => schedule_ok r i) body n 6 s) as (w & Ew & Hw)
    end.
    + split; [reflexivity|]. repeat (constructor; [bytes2|]). constructor.
    + intros k t Hk Ht. rewrite Z2Nat.id in Hk by lia.
      apply expandStep_ok; [lia| |exact Ht].
      match goal with
      | |- k / ?nK <= 10 =>
          assert (k / nK < 11) by (apply Z.div_lt_upper_bound; lia); lia
      end.
    + exists w. split; [exact Ew|exact Hw].
  - match goal with
    | |- context [bind ?first _] =>
        let v := eval cbv in first in change first with v
    end.
    cbn [bind]. change (Z.of_nat 32 / 4) with 8. unfold for_range.
    match goal with
    | |- context [for_up ?n 8 ?body ?s] =>
        destruct (for_up_invariant (fun i r => schedule_ok r i) body n 8 s) as (w & Ew & Hw)
    end.
    + split; [reflexivity|]. repeat (constructor; [bytes2|]). constructor.
    + intros k t Hk Ht. rewrite Z2Nat.id in Hk by lia.
      apply expandStep_ok; [lia| |exact Ht].
      match goal with
      | |- k / ?nK <= 10 =>
          assert (k / nK < 11) by (apply Z.div_lt_upper_bound; lia); lia
      end.
    + exists w. split; [exact Ew|exact Hw].
Qed.

(** *** Blocks *)

Lemma loadState_cells (i0 i1 i2 i3 i4 i5 i6 i7 i8 i9 i10 i11 i12 i13 i14 i15 : Z) :
  loadState [i0; i1; i2; i3; i4; i5; i6; i7; i8; i9; i10; i11; i12; i13; i14; i15]
  = Ok [[i0; i4; i8; i12]; [i1; i5; i9; i13]; [i2; i6; i10; i14]; [i3; i7; i11; i15]].
Proof. run_cells. Qed.

Lemma storeState_cells (a0 a1 a2 a3 b0 b1 b2 b3 c0 c1 c2 c3 d0 d1 d2 d3 : Z) :
  storeState [[a0; a1; a2; a3]; [b0; b1; b2; b3]; [c0; c1; c2; c3]; [d0; d1; d2; d3]]
  = Ok [a0; b0; c0; d0; a1; b1; c1; d1; a2; b2; c2; d2; a3; b3; c3; d3].
Proof. run_cells. Qed.

Lemma encrypt_unfold (input key : list Z) :
  encrypt input key =
  (roundLimit <- roundLimitOf key ;;
   w <- keyExpansion roundLimit key ;;
   state <- loadState input ;;
   state <- addRoundKey state w 0 ;;
   state <- for_range 1 roundLimit (encRound roundLimit w) state ;;
   storeState state).
Proof. reflexivity. Qed.

Lemma decrypt_unfold (input key : list Z) :
  decrypt input key =
  (roundLimit <- roundLimitOf key ;;
   w <- keyExpansion roundLimit key ;;
   state <- loadState input ;;
   state <- addRoundKey state w ((roundLimit - 1) * 4) ;;
   state <- for_range_down (roundLimit - 2) 0 (decRound w) state ;;
   storeState state).
Proof. reflexivity. Qed.

Lemma roundLimitOf_cases (key : list Z) :
  List.length key = 16%nat \/ List.length key = 24%nat \/ List.length key = 32%nat ->
  exists R, roundLimitOf key = Ok R /\ 2 <= R /\
    ((List.length key = 16%nat /\ R = 11) \/
     (List.length key = 24%nat /\ R = 13) \/
     (List.length key = 32%nat /\ R = 15)).
Proof.
  unfold roundLimitOf.
  intros [H|[H|H]]; rewrite H; eexists; (split; [reflexivity|]); (split; [lia|]); auto.
Qed.

Theorem decrypt_encrypt_block (block key : list Z) :
  List.length key = 16%nat \/ List.length key = 24%nat \/ List.length key = 32%nat ->
  List.length block = 16%nat ->
  Forall is_byte key -> Forall is_byte block ->
  exists c, encrypt block key = Ok c /\ decrypt c key = Ok block.
Proof.
  intros Hklen Hblen Hkey Hblock.
  destruct (roundLimitOf_cases key Hklen) as (R & ER & HR & Hcase).
  destruct (keyExpansion_ok R key Hcase Hkey) as (w & Ew & Hw).
  explode_list block Hblen. explode_Forall.
  match goal with
  | |- context [encrypt ?b key] =>
      pose proof (loadState_cells) as L; 
      destruct (rounds_roundtrip R w Hw
                  [[nth 0 b 0; nth 4 b 0; nth 8 b 0; nth 12 b 0];
                   [nth 1 b 0; nth 5 b 0; nth 9 b 0; nth 13 b 0];
                   [nth 2 b 0; nth 6 b 0; nth 10 b 0; nth 14 b 0];
                   [nth 3 b 0; nth 7 b 0; nth 11 b 0; nth 15 b 0]] HR)
        as (s & out & E0 & E1 & Bout & E2)
  end.
  { cbn [nth]. bytes2. }
  cbn [nth] in E0, E2.
  explode_state Bout.
  eexists. split.
  - rewrite encrypt_unfold, ER. cbn [bind]. rewrite Ew. cbn [bind].
    rewrite loadState_cells. cbn [bind]. rewrite E0. cbn [bind]. rewrite E1. cbn [bind].
    apply storeState_cells.
  - rewrite decrypt_unfold, ER. cbn [bind]. rewrite Ew. cbn [bind].
    rewrite loadState_cells. cbn [bind].
    destruct (addRoundKey _ w ((R - 1) * 4)) as [t| |]; cbn [bind] in E2 |- *;
      try discriminate.
    rewrite E2. cbn [bind]. apply storeState_cells.
Qed.

End AESProofs.

(** * Properties of the DTLS client *)

(** Reading a field of an updated client. *)
Ltac fields :=
  cbn [timers _handshakeInProgress _encrypted _connection _handshakeMessages
       _clientRandom _serverRandom _masterSecret _keyBlock _clientWriteKey
       _serverWriteKey _clientIV _serverIV _helloClientPacket streamSeq
       _readyToSend _psk _pskIdentity now nextSourceId
       sources pendingWrites outputCancelled inputCancelled socketClosed
       reading randomDraws sent emitted
       set_timers set__handshakeInProgress set__encrypted set__connection
       set__handshakeMessages set__clientRandom set__serverRandom set__masterSecret
       set__keyBlock set__clientWriteKey set__serverWriteKey set__clientIV
       set__serverIV set__helloClientPacket set_streamSeq set__readyToSend
       set__psk set__pskIdentity set_now set_nextSourceId
       set_sources set_pendingWrites set_outputCancelled set_inputCancelled
       set_socketClosed set_reading set_randomDraws set_sent
       set_emitted
       cType hType epoch headerSeq sessionId cookie handshakeSeq random
       with_cType with_hType with_epoch with_headerSeq with_sessionId with_cookie with_handshakeSeq with_random
       fst snd negb].

Ltac fields_in H :=
  cbn [timers _handshakeInProgress _encrypted _connection _handshakeMessages
       _clientRandom _serverRandom _masterSecret _keyBlock _clientWriteKey
       _serverWriteKey _clientIV _serverIV _helloClientPacket streamSeq
       _readyToSend _psk _pskIdentity now nextSourceId
       sources pendingWrites outputCancelled inputCancelled socketClosed
       reading randomDraws sent emitted
       set_timers set__handshakeInProgress set__encrypted set__connection
       set__handshakeMessages set__clientRandom set__serverRandom set__masterSecret
       set__keyBlock set__clientWriteKey set__serverWriteKey set__clientIV
       set__serverIV set__helloClientPacket set_streamSeq set__readyToSend
       set__psk set__pskIdentity set_now set_nextSourceId
       set_sources set_pendingWrites set_outputCancelled set_inputCancelled
       set_socketClosed set_reading set_randomDraws set_sent
       set_emitted
       cType hType epoch headerSeq sessionId cookie handshakeSeq random
       with_cType with_hType with_epoch with_headerSeq with_sessionId with_cookie with_handshakeSeq with_random
       fst snd negb] in H.


(** ** The record codec *)

Lemma byteAt_high (v k : Z) : 0 <= v < 2 ^ 31 -> 32 <= k -> byteAt v k = 0.
Proof.
  intros Hv Hk. unfold byteAt.
  rewrite Z.div_small; [reflexivity|].
  split; [lia|]. apply Z.lt_le_trans with (2 ^ 31); [lia|].
  apply Z.pow_le_mono_r; lia.
Qed.

Ltac be_cells :=
  cbn [be app]; unfold byteAt;
  change (2 ^ 0) with 1; change (2 ^ 8) with 256;
  change (2 ^ 16) with (256 * 256); change (2 ^ 24) with (256 * 256 * 256);
  change (2 ^ 32) with (256 * 256 * 256 * 256);
  change (2 ^ 40) with (256 * 256 * 256 * 256 * 256);
  rewrite <- ?Z.div_div by lia; rewrite ?Z.div_1_r; reflexivity.

Lemma be_1 (v : Z) : be 1 v = [byteAt v 0].
Proof. be_cells. Qed.

Lemma be_2 (v : Z) : be 2 v = [byteAt v 8; byteAt v 0].
Proof. be_cells. Qed.

Lemma be_3 (v : Z) : be 3 v = [byteAt v 16; byteAt v 8; byteAt v 0].
Proof. be_cells. Qed.

Lemma be_4 (v : Z) : be 4 v = [byteAt v 24; byteAt v 16; byteAt v 8; byteAt v 0].
Proof. be_cells. Qed.

Lemma be_6 (v : Z) :
  be 6 v = [byteAt v 40; byteAt v 32; byteAt v 24; byteAt v 16; byteAt v 8; byteAt v 0].
Proof. be_cells. Qed.

(** On numbers below [2^31], [uintToArray] is the big-endian encoding on the
    requested number of bytes. *)
Lemma uintToArray_be (v : Z) :
  0 <= v < 2 ^ 31 ->
  uintToArray v 8 = be 1 v /\ uintToArray v 16 = be 2 v /\
  uintToArray v 24 = be 3 v /\ uintToArray v 32 = be 4 v /\
  uintToArray v 48 = be 6 v.
Proof.
  intros Hv.
  rewrite uintToArray_8, uintToArray_16, uintToArray_24, uintToArray_32,
    uintToArray_48 by assumption.
  rewrite be_1, be_2, be_3, be_4, be_6.
  rewrite (byteAt_high v 40), (byteAt_high v 32) by lia.
  auto.
Qed.

Lemma createRecordHeader_layout (packet : OutPacket) (length n : Z) :
  headerSeq packet = Num n ->
  0 <= cType packet < 2 ^ 31 -> 0 <= epoch packet < 2 ^ 31 ->
  0 <= n < 2 ^ 31 -> 0 <= length < 2 ^ 31 ->
  _createRecordHeader packet length
  = nums (be 1 (cType packet) ++ be 2 0xfefd ++ be 2 (epoch packet)
          ++ be 6 n ++ be 2 length).
Proof.
  intros Hseq Hc He Hn Hl. unfold _createRecordHeader, uintToArrayV, nums.
  rewrite Hseq. cbn [toInt app].
  destruct (uintToArray_be (cType packet) Hc) as (-> & _).
  destruct (uintToArray_be (epoch packet) He) as (_ & -> & _).
  destruct (uintToArray_be n Hn) as (_ & _ & _ & _ & ->).
  destruct (uintToArray_be length Hl) as (_ & -> & _).
  destruct (uintToArray_be _protocolVersion ltac:(unfold _protocolVersion; lia))
    as (_ & -> & _).
  rewrite !map_app, <- !app_assoc. reflexivity.
Qed.

Lemma be_length (k : nat) (v : Z) : List.length (be k v) = k.
Proof.
  revert v. induction k as [|k IH]; intros v; [reflexivity|].
  cbn [be]. rewrite length_app, IH. simpl. lia.
Qed.

Lemma createRecordHeader_length (packet : OutPacket) (length : Z) :
  List.length (_createRecordHeader packet length) = 13%nat.
Proof. reflexivity. Qed.

(** ** The data channel *)

Section DataChannel.

Variable ext : Externals.


Lemma sendEncrypted_encrypted (cleartext : jsarray) (s : Client) (n : Z) (iv : jsarray) :
  _encrypted s = true -> streamSeq s = Num n -> n < 2 ^ 53 ->
  _clientIV s = Some iv -> _connection s = true ->
  exists body s',
    sendEncrypted ext cleartext s = (Ok true, s') /\
    streamSeq s' = Num (n + 1) /\
    _encrypted s' = true /\ _clientIV s' = Some iv /\ _connection s' = true /\
    outputCancelled s' = outputCancelled s /\ now s' = now s /\
    emitted s' = emitted s /\
    sent s' = (if outputCancelled s then sent s
               else sent s ++ [(now s, _createRecordHeader (dataPacket (n + 1)) (len body)
                                       ++ body)]).
Proof.
  intros He Hs Hn Hiv Hc.
  unfold sendEncrypted, mbind, modify, gets, ret. fields.
  rewrite He. fields. rewrite Hs. cbn [js_incr].
  replace (n <? 2 ^ 53) with true by (symmetry; apply Z.ltb_lt; exact Hn).
  unfold _encryptMsg, need, mbind, gets, ret. fields. rewrite Hiv.
  unfold write_all_async, mbind, gets, modify, ret. fields. rewrite Hc. fields.
  destruct (outputCancelled s) eqn:Hcan.
  - exists []. eexists. split; [reflexivity|]. fields. auto 10.
  - eexists. eexists. split; [reflexivity|]. fields. auto 10.
Qed.

End DataChannel.

(** ** What a call leaves unchanged *)

Section Keeps.

Context {B : Type} (f : Client -> B).

Lemma keeps_ret {A : Type} (a : A) : keeps f (ret a).
Proof. intros s. reflexivity. Qed.

Lemma keeps_throw {A : Type} (e : string) : keeps f (@throw A e).
Proof. intros s. reflexivity. Qed.

Lemma keeps_gets {A : Type} (g : Client -> A) : keeps f (gets g).
Proof. intros s. reflexivity. Qed.

Lemma keeps_lift {A : Type} (r : result A) : keeps f (lift r).
Proof. intros s. reflexivity. Qed.

Lemma keeps_need {A : Type} (g : Client -> option A) : keeps f (need g).
Proof. intros s. unfold need. destruct (g s); reflexivity. Qed.

Lemma keeps_modify (g : Client -> Client) :
  (forall s, f (g s) = f s) -> keeps f (modify g).
Proof. intros H s. apply H. Qed.

Lemma keeps_bind {A C : Type} (m : M A) (k : A -> M C) :
  keeps f m -> (forall a, keeps f (k a)) -> keeps f (mbind m k).
Proof.
  intros Hm Hk s. unfold mbind. specialize (Hm s).
  destruct (m s) as [[a| |] s1]; cbn [snd] in *; try assumption.
  rewrite Hk. assumption.
Qed.

Lemma keeps_catch {A : Type} (m : M A) : keeps f m -> keeps f (catch m).
Proof. intros H s. apply H. Qed.

Lemma keeps_repeatM {A : Type} (n : nat) (body : A -> M A) :
  (forall a, keeps f (body a)) -> forall a, keeps f (repeatM n body a).
Proof.
  intros H. induction n as [|n IH]; intros a; cbn [repeatM].
  - apply keeps_ret.
  - apply keeps_bind; [apply H|apply IH].
Qed.

End Keeps.

Ltac keeps_step :=
  match goal with
  | |- keeps _ (mbind _ _) => apply keeps_bind; [|intros]
  | |- keeps _ (ret _) => apply keeps_ret
  | |- keeps _ (throw _) => apply keeps_throw
  | |- keeps _ (gets _) => apply keeps_gets
  | |- keeps _ (need _) => apply keeps_need
  | |- keeps _ (lift _) => apply keeps_lift
  | |- keeps _ (modify _) => apply keeps_modify; intros; reflexivity
  | |- keeps _ (catch _) => apply keeps_catch
  | |- keeps _ (repeatM _ _ _) => apply keeps_repeatM; intros
  | |- keeps _ (if ?b then _ else _) => destruct b
  | |- keeps _ (match ?x with _ => _ end) => destruct x
  | |- keeps _ _ => progress cbv zeta
  | |- keeps _ _ => solve [auto with keeps]
  end.

Ltac keeps_auto := repeat keeps_step.

Create HintDb keeps.

Section KeepsEmitted.

Variable ext : Externals.

Lemma keeps_emitted_getRandomInt (max : Z) : keeps emitted (getRandomInt ext max).
Proof. intros s. reflexivity. Qed.
#[local] Hint Resolve keeps_emitted_getRandomInt : keeps.

Lemma keeps_emitted_helloBody (p : OutPacket) :
  keeps emitted (_createHandshakeClientHelloBody ext p).
Proof. unfold _createHandshakeClientHelloBody. keeps_auto. Qed.
#[local] Hint Resolve keeps_emitted_helloBody : keeps.

Lemma keeps_emitted_kexBody (p : OutPacket) :
  keeps emitted (_createHandshakeClientKeyExchangeBody p).
Proof. unfold _createHandshakeClientKeyExchangeBody. keeps_auto. Qed.
#[local] Hint Resolve keeps_emitted_kexBody : keeps.

Lemma keeps_emitted_finishedBody (p : OutPacket) :
  keeps emitted (_createHandshakeFinishedBody ext p).
Proof. unfold _createHandshakeFinishedBody. keeps_auto. Qed.
#[local] Hint Resolve keeps_emitted_finishedBody : keeps.

Lemma keeps_emitted_encryptMsg (p : OutPacket) (msg : jsarray) :
  keeps emitted (_encryptMsg ext p msg).
Proof. unfold _encryptMsg. keeps_auto. Qed.
#[local] Hint Resolve keeps_emitted_encryptMsg : keeps.

Lemma keeps_emitted_decryptMsg (c : Z) (msg : jsarray) :
  keeps emitted (_decryptMsg ext c msg).
Proof. unfold _decryptMsg. keeps_auto. Qed.
#[local] Hint Resolve keeps_emitted_decryptMsg : keeps.

Lemma keeps_emitted_createHandshake (p : OutPacket) :
  keeps emitted (_createHandshake ext p).
Proof. unfold _createHandshake. keeps_auto. Qed.
#[local] Hint Resolve keeps_emitted_createHandshake : keeps.

Lemma keeps_emitted_createPacket (p : OutPacket) :
  keeps emitted (_createPacket ext p).
Proof. unfold _createPacket. keeps_auto. Qed.
#[local] Hint Resolve keeps_emitted_createPacket : keeps.

Lemma keeps_emitted_write (msg : jsarray) (cb : Callback) :
  keeps emitted (write_all_async msg cb).
Proof. unfold write_all_async. keeps_auto. Qed.
#[local] Hint Resolve keeps_emitted_write : keeps.

Lemma keeps_emitted_sendMsg (msg : jsarray) (cb : Callback) :
  keeps emitted (_sendMsg msg cb).
Proof. unfold _sendMsg. auto with keeps. Qed.
#[local] Hint Resolve keeps_emitted_sendMsg : keeps.

Lemma keeps_emitted_sendKeyExchange : keeps emitted (_sendKeyExchange ext).
Proof. unfold _sendKeyExchange. keeps_auto. Qed.
#[local] Hint Resolve keeps_emitted_sendKeyExchange : keeps.

Lemma keeps_emitted_readHandshakePacket (msg : jsarray) (t : Z) :
  keeps emitted (_readHandshakePacket msg t).
Proof. unfold _readHandshakePacket. keeps_auto. Qed.
#[local] Hint Resolve keeps_emitted_readHandshakePacket : keeps.

Lemma keeps_emitted_readPacket (msg : jsarray) :
  keeps emitted (_readPacket ext msg).
Proof. unfold _readPacket. keeps_auto. Qed.
#[local] Hint Resolve keeps_emitted_readPacket : keeps.

End KeepsEmitted.

(** ** The "connected" signal *)

Section Connected.

Variable ext : Externals.

Local Open Scope M_scope.

Lemma keeps_emitted_recordPlain (msg : jsarray) : keeps emitted (recordPlain ext msg).
Proof. unfold recordPlain. keeps_auto. apply keeps_emitted_decryptMsg. Qed.

Lemma handleResponse_handshake_emits (packet : InPacket) (t : Z) (s : Client) :
  in_cType packet = contentType.HANDSHAKE -> in_hType packet = Some t ->
  emitted (snd (_handleResponse ext packet s))
  = emitted s ++ (if t =? handshakeType.FINISHED then ["connected"%string] else []).
Proof.
  intros Hc Ht. unfold _handleResponse, _handleResponseHandshake.
  rewrite Hc, Ht. cbn [Z.eqb contentType.HANDSHAKE Pos.eqb].
  destruct (t =? handshakeType.SERVER_HELLO) eqn:E2.
  { apply Z.eqb_eq in E2. subst t. cbn. rewrite app_nil_r. reflexivity. }
  destruct (t =? handshakeType.SERVER_HELLO_DONE) eqn:E14.
  { apply Z.eqb_eq in E14. subst t. cbn [Z.eqb handshakeType.FINISHED
      handshakeType.SERVER_HELLO_DONE Pos.eqb].
    rewrite app_nil_r. apply keeps_emitted_sendKeyExchange. }
  destruct (t =? handshakeType.HELLO_VERIFY_REQUEST) eqn:E3.
  { apply Z.eqb_eq in E3. subst t. cbn [Z.eqb handshakeType.FINISHED
      handshakeType.HELLO_VERIFY_REQUEST Pos.eqb].
    rewrite app_nil_r.
    assert (K : keeps emitted
      (responsePacket <- need _helloClientPacket ;;
       match in_sub packet with
       | SubHelloVerify _ _ c =>
           modify (set__helloClientPacket
                     (Some (with_cookie (Some c)
                              (with_handshakeSeq 1 (with_headerSeq (Num 1) responsePacket))))) ;;;
           mp <- _createPacket ext
                   (with_cookie (Some c)
                      (with_handshakeSeq 1 (with_headerSeq (Num 1) responsePacket))) ;;
           modify (set__helloClientPacket (Some (snd mp))) ;;;
           _sendMsg (fst mp) CbNone
       | _ =>
           modify (set__helloClientPacket
                     (Some (with_handshakeSeq 1 (with_headerSeq (Num 1) responsePacket)))) ;;;
           throw "TypeError"
       end)).
    { keeps_auto; try apply keeps_emitted_createPacket; try apply keeps_emitted_sendMsg. }
    apply K. }
  destruct (t =? handshakeType.FINISHED) eqn:E20.
  { reflexivity. }
  cbn. rewrite app_nil_r. reflexivity.
Qed.

Lemma handleResponse_other_emits (packet : InPacket) (s : Client) :
  in_cType packet <> contentType.HANDSHAKE ->
  emitted (snd (_handleResponse ext packet s)) = emitted s \/
  emitted (snd (_handleResponse ext packet s)) = emitted s ++ ["disconnected"%string].
Proof.
  intros Hc. unfold _handleResponse.
  replace (in_cType packet =? contentType.HANDSHAKE) with false
    by (symmetry; apply Z.eqb_neq; exact Hc).
  destruct (in_cType packet =? contentType.CHANGE_CIPHER_SPEC); [left; reflexivity|].
  destruct (in_cType packet =? contentType.ALERT); [|left; reflexivity].
  unfold closeBridge, clearTimers, mbind, modify, gets, cancelOutput, emit, ret.
  fields. destruct (_connection s); [right|left]; reflexivity.
Qed.

(** What [_readPacket] returns. *)
Lemma readPacket_other (msg : jsarray) (s : Client) :
  recordType msg <> contentType.HANDSHAKE ->
  exists packet rest,
    _readPacket ext msg s = (Ok (packet, rest), s) /\ in_cType packet = recordType msg.
Proof.
  intros H. unfold _readPacket. fold (recordType msg).
  replace (recordType msg =? contentType.HANDSHAKE) with false
    by (symmetry; apply Z.eqb_neq; exact H).
  eexists. eexists. split; reflexivity.
Qed.

Lemma mbind_assoc {A B C : Type} (m : M A) (k : A -> M B) (h : B -> M C) (s : Client) :
  mbind (mbind m k) h s = mbind m (fun a => mbind (k a) h) s.
Proof.
  unfold mbind. destruct (m s) as [[a| |] s1]; reflexivity.
Qed.

Lemma readPacket_handshake_eq (msg : jsarray) (s : Client) :
  recordType msg = contentType.HANDSHAKE ->
  _readPacket ext msg s = mbind (recordPlain ext msg) (readHandshake msg) s.
Proof.
  intros H. unfold _readPacket, recordPlain. fold (recordType msg).
  rewrite (proj2 (Z.eqb_eq _ _) H).
  rewrite mbind_assoc. reflexivity.
Qed.

Lemma readHandshake_ok (msg plain : jsarray) (s : Client) :
  recordType msg = contentType.HANDSHAKE ->
  exists packet rest s1,
    readHandshake msg plain s = (Ok (packet, rest), s1) /\
    in_cType packet = contentType.HANDSHAKE /\
    in_hType packet = Some (messageType plain) /\
    emitted s1 = emitted s.
Proof.
  intros H. unfold readHandshake. fold (recordType msg). rewrite H.
  unfold mbind, gets, modify, ret, _readHandshakePacket. fold (messageType plain).
  destruct (_handshakeInProgress s);
    destruct (messageType plain =? handshakeType.HELLO_VERIFY_REQUEST);
    try destruct (messageType plain =? handshakeType.SERVER_HELLO);
    do 3 eexists; (split; [reflexivity|]); fields; auto.
Qed.

Lemma readPacket_handshake (msg : jsarray) (s : Client) :
  recordType msg = contentType.HANDSHAKE ->
  match recordPlain ext msg s with
  | (Ok plain, _) =>
      exists packet rest s1,
        _readPacket ext msg s = (Ok (packet, rest), s1) /\
        in_cType packet = contentType.HANDSHAKE /\
        in_hType packet = Some (messageType plain) /\
        emitted s1 = emitted s
  | (Throw e, _) =>
      exists s1, _readPacket ext msg s = (Throw e, s1) /\ emitted s1 = emitted s
  | (OutOfFuel, _) =>
      exists s1, _readPacket ext msg s = (OutOfFuel, s1) /\ emitted s1 = emitted s
  end.
Proof.
  intros H. rewrite (readPacket_handshake_eq msg s H).
  pose proof (keeps_emitted_recordPlain msg s) as K.
  destruct (recordPlain ext msg s) as [[plain|e|] s0] eqn:D; cbn [snd] in K;
    unfold mbind at 1; rewrite D.
  - destruct (readHandshake_ok msg plain s0 H) as (packet & rest & s1 & E & Hc & Ht & He).
    exists packet, rest, s1. rewrite He, K.
    split; [exact E|]. split; [exact Hc|]. split; [exact Ht|reflexivity].
  - exists s0. auto.
  - exists s0. auto.
Qed.

(** Each record of incoming data makes the client emit "connected" once when
    it is a handshake record whose message, opened when protected records are
    expected, has type Finished, and not at all otherwise. *)
Lemma handleRecord_emits (msg : jsarray) (s : Client) :
  exists l,
    emitted (snd (handleRecord ext msg s)) = emitted s ++ l /\
    (l = [] \/ l = ["disconnected"%string] \/ l = ["connected"%string]) /\
    (l = ["connected"%string] <->
     recordType msg = contentType.HANDSHAKE /\
     exists plain, fst (recordPlain ext msg s) = Ok plain /\
                   messageType plain = handshakeType.FINISHED).
Proof.
  unfold handleRecord.
  destruct (Z.eq_dec (recordType msg) contentType.HANDSHAKE) as [H|H].
  - pose proof (readPacket_handshake msg s H) as R.
    destruct (recordPlain ext msg s) as [[plain|e|] s0]; cbn [fst].
    + destruct R as (packet & rest & s1 & E & Hc & Ht & He).
      unfold mbind at 1. rewrite E. cbn [fst snd].
      pose proof (handleResponse_handshake_emits packet _ s1 Hc Ht) as Em.
      unfold mbind.
      destruct (_handleResponse ext packet s1) as [[[]| |] s2]; unfold ret; cbn [snd] in *;
        rewrite Em, He;
        (destruct (messageType plain =? handshakeType.FINISHED) eqn:E20;
         [exists ["connected"%string]|exists []]);
        (split; [reflexivity|]); (split; [auto|]);
        (split; [intros L; try discriminate L|intros [_ (p & Hp & Hm)]]);
        try (split; [exact H|exists plain; split;
                              [reflexivity|apply Z.eqb_eq; exact E20]]);
        try reflexivity;
        try (injection Hp as <-; apply Z.eqb_eq in Hm; congruence).
    + destruct R as (s1 & E & He). unfold mbind at 1. rewrite E. cbn [snd].
      exists []. rewrite app_nil_r. split; [exact He|]. split; [auto|].
      split; [discriminate|]. intros [_ (p & Hp & _)]. discriminate Hp.
    + destruct R as (s1 & E & He). unfold mbind at 1. rewrite E. cbn [snd].
      exists []. rewrite app_nil_r. split; [exact He|]. split; [auto|].
      split; [discriminate|]. intros [_ (p & Hp & _)]. discriminate Hp.
  - destruct (readPacket_other msg s H) as (packet & rest & E & Hc).
    unfold mbind at 1. rewrite E. cbn [fst snd].
    assert (Hc' : in_cType packet <> contentType.HANDSHAKE) by congruence.
    pose proof (handleResponse_other_emits packet s Hc') as Em.
    unfold mbind.
    destruct (_handleResponse ext packet s) as [[[]| |] s2]; unfold ret; cbn [snd] in *;
      (destruct Em as [Em|Em]; rewrite Em;
       [exists []; rewrite app_nil_r|exists ["disconnected"%string]]);
      (split; [reflexivity|]); (split; [auto|]);
      (split; [discriminate|intros [Hx _]; contradiction]).
Qed.

End Connected.

(** ** Reading what the peer sends *)

Lemma popNextN_app (a : list Z) (m : jsarray) :
  popNextN (nums a ++ m) (List.length a) = (nums a, m).
Proof.
  induction a as [|x a IH]; [reflexivity|].
  cbn [nums map app List.length popNextN]. fold (nums a). rewrite IH. reflexivity.
Qed.

Lemma map_toInt_nums (a : list Z) : map toInt (nums a) = a.
Proof.
  unfold nums. rewrite map_map. cbn [toInt]. apply map_id.
Qed.

Lemma arrayToUintV_nums (a : list Z) : arrayToUintV (nums a) = arrayToUint a.
Proof. unfold arrayToUintV. rewrite map_toInt_nums. reflexivity. Qed.

(** Decoding a big-endian field. *)
Lemma arrayToUint_be (v : Z) :
  0 <= v < 2 ^ 31 ->
  arrayToUint (be 1 v) = v mod 2 ^ 8 /\
  arrayToUint (be 2 v) = v mod 2 ^ 16 /\
  arrayToUint (be 3 v) = v mod 2 ^ 24 /\
  arrayToUint (be 6 v) = v.
Proof.
  intros Hv.
  destruct (uintToArray_be v Hv) as (E1 & E2 & E3 & _ & E6).
  rewrite <- E1, <- E2, <- E3, <- E6.
  rewrite !arrayToUint_uintToArray by (try assumption; simpl; auto 10).
  repeat split. apply Z.mod_small.
  split; [lia|]. apply Z.lt_le_trans with (2 ^ 31); [lia|].
  apply Z.pow_le_mono_r; lia.
Qed.

Lemma arrayToUint_be1 (v : Z) : 0 <= v < 256 -> arrayToUint (be 1 v) = v.
Proof.
  intros H. destruct (arrayToUint_be v ltac:(lia)) as (E & _).
  rewrite E. apply Z.mod_small. lia.
Qed.

Lemma arrayToUint_be2 (v : Z) : 0 <= v < 2 ^ 16 -> arrayToUint (be 2 v) = v.
Proof.
  intros H. destruct (arrayToUint_be v ltac:(lia)) as (_ & E & _).
  rewrite E. apply Z.mod_small. lia.
Qed.

Lemma arrayToUint_be3 (v : Z) : 0 <= v < 2 ^ 24 -> arrayToUint (be 3 v) = v.
Proof.
  intros H. destruct (arrayToUint_be v ltac:(lia)) as (_ & _ & E & _).
  rewrite E. apply Z.mod_small. lia.
Qed.

Lemma arrayToUint_be6 (v : Z) : 0 <= v < 2 ^ 31 -> arrayToUint (be 6 v) = v.
Proof. intros H. apply arrayToUint_be. exact H. Qed.

Lemma slice_all {A : Type} (a : list A) : slice a 0 (Z.of_nat (List.length a)) = a.
Proof.
  unfold slice. cbn [Z.ltb Z.compare].
  destruct (Z.ltb_spec (Z.of_nat (List.length a)) 0); [lia|].
  rewrite Z.min_id, Z.min_l by lia. rewrite Z.sub_0_r, Nat2Z.id.
  cbn [Z.to_nat skipn]. apply firstn_all.
Qed.

Lemma length_nums (a : list Z) : List.length (nums a) = List.length a.
Proof. apply length_map. Qed.

(** Taking a field of [k] bytes off the front of the data. *)
Lemma popNextN_be (k : nat) (v : Z) (m : jsarray) :
  popNextN (nums (be k v) ++ m) k = (nums (be k v), m).
Proof.
  rewrite <- (be_length k v) at 2. apply popNextN_app.
Qed.

Lemma peerRecord_nums (c epoch seq : Z) (body : list Z) (rest : jsarray) :
  nums (peerRecord c epoch seq body) ++ rest
  = nums (be 1 c) ++ nums (be 2 0xfefd) ++ nums (be 2 epoch) ++ nums (be 6 seq)
    ++ nums (be 2 (Z.of_nat (List.length body))) ++ nums body ++ rest.
Proof.
  unfold peerRecord, nums. rewrite !map_app, <- !app_assoc. reflexivity.
Qed.

Lemma peerHandshake_nums (t seq : Z) (body : list Z) :
  nums (peerHandshake t seq body)
  = nums (be 1 t) ++ nums (be 3 (Z.of_nat (List.length body))) ++ nums (be 2 seq)
    ++ nums (be 3 0) ++ nums (be 3 (Z.of_nat (List.length body))) ++ nums body ++ [].
Proof.
  unfold peerHandshake, nums. rewrite !map_app, app_nil_r. reflexivity.
Qed.

Lemma peerHandshake_length (t seq : Z) (body : list Z) :
  List.length (peerHandshake t seq body) = (12 + List.length body)%nat.
Proof.
  unfold peerHandshake. rewrite !length_app, !be_length. lia.
Qed.

Section Reading.

Variable ext : Externals.

Local Open Scope M_scope.

(** Reading a handshake record that the peer sent in the clear gives back
    the fields that the peer put in. *)
Lemma readPacket_peerHandshake (t seq epoch rseq : Z) (body : list Z)
  (rest : jsarray) (s : Client) :
  _encrypted s = false ->
  0 <= t < 256 -> 0 <= seq < 2 ^ 16 -> 0 <= epoch < 2 ^ 16 -> 0 <= rseq < 2 ^ 31 ->
  Z.of_nat (List.length body) < 2 ^ 16 - 12 ->
  _readPacket ext (nums (peerRecord 22 epoch rseq (peerHandshake t seq body)) ++ rest) s
  = (storeIncoming (Num t) (nums (peerHandshake t seq body)) ;;;
     sub <- _readHandshakePacket (nums body) t ;;
     ret (mkInPacket 22 0xfefd epoch rseq (Some t) (Some seq) (Some 0)
            (Some (Z.of_nat (List.length body))) sub, rest)) s.
Proof.
  intros He Ht Hseq Hep Hrseq Hlen.
  assert (Hhs : Z.of_nat (List.length (peerHandshake t seq body)) < 2 ^ 16)
    by (rewrite peerHandshake_length; lia).
  unfold _readPacket. cbv zeta.
  rewrite peerRecord_nums.
  repeat (rewrite popNextN_be; cbn [fst snd]).
  rewrite !arrayToUintV_nums.
  rewrite (arrayToUint_be1 22), (arrayToUint_be2 0xfefd), (arrayToUint_be2 epoch),
    (arrayToUint_be6 rseq), (arrayToUint_be2 (Z.of_nat _)) by lia.
  rewrite Nat2Z.id, popNextN_app. cbn [fst snd].
  change (22 =? contentType.HANDSHAKE) with true. cbv iota.
  unfold mbind at 1. unfold gets at 1. rewrite He.
  unfold mbind at 1. unfold ret at 1.
  rewrite <- (length_nums (peerHandshake t seq body)), slice_all.
  rewrite peerHandshake_nums.
  repeat (rewrite popNextN_be; cbn [fst snd]).
  rewrite !arrayToUintV_nums.
  rewrite (arrayToUint_be1 t), (arrayToUint_be2 seq), (arrayToUint_be3 0),
    !(arrayToUint_be3 (Z.of_nat _)) by lia.
  rewrite Nat2Z.id, popNextN_app. cbn [fst snd].
  replace (nth 0 (nums (be 1 t) ++ _) Undef) with (Num t).
  2:{ cbn [be app nums map nth]. rewrite Z.mod_small by lia. reflexivity. }
  unfold storeIncoming. rewrite mbind_assoc. reflexivity.
Qed.


End Reading.

(** ** The ClientHello *)

Lemma clientHelloBody_length (random cookie : list Z) :
  List.length (clientHelloBody random cookie)
  = (14 + List.length random + List.length cookie)%nat.
Proof.
  unfold clientHelloBody. rewrite !length_app, !be_length. lia.
Qed.

Lemma nums_app (a b : list Z) : nums (a ++ b) = nums a ++ nums b.
Proof. apply map_app. Qed.

Section ClientHello.

Variable ext : Externals.

Local Open Scope M_scope.

Lemma createPacket_clientHello (h q : Z) (r c : list Z) (s : Client) :
  0 <= h < 2 ^ 31 -> 0 <= q < 2 ^ 31 ->
  Z.of_nat (List.length r) + Z.of_nat (List.length c) < 2 ^ 16 ->
  let packet := mkOutPacket contentType.HANDSHAKE (Some handshakeType.CLIENT_HELLO)
                            0 (Num h) 0 (Some (nums c)) q (Some (nums r)) in
  _createPacket ext packet s
  = (Ok (nums (clientHello h q r c), packet),
     set__handshakeMessages
       (hm_set (_handshakeMessages s) (Num handshakeType.CLIENT_HELLO)
               (nums (peerHandshake 1 q (clientHelloBody r c)))) s).
Proof.
  intros Hh Hq Hlen packet.
  assert (Hb : Z.of_nat (List.length (clientHelloBody r c)) < 2 ^ 17)
    by (rewrite clientHelloBody_length; lia).
  assert (Hhs : Z.of_nat (List.length (peerHandshake 1 q (clientHelloBody r c))) < 2 ^ 18)
    by (rewrite peerHandshake_length; lia).
  assert (Ebody :
    ((((((((nums (uintToArray _protocolVersion 16) ++ nums (uintToArray 0 32))
           ++ nums r) ++ nums (uintToArray 0 8))
         ++ nums (uintToArray (len (nums c)) 8)) ++ nums c)
       ++ nums (uintToArray (len (uintToArray _cipherSuites 16)) 16))
      ++ nums (uintToArray _cipherSuites 16)) ++ nums (uintToArray 1 8))
    ++ nums (uintToArray 0 8)
    = nums (clientHelloBody r c)).
  { unfold len. rewrite length_nums.
    destruct (uintToArray_be (Z.of_nat (List.length c)) ltac:(lia)) as (-> & _).
    change (uintToArray _protocolVersion 16) with (be 2 0xfefd).
    change (uintToArray 0 32) with (be 4 0).
    change (uintToArray 0 8) with (be 1 0).
    change (uintToArray _cipherSuites 16) with (be 2 0x00a8).
    change (uintToArray (Z.of_nat (List.length (be 2 168))) 16) with (be 2 2).
    change (uintToArray 1 8) with (be 1 1).
    unfold clientHelloBody. rewrite !nums_app, <- !app_assoc. reflexivity. }
  assert (Ehs :
    (((((nums (uintToArray handshakeType.CLIENT_HELLO 8)
         ++ nums (uintToArray (len (nums (clientHelloBody r c))) 24))
        ++ nums (uintToArray q 16)) ++ nums (uintToArray 0 24))
      ++ nums (uintToArray (len (nums (clientHelloBody r c))) 24))
     ++ nums (clientHelloBody r c))
    = nums (peerHandshake 1 q (clientHelloBody r c))).
  { unfold len. rewrite length_nums.
    destruct (uintToArray_be (Z.of_nat (List.length (clientHelloBody r c)))
                ltac:(lia)) as (_ & _ & -> & _).
    destruct (uintToArray_be q Hq) as (_ & -> & _).
    change (uintToArray handshakeType.CLIENT_HELLO 8) with (be 1 1).
    change (uintToArray 0 24) with (be 3 0).
    unfold peerHandshake. rewrite !nums_app, <- !app_assoc. reflexivity. }
  unfold _createPacket. subst packet. fields.
  change (contentType.HANDSHAKE =? contentType.HANDSHAKE) with true. cbv iota.
  unfold _createHandshake. fields.
  change (handshakeType.CLIENT_HELLO =? handshakeType.CLIENT_HELLO) with true.
  cbn [orb]. cbv iota.
  change (handshakeType.CLIENT_HELLO =? handshakeType.FINISHED) with false. cbv iota.
  unfold _createHandshakeClientHelloBody. fields.
  change (0 =? 0) with true. cbv iota zeta.
  cbn [app concatU].
  unfold mbind, ret, gets, modify. fields.
  change (0 =? 0) with true. cbv beta iota. cbn [concatU]. fields.
  rewrite Ebody, Ehs.
  match goal with
  | |- context [_createRecordHeader ?p ?l] =>
      rewrite (createRecordHeader_layout p l h (eq_refl (Num h)))
        by (cbn [cType epoch]; unfold len; rewrite ?length_nums;
            unfold contentType.HANDSHAKE; lia)
  end.
  fields. unfold len. rewrite length_nums.
  unfold clientHello, peerRecord. rewrite !nums_app, <- !app_assoc. reflexivity.
Qed.

End ClientHello.

(** ** Answering a HelloVerifyRequest *)

Section HelloVerify.

Variable ext : Externals.

Local Open Scope M_scope.

Lemma write_all_async_open (msg : jsarray) (cb : Callback) (s : Client) :
  _connection s = true -> outputCancelled s = false ->
  write_all_async msg cb s
  = (Ok tt, set_sent (sent s ++ [(now s, msg)])
              (set_pendingWrites (pendingWrites s ++ [(cb, false)]) s)).
Proof.
  intros Hc Ho. unfold write_all_async, mbind, gets, modify. rewrite Hc. cbn [negb].
  rewrite Ho. reflexivity.
Qed.


End HelloVerify.

(** ** The first two steps of a session *)

Section FirstSteps.

Variable ext : Externals.
Variables psk pskidentity : option string.


Lemma connect_outcome :
  fst (handle ext (ConnectDone true) (initial psk pskidentity)) = Ok tt.
Proof. vm_compute. reflexivity. Qed.




End FirstSteps.


(** ** Sequence numbers of application data *)

Section DataRecords.

Variable ext : Externals.



(** Handling a Finished message opens the data channel with sequence number
    0 as the one used last, when the keys are derived and the connection is
    open. *)
Lemma finished_opens_channel (packet : InPacket) (s : Client) (iv : jsarray) :
  in_hType packet = Some handshakeType.FINISHED ->
  _clientIV s = Some iv -> _connection s = true -> outputCancelled s = false ->
  fst (_handleResponseHandshake ext packet s) = Ok tt /\
  channel_open (snd (_handleResponseHandshake ext packet s)) 0.
Proof.
  intros Ht Hiv Hc Ho. unfold _handleResponseHandshake. rewrite Ht.
  change (handshakeType.FINISHED =? handshakeType.SERVER_HELLO) with false.
  change (handshakeType.FINISHED =? handshakeType.SERVER_HELLO_DONE) with false.
  change (handshakeType.FINISHED =? handshakeType.HELLO_VERIFY_REQUEST) with false.
  change (handshakeType.FINISHED =? handshakeType.FINISHED) with true.
  cbv iota. unfold mbind, modify, emit, channel_open. fields.
  split; [reflexivity|]. repeat split; try assumption; try reflexivity.
  exists iv. exact Hiv.
Qed.

End DataRecords.


Section ClaimLemmas.

Variable ext : Externals.

(** Calls on an open channel return [true] and count up, as long as the
    counter is exact. *)
Lemma sendAll_counts (cleartexts : list jsarray) : forall (s : Client) (n : Z) (iv : jsarray),
  _encrypted s = true -> streamSeq s = Num n -> _clientIV s = Some iv ->
  _connection s = true ->
  n + Z.of_nat (List.length cleartexts) <= 2 ^ 53 ->
  fst (sendAll ext cleartexts s) = map (fun _ => Ok true) cleartexts /\
  streamSeq (snd (sendAll ext cleartexts s)) = Num (n + Z.of_nat (List.length cleartexts)).
Proof.
  induction cleartexts as [|c rest IH]; intros s n iv He Hs Hiv Hc Hlen.
  - cbn [sendAll fst snd map List.length]. rewrite Z.add_0_r. auto.
  - cbn [List.length] in Hlen. rewrite Nat2Z.inj_succ in Hlen.
    destruct (sendEncrypted_encrypted ext c s n iv He Hs ltac:(lia) Hiv Hc)
      as (body & s1 & E & Hs1 & He1 & Hiv1 & Hc1 & _).
    destruct (IH s1 (n + 1) iv He1 Hs1 Hiv1 Hc1 ltac:(lia)) as (Hr & Hq).
    cbn [sendAll]. rewrite E. cbn [fst snd map List.length].
    rewrite Hr, Hq, Nat2Z.inj_succ. split; [reflexivity|]. f_equal. lia.
Qed.


End ClaimLemmas.

(** * More on the codec and the client *)

(** ** More on the integer codec *)

Lemma ToInt32_period (x : Z) : JS.ToInt32 (x + 2 ^ 32) = JS.ToInt32 x.
Proof.
  unfold JS.ToInt32. replace (x + 2 ^ 32 + 2 ^ 31) with (x + 2 ^ 31 + 1 * 2 ^ 32) by lia.
  rewrite Z.mod_add by lia. reflexivity.
Qed.

Lemma ToInt32_unique (x y : Z) :
  - 2 ^ 31 <= y < 2 ^ 31 -> (exists k, x = y + k * 2 ^ 32) -> JS.ToInt32 x = y.
Proof.
  intros Hy (k & ->). unfold JS.ToInt32.
  replace (y + k * 2 ^ 32 + 2 ^ 31) with (y + 2 ^ 31 + k * 2 ^ 32) by lia.
  rewrite Z.mod_add by lia. rewrite Z.mod_small by lia. lia.
Qed.

Lemma ToInt32_congr (x : Z) : exists k, JS.ToInt32 x = x + k * 2 ^ 32.
Proof.
  unfold JS.ToInt32. exists (- ((x + 2 ^ 31) / 2 ^ 32)).
  pose proof (Z.div_mod (x + 2 ^ 31) (2 ^ 32) ltac:(lia)). lia.
Qed.

(** One turn of the loop of [arrayToUint], for any accumulator. *)
Lemma lor_multiple_byte (y q b : Z) :
  y = 256 * q -> 0 <= b < 256 -> Z.lor y b = y + b.
Proof.
  intros -> Hb. rewrite <- lor_shl8_byte by exact Hb.
  rewrite Z.shiftl_mul_pow2 by lia. f_equal. lia.
Qed.

Lemma turn_arith (x t y b k j : Z) :
  t = x + k * 2 ^ 32 -> y = t * 2 ^ 8 + j * 2 ^ 32 ->
  - 2 ^ 31 <= y < 2 ^ 31 -> 0 <= b < 256 ->
  Z.lor y b = JS.ToInt32 (256 * x + b).
Proof.
  intros Hk Hj Hr Hb.
  rewrite (lor_multiple_byte y (t + j * 2 ^ 24) b) by lia.
  symmetry. apply ToInt32_unique; [lia|].
  exists (- (256 * k + j)). lia.
Qed.

Lemma arrayToUint_turn (x b : Z) :
  0 <= b < 256 -> JS.or (JS.shl x 8) b = JS.ToInt32 (256 * x + b).
Proof.
  intros Hb.
  destruct (ToInt32_congr x) as (k & Hk).
  destruct (ToInt32_congr (JS.ToInt32 x * 2 ^ 8)) as (j & Hj).
  pose proof (ToInt32_range (JS.ToInt32 x * 2 ^ 8)) as Hr.
  unfold JS.or, JS.shl.
  rewrite (ToInt32_small b) by lia.
  replace (Z.shiftl (JS.ToInt32 x) (Z.land 8 31)) with (JS.ToInt32 x * 2 ^ 8)
    by (symmetry; apply Z.shiftl_mul_pow2; discriminate).
  rewrite (ToInt32_small (JS.ToInt32 (JS.ToInt32 x * 2 ^ 8))) by exact Hr.
  exact (turn_arith x _ _ b k j Hk Hj Hr Hb).
Qed.

Lemma fold_left_commute {A B : Type} (P : B -> Prop) (f g : A -> B -> A) (h : A -> A)
  (l : list B) :
  (forall a b, P b -> f (h a) b = h (g a b)) ->
  Forall P l -> forall a, fold_left f l (h a) = h (fold_left g l a).
Proof.
  intros Hf Hl. induction Hl as [|b l Hb Hl IH]; intros a.
  - reflexivity.
  - cbn [fold_left]. rewrite Hf by exact Hb. apply IH.
Qed.

Lemma arrayToUint_turn_wrapped (a b : Z) :
  is_byte b -> JS.or (JS.shl (JS.ToInt32 a) 8) b = JS.ToInt32 (256 * a + b).
Proof.
  intros Hb. rewrite arrayToUint_turn by exact Hb.
  apply ToInt32_unique; [apply ToInt32_range|].
  destruct (ToInt32_congr a) as (k & Hk).
  destruct (ToInt32_congr (256 * a + b)) as (j & Hj).
  exists (256 * k - j). lia.
Qed.

Lemma arrayToUint_signed (l : list Z) :
  Forall is_byte l -> arrayToUint l = JS.ToInt32 (beValue l).
Proof.
  intros Hl.
  exact (fold_left_commute is_byte (fun number ai => JS.or (JS.shl number 8) ai)
           (fun acc b => 256 * acc + b) JS.ToInt32 l arrayToUint_turn_wrapped Hl 0).
Qed.

Lemma beValue_snoc (l : list Z) (b : Z) : beValue (l ++ [b]) = 256 * beValue l + b.
Proof. unfold beValue. rewrite fold_left_app. reflexivity. Qed.

Lemma beValue_bound (l : list Z) :
  Forall is_byte l -> 0 <= beValue l < 256 ^ Z.of_nat (List.length l).
Proof.
  induction l as [|b l IH] using rev_ind; intros Hl.
  - cbn. lia.
  - apply Forall_app in Hl. destruct Hl as (Hl & Hb). inversion Hb as [|? ? Hb' _]; subst.
    rewrite beValue_snoc, length_app, Nat2Z.inj_add. cbn [List.length].
    rewrite Z.pow_add_r by lia. specialize (IH Hl). unfold is_byte in Hb'. 
    change (256 ^ Z.of_nat 1) with 256. nia.
Qed.

(** The signed top byte that [uintToArray n 32] starts with. *)
Lemma land_top_mask (m : Z) :
  Z.land m (Z.shiftl (-1) 24) = Z.shiftl (Z.shiftr m 24) 24.
Proof.
  apply Z.bits_inj'. intros i Hi. rewrite Z.land_spec.
  destruct (Z_lt_ge_dec i 24).
  - rewrite !Z.shiftl_spec_low by lia. apply andb_false_r.
  - rewrite !Z.shiftl_spec by lia. rewrite Z.shiftr_spec by lia.
    rewrite Z.bits_m1 by lia. rewrite andb_true_r. f_equal. lia.
Qed.

Lemma sar_and_top_signed (m : Z) :
  - 2 ^ 31 <= m < 2 ^ 31 -> JS.sar (JS.and m 0xFF000000) 24 = m / 2 ^ 24.
Proof.
  intros Hm. unfold JS.sar, JS.and. change (Z.land 24 31) with 24.
  change (JS.ToInt32 0xFF000000) with (Z.shiftl (-1) 24).
  rewrite (ToInt32_small m) by lia.
  rewrite land_top_mask.
  assert (Hr : - 2 ^ 31 <= Z.shiftl (Z.shiftr m 24) 24 < 2 ^ 31).
  { rewrite Z.shiftl_mul_pow2, Z.shiftr_div_pow2 by lia.
    pose proof (Z.div_mod m (2 ^ 24) ltac:(lia)).
    pose proof (Z.mod_pos_bound m (2 ^ 24) ltac:(lia)). lia. }
  rewrite ToInt32_small by exact Hr.
  rewrite Z.shiftr_shiftl_l, Z.sub_diag, Z.shiftl_0_r by lia.
  apply Z.shiftr_div_pow2. lia.
Qed.

(** The lower bytes, for any 32-bit number. *)
Lemma sar_and_mask_signed (m k : Z) :
  - 2 ^ 31 <= m < 2 ^ 31 -> 0 <= k <= 16 -> Z.land k 31 = k ->
  JS.sar (JS.and m (Z.shiftl 255 k)) k = byteAt m k.
Proof.
  intros Hm Hk Hk'. unfold JS.sar, JS.and. rewrite Hk'.
  rewrite (ToInt32_small m) by lia.
  assert (Hs : 0 <= Z.shiftl 255 k < 2 ^ 24).
  { rewrite Z.shiftl_mul_pow2 by lia.
    assert (2 ^ k <= 2 ^ 16) by (apply Z.pow_le_mono_r; lia).
    assert (0 < 2 ^ k) by (apply Z.pow_pos_nonneg; lia). nia. }
  rewrite (ToInt32_small (Z.shiftl 255 k)) by lia.
  assert (Hl : 0 <= Z.land m (Z.shiftl 255 k) < 2 ^ 24).
  { rewrite Z.land_comm. apply land_below_pow2; lia. }
  rewrite ToInt32_small by lia.
  apply land_byte_mask. lia.
Qed.

Lemma and_FF_signed (m : Z) : - 2 ^ 31 <= m < 2 ^ 31 -> JS.and m 0xFF = byteAt m 0.
Proof.
  intros Hm. pose proof (sar_and_mask_signed m 0 Hm ltac:(lia) eq_refl) as H.
  unfold JS.sar in H. change (Z.land 0 31) with 0 in H. rewrite Z.shiftr_0_r in H.
  change (Z.shiftl 255 0) with 255 in H.
  unfold JS.and in *. 
  assert (Hl : 0 <= Z.land (JS.ToInt32 m) (JS.ToInt32 255) < 2 ^ 8).
  { rewrite Z.land_comm. apply land_below_pow2; [lia|]. rewrite ToInt32_small; lia. }
  rewrite ToInt32_small in H by lia. exact H.
Qed.

Lemma and_ToInt32 (n m : Z) : JS.and (JS.ToInt32 n) m = JS.and n m.
Proof.
  unfold JS.and. f_equal. apply ToInt32_small. apply ToInt32_range.
Qed.

Lemma uintToArray_ToInt32 (n L : Z) : uintToArray (JS.ToInt32 n) L = uintToArray n L.
Proof. unfold uintToArray. rewrite !and_ToInt32. reflexivity. Qed.

Lemma uintToArray_32_signed (m : Z) :
  - 2 ^ 31 <= m < 2 ^ 31 ->
  uintToArray m 32 = [m / 2 ^ 24; byteAt m 16; byteAt m 8; byteAt m 0].
Proof.
  intros Hm. unfold uintToArray. simpl app.
  rewrite <- (sar_and_top_signed m Hm).
  rewrite <- (sar_and_mask_signed m 16 Hm ltac:(lia) eq_refl).
  rewrite <- (sar_and_mask_signed m 8 Hm ltac:(lia) eq_refl).
  rewrite <- (and_FF_signed m Hm). reflexivity.
Qed.

Lemma arrayToUint_turn_small (x b : Z) :
  - 2 ^ 23 <= x < 2 ^ 23 -> 0 <= b < 256 -> JS.or (JS.shl x 8) b = 256 * x + b.
Proof.
  intros Hx Hb. rewrite arrayToUint_turn by exact Hb. apply ToInt32_small. lia.
Qed.

Lemma arrayToUint_uintToArray_32 (n : Z) :
  arrayToUint (uintToArray n 32) = JS.ToInt32 n.
Proof.
  rewrite <- uintToArray_ToInt32.
  pose proof (ToInt32_range n) as Hm. revert Hm. generalize (JS.ToInt32 n). intros m Hm.
  rewrite uintToArray_32_signed by exact Hm.
  unfold arrayToUint. cbn [fold_left].
  pose proof (byteAt_range m 16). pose proof (byteAt_range m 8).
  pose proof (byteAt_range m 0).
  assert (Ht : - 2 ^ 7 <= m / 2 ^ 24 < 2 ^ 7).
  { split; [apply Z.div_le_lower_bound; lia|apply Z.div_lt_upper_bound; lia]. }
  assert (E0 : JS.or (JS.shl 0 8) (m / 2 ^ 24) = m / 2 ^ 24).
  { unfold JS.or, JS.shl. change (JS.ToInt32 (Z.shiftl (JS.ToInt32 0) (Z.land 8 31))) with 0.
    rewrite (ToInt32_small 0) by lia. rewrite Z.lor_0_l. apply ToInt32_small. lia. }
  rewrite E0.
  rewrite (arrayToUint_turn_small (m / 2 ^ 24) (byteAt m 16)) by lia.
  rewrite (arrayToUint_turn_small _ (byteAt m 8)) by lia.
  rewrite (arrayToUint_turn_small _ (byteAt m 0)) by lia.
  unfold byteAt. clear. Z.div_mod_to_equations. lia.
Qed.

(** ** [bytesUpToArray] *)

Lemma sar_8_small (m : Z) : - 2 ^ 31 <= m < 2 ^ 31 -> JS.sar m 8 = m / 2 ^ 8.
Proof.
  intros Hm. unfold JS.sar. change (Z.land 8 31) with 8.
  rewrite ToInt32_small by exact Hm. apply Z.shiftr_div_pow2. lia.
Qed.

(** The loop of [bytesUpToArray] on a positive 32-bit number that fits [k]
    bytes: [k] turns and one more test. *)
Lemma bytesUpToArrayLoop_digits (k : nat) : forall (fuel : nat) (m : Z) (a : list Z),
  0 <= m < 256 ^ Z.of_nat k -> m < 2 ^ 31 -> (k < fuel)%nat ->
  exists pre,
    bytesUpToArrayLoop fuel m a = Ok (pre ++ a) /\
    Forall is_byte pre /\ beValue pre = m /\ (List.length pre <= k)%nat /\
    (m = 0 -> pre = []) /\ (0 < m -> nth 0 pre 0 <> 0).
Proof.
  induction k as [|k IH]; intros fuel m a Hm H31 Hf.
  - assert (m = 0) by (cbn in Hm; lia). subst m.
    destruct fuel as [|fuel]; [lia|]. exists []. cbn.
    repeat split; auto; lia.
  - destruct fuel as [|fuel]; [lia|]. cbn [bytesUpToArrayLoop].
    destruct (0 <? m) eqn:Hpos.
    + apply Z.ltb_lt in Hpos.
      rewrite sar_8_small by lia. rewrite and_FF by lia.
      unfold byteAt. change (2 ^ 0) with 1. rewrite Z.div_1_r.
      assert (Hq : 0 <= m / 2 ^ 8 < 256 ^ Z.of_nat k).
      { split; [apply Z.div_pos; lia|]. apply Z.div_lt_upper_bound; [lia|].
        rewrite Nat2Z.inj_succ, Z.pow_succ_r in Hm by lia. lia. }
      assert (Hq31 : m / 2 ^ 8 < 2 ^ 31).
      { apply Z.div_lt_upper_bound; lia. }
      destruct (IH fuel (m / 2 ^ 8) (m mod 256 :: a) Hq Hq31 ltac:(lia))
        as (pre & E & Hb & Hv & Hl & Hz & Hnz).
      pose proof (Z.mod_pos_bound m 256 ltac:(lia)) as Hmod.
      exists (pre ++ [m mod 256]). split; [|split; [|split; [|split; [|split]]]].
      * rewrite E, <- app_assoc. reflexivity.
      * apply Forall_app. split; [exact Hb|]. constructor; [exact Hmod|constructor].
      * rewrite beValue_snoc, Hv. change (2 ^ 8) with 256.
        pose proof (Z.div_mod m 256 ltac:(lia)). lia.
      * rewrite length_app. cbn [List.length]. lia.
      * lia.
      * intros _. destruct (Z.eq_dec (m / 2 ^ 8) 0) as [E0|N0].
        -- rewrite (Hz E0). cbn [app nth]. change (2 ^ 8) with 256 in E0.
           pose proof (Z.div_mod m 256 ltac:(lia)). lia.
        -- specialize (Hnz ltac:(lia)). destruct pre as [|p pre]; [cbn in Hnz; lia|].
           exact Hnz.
    + apply Z.ltb_ge in Hpos. assert (m = 0) by lia. subst m.
      exists []. cbn. repeat split; auto; lia.
Qed.

Lemma bytesUpToArray_positive (n : Z) :
  0 < n < 2 ^ 31 ->
  exists l, bytesUpToArray n = Ok l /\ Forall is_byte l /\ beValue l = n /\
            (1 <= List.length l <= 4)%nat /\ nth 0 l 0 <> 0.
Proof.
  intros Hn. unfold bytesUpToArray.
  replace (n =? 0) with false by (symmetry; apply Z.eqb_neq; lia).
  destruct (bytesUpToArrayLoop_digits 4 bytesUpToArray_fuel n [])
    as (pre & E & Hb & Hv & Hl & _ & Hnz).
  - change (256 ^ Z.of_nat 4) with (2 ^ 32). lia.
  - lia.
  - unfold bytesUpToArray_fuel. lia.
  - rewrite app_nil_r in E. exists pre. specialize (Hnz ltac:(lia)).
    repeat split; try assumption.
    destruct pre; [cbn in Hnz; lia|cbn; lia].
Qed.

Lemma bytesUpToArrayLoop_turn (fuel : nat) (number : Z) (a : list Z) :
  bytesUpToArrayLoop (S fuel) number a
  = if 0 <? number
    then bytesUpToArrayLoop fuel (JS.sar number 8) (JS.and number 0xFF :: a)
    else Ok a.
Proof. reflexivity. Qed.

Lemma bytesUpToArray_total (n : Z) : exists l, bytesUpToArray n = Ok l.
Proof.
  unfold bytesUpToArray. destruct (n =? 0); [eexists; reflexivity|].
  unfold bytesUpToArray_fuel.
  rewrite (bytesUpToArrayLoop_turn 63).
  destruct (0 <? n); [|eexists; reflexivity].
  pose proof (ToInt32_range n) as Hr.
  assert (Hs : JS.sar n 8 = JS.ToInt32 n / 2 ^ 8).
  { unfold JS.sar. change (Z.land 8 31) with 8. apply Z.shiftr_div_pow2. lia. }
  rewrite Hs.
  destruct (Z_lt_ge_dec 0 (JS.ToInt32 n / 2 ^ 8)) as [Hp|Hp].
  - destruct (bytesUpToArrayLoop_digits 3 63 (JS.ToInt32 n / 2 ^ 8) [JS.and n 255])
      as (pre & E & _).
    + split; [lia|]. apply Z.div_lt_upper_bound; [lia|].
      change (2 ^ 8 * 256 ^ Z.of_nat 3) with (2 ^ 32). lia.
    + apply Z.div_lt_upper_bound; lia.
    + lia.
    + eexists. exact E.
  - rewrite (bytesUpToArrayLoop_turn 62).
    replace (0 <? JS.ToInt32 n / 2 ^ 8) with false
      by (symmetry; apply Z.ltb_ge; lia).
    eexists; reflexivity.
Qed.

(** ** [stringToArray] *)

Lemma charCode_byte (c : ascii) : is_byte (charCode c).
Proof.
  unfold charCode, is_byte. pose proof (N_ascii_bounded c). lia.
Qed.

Lemma uintToArray_charCode (c : ascii) : uintToArray (charCode c) 8 = [charCode c].
Proof.
  pose proof (charCode_byte c) as Hc. unfold is_byte in Hc.
  rewrite uintToArray_8 by lia. unfold byteAt.
  change (2 ^ 0) with 1. rewrite Z.div_1_r, Z.mod_small by lia. reflexivity.
Qed.

Lemma stringToArray_fold (l : list ascii) : forall a,
  fold_left (fun a c => a ++ uintToArray (charCode c) 8) l a = a ++ map charCode l.
Proof.
  induction l as [|c l IH]; intros a; cbn [fold_left map].
  - symmetry. apply app_nil_r.
  - rewrite IH, uintToArray_charCode, <- app_assoc. reflexivity.
Qed.

Lemma stringToArray_map (s : string) :
  stringToArray s = map charCode (list_ascii_of_string s).
Proof. unfold stringToArray. apply stringToArray_fold. Qed.

Lemma length_list_ascii (s : string) :
  List.length (list_ascii_of_string s) = String.length s.
Proof. induction s as [|c s IH]; cbn; [reflexivity|f_equal; exact IH]. Qed.

(** ** [popNextN] *)

Lemma popNextN_nil (n : nat) : popNextN [] n = (repeat Undef n, []).
Proof.
  induction n as [|n IH]; [reflexivity|]. cbn [popNextN]. rewrite IH. reflexivity.
Qed.

Lemma popNextN_spec (n : nat) : forall msg : jsarray,
  popNextN msg n
  = (firstn n msg ++ repeat Undef (n - List.length msg), skipn n msg).
Proof.
  induction n as [|n IH]; intros msg.
  - reflexivity.
  - destruct msg as [|x t].
    + rewrite popNextN_nil. reflexivity.
    + cbn [popNextN]. rewrite IH. reflexivity.
Qed.

(** ** Key derivation *)

Section KeyDerivation.

Variable ext : Externals.

Lemma P_hash_loop_fuel (secret seed : jsarray) (fuel : nat) : forall res Ai,
  (forall k m, HMAC ext k m <> []) ->
  (48 <= fuel + List.length res)%nat ->
  exists r, P_hash_loop ext fuel secret seed res Ai = Ok r /\ (48 <= List.length r)%nat.
Proof.
  induction fuel as [|fuel IH]; intros res Ai Hne Hf.
  - cbn [P_hash_loop]. unfold len, DTLS_MASTER_SECRET_LENGTH.
    replace (Z.of_nat (List.length res) <? 48) with false
      by (symmetry; apply Z.ltb_ge; lia).
    exists res. split; [reflexivity|lia].
  - cbn [P_hash_loop]. unfold len, DTLS_MASTER_SECRET_LENGTH.
    destruct (Z.of_nat (List.length res) <? 48) eqn:E.
    + apply IH; [exact Hne|]. rewrite length_app.
      specialize (Hne secret (Ai ++ seed)).
      destruct (HMAC ext secret (Ai ++ seed)); [congruence|]. cbn [List.length]. lia.
    + apply Z.ltb_ge in E. exists res. split; [reflexivity|lia].
Qed.

Lemma P_hash_length (secret seed : jsarray) :
  (forall k m, HMAC ext k m <> []) ->
  exists r, P_hash ext secret seed = Ok r /\ List.length r = 48%nat.
Proof.
  intros Hne. unfold P_hash.
  destruct (P_hash_loop_fuel secret seed 48 [] (HMAC ext secret seed) Hne ltac:(cbn; lia))
    as (r & E & Hl).
  rewrite E. cbn [bind]. eexists. split; [reflexivity|].
  unfold DTLS_MASTER_SECRET_LENGTH. rewrite length_firstn. change (Z.to_nat 48) with 48%nat.
  lia.
Qed.

Lemma P_hash_loop_turn (secret seed res Ai : jsarray) (fuel : nat) :
  (List.length res < 48)%nat ->
  P_hash_loop ext (S fuel) secret seed res Ai
  = P_hash_loop ext fuel secret seed (res ++ HMAC ext secret (Ai ++ seed))
                (HMAC ext secret Ai).
Proof.
  intros Hl. cbn [P_hash_loop]. unfold len, DTLS_MASTER_SECRET_LENGTH.
  replace (Z.of_nat (List.length res) <? 48) with true
    by (symmetry; apply Z.ltb_lt; lia).
  reflexivity.
Qed.

Lemma P_hash_loop_done (secret seed res Ai : jsarray) (fuel : nat) :
  (48 <= List.length res)%nat ->
  P_hash_loop ext fuel secret seed res Ai = Ok res.
Proof.
  intros Hl. destruct fuel; cbn [P_hash_loop]; unfold len, DTLS_MASTER_SECRET_LENGTH;
    replace (Z.of_nat (List.length res) <? 48) with false
      by (symmetry; apply Z.ltb_ge; lia); reflexivity.
Qed.

Lemma P_hash_digests (secret seed : jsarray) :
  (forall k m, List.length (HMAC ext k m) = 32%nat) ->
  let A1 := HMAC ext secret seed in
  let A2 := HMAC ext secret A1 in
  P_hash ext secret seed
  = Ok (HMAC ext secret (A1 ++ seed) ++ firstn 16 (HMAC ext secret (A2 ++ seed))).
Proof.
  intros H32. cbv zeta. unfold P_hash.
  rewrite P_hash_loop_turn by (cbn; lia).
  rewrite P_hash_loop_turn by (cbn [app]; rewrite H32; lia).
  rewrite P_hash_loop_done by (cbn [app]; rewrite length_app, !H32; lia).
  cbn [bind app]. f_equal. unfold DTLS_MASTER_SECRET_LENGTH.
  change (Z.to_nat 48) with (32 + 16)%nat.
  rewrite <- (H32 secret (HMAC ext secret seed ++ seed)) at 1.
  apply firstn_app_2.
Qed.

End KeyDerivation.

(** ** The pre-master secret *)





(** ** More on the client *)

Section MoreClient.

Variable ext : Externals.

Local Open Scope M_scope.

(** The loop that draws the random bytes always completes. *)
Lemma repeatM_random (n : nat) : forall (a : jsarray) (s : Client),
  exists r,
    repeatM n (fun random =>
      rnd <- getRandomInt ext 0xFF ;;
      ret (random ++ nums (uintToArray rnd 8))) a s
    = (Ok r, set_randomDraws (n + randomDraws s) s).
Proof.
  induction n as [|n IH]; intros a s.
  - exists a. cbn [repeatM ret Nat.add]. destruct s; reflexivity.
  - cbn [repeatM]. unfold mbind at 1. unfold mbind at 1, getRandomInt at 1, ret at 1.
    match goal with
    | |- context [repeatM n ?b ?a' ?s'] => destruct (IH a' s') as (r & E)
    end.
    exists r. rewrite E. f_equal.
    transitivity (set_randomDraws (n + S (randomDraws s)) s);
      [destruct s; reflexivity|f_equal; lia].
Qed.

Lemma helloBody_sessionId (packet : OutPacket) (s : Client) :
  sessionId packet <> 0 ->
  fst (_createHandshakeClientHelloBody ext packet s) = Throw "TypeError".
Proof.
  intros Hs. unfold _createHandshakeClientHelloBody.
  destruct (random packet) as [r|] eqn:Hr.
  - unfold mbind, ret. cbn [sessionId]. 
    replace (sessionId packet =? 0) with false by (symmetry; apply Z.eqb_neq; exact Hs).
    reflexivity.
  - destruct (repeatM_random 28 [] s) as (r & E).
    unfold mbind in *. rewrite E.
    unfold modify, ret. cbn [sessionId with_random].
    replace (sessionId packet =? 0) with false by (symmetry; apply Z.eqb_neq; exact Hs).
    reflexivity.
Qed.

(** A ClientHello read back by [_readPacket]. *)
Lemma clientHello_read_back (h q : Z) (r c : list Z) (s s0 : Client) :
  0 <= h < 2 ^ 31 -> 0 <= q < 2 ^ 16 ->
  Z.of_nat (List.length r) + Z.of_nat (List.length c) < 2 ^ 16 - 26 ->
  _encrypted s0 = false ->
  let packet := mkOutPacket contentType.HANDSHAKE (Some handshakeType.CLIENT_HELLO)
                            0 (Num h) 0 (Some (nums c)) q (Some (nums r)) in
  exists msg,
    fst (_createPacket ext packet s) = Ok (msg, packet) /\
    fst (_readPacket ext msg s0)
    = Ok (mkInPacket 22 0xfefd 0 h (Some 1) (Some q) (Some 0)
            (Some (Z.of_nat (14 + List.length r + List.length c))) SubNone, []).
Proof.
  intros Hh Hq Hlen He packet.
  exists (nums (clientHello h q r c)). split.
  - unfold packet. rewrite createPacket_clientHello by lia. reflexivity.
  - rewrite <- (app_nil_r (nums (clientHello h q r c))). unfold clientHello.
    rewrite readPacket_peerHandshake; try lia; try assumption.
    + unfold storeIncoming, mbind, gets, modify, ret.
      rewrite clientHelloBody_length.
      destruct (_handshakeInProgress s0); reflexivity.
    + rewrite clientHelloBody_length. lia.
Qed.

(** *** Protecting and opening records *)







End MoreClient.

(** ** Closing, alerts and timers *)

Section Closing.

Variable ext : Externals.

Local Open Scope M_scope.

Lemma closeBridge_ok (s : Client) : fst (closeBridge s) = Ok tt.
Proof.
  unfold closeBridge, clearTimers, cancelOutput, emit, mbind, modify, gets, ret. fields.
  destruct (_connection s); reflexivity.
Qed.

Lemma closeBridge_connected (s : Client) :
  _connection s = true ->
  let s' := snd (closeBridge s) in
  emitted s' = emitted s ++ ["disconnected"%string] /\
  timers s' = [] /\
  (forall src, In src (sources s') ->
     In src (sources s) /\ (src_id src = 0 \/ ~ In (src_id src) (timers s))) /\
  Forall (fun w => snd w = true) (pendingWrites s') /\
  outputCancelled s' = true /\ inputCancelled s' = true /\ socketClosed s' = true /\
  sent s' = sent s /\ _connection s' = true /\ _encrypted s' = _encrypted s.
Proof.
  intros Hc. cbv zeta.
  unfold closeBridge, clearTimers, cancelOutput, emit, mbind, modify, gets, ret. fields.
  rewrite Hc. fields.
  repeat split; try reflexivity; try assumption.
  - apply filter_In in H. tauto.
  - apply filter_In in H. destruct H as (_ & H).
    apply negb_true_iff in H.
    destruct (Z.eq_dec (src_id src) 0) as [E0|N0]; [left; exact E0|right].
    intros Hin. 
    assert (X : existsb (fun t => negb (t =? 0) && (t =? src_id src)) (timers s) = true).
    { apply existsb_exists. exists (src_id src). split; [exact Hin|].
      rewrite Z.eqb_refl. replace (src_id src =? 0) with false
        by (symmetry; apply Z.eqb_neq; exact N0). reflexivity. }
    congruence.
  - apply Forall_forall. intros w Hw. apply in_map_iff in Hw.
    destruct Hw as (w0 & <- & _). reflexivity.
Qed.

Lemma closeBridge_unconnected (s : Client) :
  _connection s = false ->
  let s' := snd (closeBridge s) in
  emitted s' = emitted s /\ timers s' = [] /\ sent s' = sent s /\
  outputCancelled s' = outputCancelled s /\ socketClosed s' = socketClosed s.
Proof.
  intros Hc. cbv zeta.
  unfold closeBridge, clearTimers, mbind, modify, gets, ret. fields.
  rewrite Hc. fields. repeat split.
Qed.


(** Once the input is cancelled or the socket closed, data that arrives is
    dropped and no further read is started. *)
Lemma incoming_after_close (data : list Z) (s : Client) :
  socketClosed s = true \/ inputCancelled s = true ->
  handle ext (Incoming data) s
  = (Ok tt, if reading s then set_reading false s else s).
Proof.
  intros Hc. unfold handle, mbind, gets, modify.
  destruct (reading s); [|reflexivity].
  unfold readCallback, mbind, gets, ret. fields.
  destruct Hc as [-> | ->]; [reflexivity|rewrite orb_true_r; reflexivity].
Qed.

(** A timer that fires when the handshake is no longer in progress sends
    nothing and arms no timer. *)
Lemma timer_after_handshake (timerId : Z) (s : Client) :
  _handshakeInProgress s = false ->
  let s' := step ext s (TimerFire timerId) in
  fst (handle ext (TimerFire timerId) s) = Ok tt /\
  sent s' = sent s /\ pendingWrites s' = pendingWrites s /\ emitted s' = emitted s /\
  outputCancelled s' = outputCancelled s /\
  incl (sources s') (sources s) /\
  (forall src, In src (sources s') -> src_id src <> timerId).
Proof.
  intros Hh. cbv zeta. unfold step, handle, mbind, gets.
  destruct (find (fun src => src_id src =? timerId) (sources s)) as [src|] eqn:Hf.
  - unfold timerCallback, mbind, modify, gets, ret. fields. rewrite Hh.
    cbn [fst snd]. fields. repeat split; try reflexivity.
    + intros x Hx. apply filter_In in Hx. tauto.
    + intros x Hx. apply filter_In in Hx. destruct Hx as (_ & Hx).
      apply negb_true_iff in Hx. apply Z.eqb_neq in Hx. exact Hx.
  - cbn [fst snd ret]. repeat split; try reflexivity.
    + apply incl_refl.
    + intros x Hx E. 
      pose proof (find_none _ _ Hf x Hx) as Hn. cbn beta in Hn.
      apply Z.eqb_neq in Hn. contradiction.
Qed.

End Closing.

(** ** What the data channel leaves alone *)

Section Frames.

Variable ext : Externals.

Local Open Scope M_scope.

Lemma sendEncrypted_frame (cleartext : jsarray) (s : Client) :
  let s' := snd (sendEncrypted ext cleartext s) in
  emitted s' = emitted s /\ _encrypted s' = _encrypted s /\
  _handshakeInProgress s' = _handshakeInProgress s /\
  sources s' = sources s /\ timers s' = timers s /\
  _clientWriteKey s' = _clientWriteKey s /\ _clientIV s' = _clientIV s /\
  _serverWriteKey s' = _serverWriteKey s /\ _serverIV s' = _serverIV s /\
  _handshakeMessages s' = _handshakeMessages s /\
  _readyToSend s' = Some false.
Proof.
  cbv zeta. unfold sendEncrypted, mbind, modify, gets, ret. fields.
  destruct (_encrypted s) eqn:He; fields;
    [|repeat split; fields; rewrite ?He; reflexivity].
  unfold _encryptMsg, need, mbind, gets, ret. fields.
  destruct (_clientIV s) eqn:Hiv; fields;
    [|repeat split; fields; rewrite ?He, ?Hiv; reflexivity].
  unfold write_all_async, mbind, gets, modify, ret, throw. fields.
  destruct (_connection s); fields;
    [|repeat split; fields; rewrite ?He, ?Hiv; reflexivity].
  destruct (outputCancelled s); fields;
    repeat split; fields; rewrite ?He, ?Hiv; reflexivity.
Qed.

Ltac keeps_field :=
  unfold _sendMsg, write_all_async, _createPacket, _createHandshake,
    _createHandshakeClientHelloBody, _createHandshakeClientKeyExchangeBody,
    _createHandshakeFinishedBody, _encryptMsg;
  repeat first
    [ keeps_step
    | match goal with
      | |- keeps _ (getRandomInt _ _) => intros ?; reflexivity
      end ].

Lemma keeps_encrypted_createPacket (p : OutPacket) :
  keeps _encrypted (_createPacket ext p).
Proof. keeps_field. Qed.

Lemma keeps_inProgress_createPacket (p : OutPacket) :
  keeps _handshakeInProgress (_createPacket ext p).
Proof. keeps_field. Qed.

Lemma keeps_encrypted_sendMsg (msg : jsarray) (cb : Callback) :
  keeps _encrypted (_sendMsg msg cb).
Proof. keeps_field. Qed.

Lemma keeps_inProgress_sendMsg (msg : jsarray) (cb : Callback) :
  keeps _handshakeInProgress (_sendMsg msg cb).
Proof. keeps_field. Qed.

(** The client counts the handshake as done when it starts to build its
    Finished message, whether or not the message can be built and sent. *)
Lemma sendHandshakeFinished_eq (s : Client) :
  _sendHandshakeFinished ext s
  = (mp <- _createPacket ext
             (mkOutPacket contentType.HANDSHAKE (Some handshakeType.FINISHED) 1 (Num 0)
                          0 None 3 None) ;;
     _sendMsg (fst mp) CbNone)
      (set__handshakeInProgress false (set__encrypted true s)).
Proof. reflexivity. Qed.

Lemma sendHandshakeFinished_flags (s : Client) :
  _encrypted (snd (_sendHandshakeFinished ext s)) = true /\
  _handshakeInProgress (snd (_sendHandshakeFinished ext s)) = false.
Proof.
  rewrite sendHandshakeFinished_eq. split.
  - rewrite (keeps_bind _encrypted _ _ (keeps_encrypted_createPacket _)
               (fun a => keeps_encrypted_sendMsg _ _)).
    reflexivity.
  - rewrite (keeps_bind _handshakeInProgress _ _ (keeps_inProgress_createPacket _)
               (fun a => keeps_inProgress_sendMsg _ _)).
    reflexivity.
Qed.

End Frames.

(** ** The second flight and the ServerHello *)

Section SecondFlight.

Variable ext : Externals.

Local Open Scope M_scope.

(** The body and the record of a ClientKeyExchange for an identity. *)
Lemma createPacket_keyExchange (id : string) (s : Client) :
  _pskIdentity s = Some id ->
  Z.of_nat (String.length id) < 2 ^ 16 - 16 ->
  let packet := mkOutPacket contentType.HANDSHAKE (Some handshakeType.CLIENT_KEY_EXCHANGE)
                            0 (Num 2) 0 None 2 None in
  let body := be 2 (Z.of_nat (String.length id)) ++ map charCode (list_ascii_of_string id) in
  _createPacket ext packet s
  = (Ok (nums (peerRecord 22 0 2 (peerHandshake 16 2 body)), packet),
     set__handshakeMessages
       (hm_set (_handshakeMessages s) (Num handshakeType.CLIENT_KEY_EXCHANGE)
               (nums (peerHandshake 16 2 body))) s).
Proof.
  intros Hid Hlen packet body.
  assert (Hbl : List.length body = (2 + String.length id)%nat).
  { unfold body. rewrite length_app, be_length, length_map, length_list_ascii. reflexivity. }
  assert (Ebody :
    nums (uintToArray (Z.of_nat (String.length id)) 16) ++ nums (stringToArray id)
    = nums body).
  { destruct (uintToArray_be (Z.of_nat (String.length id)) ltac:(lia)) as (_ & -> & _).
    rewrite stringToArray_map. unfold body. rewrite nums_app. reflexivity. }
  assert (Ehs :
    (((((nums (uintToArray handshakeType.CLIENT_KEY_EXCHANGE 8)
         ++ nums (uintToArray (len (nums body)) 24))
        ++ nums (uintToArray 2 16)) ++ nums (uintToArray 0 24))
      ++ nums (uintToArray (len (nums body)) 24))
     ++ nums body)
    = nums (peerHandshake 16 2 body)).
  { unfold len. rewrite length_nums.
    destruct (uintToArray_be (Z.of_nat (List.length body)) ltac:(lia))
      as (_ & _ & -> & _).
    change (uintToArray handshakeType.CLIENT_KEY_EXCHANGE 8) with (be 1 16).
    change (uintToArray 2 16) with (be 2 2).
    change (uintToArray 0 24) with (be 3 0).
    unfold peerHandshake. rewrite !nums_app, <- !app_assoc. reflexivity. }
  unfold _createPacket. subst packet. fields.
  change (contentType.HANDSHAKE =? contentType.HANDSHAKE) with true. cbv iota.
  unfold _createHandshake. fields.
  change (handshakeType.CLIENT_KEY_EXCHANGE =? handshakeType.CLIENT_HELLO) with false.
  change (handshakeType.CLIENT_KEY_EXCHANGE =? handshakeType.CLIENT_KEY_EXCHANGE) with true.
  change (handshakeType.CLIENT_KEY_EXCHANGE =? handshakeType.FINISHED) with false.
  cbn [orb]. cbv iota.
  unfold _createHandshakeClientKeyExchangeBody, need.
  unfold mbind, ret, gets, modify. rewrite Hid. fields. cbn [app].
  rewrite Ebody, Ehs.
  match goal with
  | |- context [_createRecordHeader ?p ?l] =>
      rewrite (createRecordHeader_layout p l 2 (eq_refl (Num 2)))
        by (cbn [cType epoch]; unfold len; rewrite ?length_nums, ?peerHandshake_length;
            unfold contentType.HANDSHAKE; lia)
  end.
  fields. unfold len. rewrite length_nums.
  unfold peerRecord. rewrite !nums_app, <- !app_assoc. reflexivity.
Qed.

Lemma createPacket_changeCipherSpec (s : Client) :
  let packet := mkOutPacket contentType.CHANGE_CIPHER_SPEC None 0 (Num 3) 0 None 3 None in
  _createPacket ext packet s = (Ok (nums (peerRecord 20 0 3 [1]), packet), s).
Proof. reflexivity. Qed.

(** The ClientKeyExchange goes out first; the ChangeCipherSpec follows when
    that write completes, and the Finished when the second write completes. *)
Lemma second_flight (id : string) (s : Client) :
  _pskIdentity s = Some id ->
  Z.of_nat (String.length id) < 2 ^ 16 - 16 ->
  _connection s = true -> outputCancelled s = false -> pendingWrites s = [] ->
  let body := be 2 (Z.of_nat (String.length id)) ++ map charCode (list_ascii_of_string id) in
  let s1 := snd (_sendKeyExchange ext s) in
  let s2 := step ext s1 WriteDone in
  let s3 := step ext s2 WriteDone in
  sent s1 = sent s ++ [(now s, nums (peerRecord 22 0 2 (peerHandshake 16 2 body)))] /\
  pendingWrites s1 = [(CbSendHandshakeCipherSpec, false)] /\
  sent s2 = sent s1 ++ [(now s, nums (peerRecord 20 0 3 [1]))] /\
  pendingWrites s2 = [(CbSendHandshakeFinished, false)] /\
  _encrypted s2 = _encrypted s /\ _handshakeInProgress s2 = _handshakeInProgress s /\
  _encrypted s3 = true /\ _handshakeInProgress s3 = false.
Proof.
  intros Hid Hlen Hc Ho Hp. cbv zeta.
  assert (E1 : _sendKeyExchange ext s
    = (Ok tt,
       set_sent (sent s ++ [(now s, nums (peerRecord 22 0 2
                   (peerHandshake 16 2
                      (be 2 (Z.of_nat (String.length id))
                       ++ map charCode (list_ascii_of_string id)))))])
         (set_pendingWrites [(CbSendHandshakeCipherSpec, false)]
            (set__handshakeMessages
               (hm_set (_handshakeMessages s) (Num handshakeType.CLIENT_KEY_EXCHANGE)
                  (nums (peerHandshake 16 2
                     (be 2 (Z.of_nat (String.length id))
                      ++ map charCode (list_ascii_of_string id))))) s)))).
  { unfold _sendKeyExchange. unfold mbind at 1.
    rewrite (createPacket_keyExchange id s Hid Hlen). cbn [fst snd].
    unfold _sendMsg. rewrite write_all_async_open by (fields; assumption).
    fields. rewrite Hp. reflexivity. }
  rewrite E1. cbn [snd].
  set (s1 := set_sent _ _).
  assert (E2 : step ext s1 WriteDone
    = set_sent (sent s1 ++ [(now s, nums (peerRecord 20 0 3 [1]))])
        (set_pendingWrites [(CbSendHandshakeFinished, false)] s1)).
  { unfold step, handle, mbind, gets, modify. unfold s1 at 1. fields.
    unfold writeCallback, _sendHandshakeCipherSpec. unfold mbind at 1.
    rewrite createPacket_changeCipherSpec. cbn [fst snd].
    unfold _sendMsg. rewrite write_all_async_open by (unfold s1; fields; assumption).
    unfold s1. fields. reflexivity. }
  rewrite !E2.
  set (s2 := set_sent _ (set_pendingWrites _ s1)).
  assert (E3 : step ext s2 WriteDone
    = snd (_sendHandshakeFinished ext (set_pendingWrites [] s2))).
  { unfold step, handle, mbind, gets, modify. unfold s2 at 1. fields. reflexivity. }
  rewrite E3.
  destruct (sendHandshakeFinished_flags ext (set_pendingWrites [] s2)) as (F1 & F2).
  unfold s2, s1. fields. repeat split; assumption.
Qed.

Lemma popNextN_len (a : list Z) (m : jsarray) (n : nat) :
  List.length a = n -> popNextN (nums a ++ m) n = (nums a, m).
Proof. intros <-. apply popNextN_app. Qed.

(** Reading a ServerHello. *)
Lemma readHandshakePacket_serverHello (v suite : Z) (time random sid tail : list Z)
  (s : Client) :
  0 <= v < 2 ^ 16 -> 0 <= suite < 2 ^ 16 ->
  List.length time = 4%nat -> List.length random = 28%nat ->
  Z.of_nat (List.length sid) < 256 ->
  _readHandshakePacket
    (nums (be 2 v ++ time ++ random ++ be 1 (Z.of_nat (List.length sid)) ++ sid
           ++ be 2 suite ++ tail))
    handshakeType.SERVER_HELLO s
  = (Ok (SubServerHello v (nums time) (nums random) (Z.of_nat (List.length sid))
           (nums sid) suite),
     set__serverRandom (Some (nums (time ++ random))) s).
Proof.
  intros Hv Hsuite Ht Hr Hsid. unfold _readHandshakePacket.
  change (handshakeType.SERVER_HELLO =? handshakeType.HELLO_VERIFY_REQUEST) with false.
  change (handshakeType.SERVER_HELLO =? handshakeType.SERVER_HELLO) with true.
  cbv iota zeta.
  rewrite !nums_app.
  rewrite popNextN_be. cbn [fst snd].
  rewrite (popNextN_len time _ 4 Ht). cbn [fst snd].
  rewrite (popNextN_len random _ 28 Hr). cbn [fst snd].
  rewrite popNextN_be. cbn [fst snd].
  rewrite !arrayToUintV_nums.
  rewrite (arrayToUint_be2 v), (arrayToUint_be1 (Z.of_nat _)) by lia.
  rewrite Nat2Z.id, popNextN_app. cbn [fst snd].
  rewrite popNextN_be. cbn [fst snd].
  rewrite arrayToUintV_nums, (arrayToUint_be2 suite) by lia.
  unfold mbind, modify, ret. reflexivity.
Qed.

End SecondFlight.

(** ** The keys *)

Lemma slice_length {A : Type} (l : list A) (a b : Z) :
  0 <= a <= b -> b <= len l -> len (slice l a b) = b - a.
Proof.
  intros Hab Hb. unfold slice, len in *.
  replace (a <? 0) with false by (symmetry; apply Z.ltb_ge; lia).
  replace (b <? 0) with false by (symmetry; apply Z.ltb_ge; lia).
  rewrite !Z.min_l by lia.
  rewrite length_firstn, length_skipn. lia.
Qed.

Section Keys.

Variable ext : Externals.

Local Open Scope M_scope.

Lemma finishedBody_keys (packet : OutPacket) (s : Client) (psk : string)
  (clientRandom serverRandom : jsarray) :
  (forall k m, HMAC ext k m <> []) ->
  _psk s = Some psk -> _clientRandom s = Some clientRandom ->
  _serverRandom s = Some serverRandom ->
  exists verify s' masterSecret keyBlock,
    _createHandshakeFinishedBody ext packet s = (Ok verify, s') /\
    len verify = 12 /\
    _masterSecret s' = Some masterSecret /\ len masterSecret = 48 /\
    _keyBlock s' = Some keyBlock /\ len keyBlock = 48 /\
    _clientWriteKey s' = Some (slice keyBlock 0 16) /\
    _serverWriteKey s' = Some (slice keyBlock 16 32) /\
    _clientIV s' = Some (slice keyBlock 32 36) /\
    _serverIV s' = Some (slice keyBlock 36 40) /\
    len (slice keyBlock 0 16) = 16 /\ len (slice keyBlock 16 32) = 16 /\
    len (slice keyBlock 32 36) = 4 /\ len (slice keyBlock 36 40) = 4 /\
    emitted s' = emitted s /\ sent s' = sent s.
Proof.
  intros Hne Hpsk Hcr Hsr.
  unfold _createHandshakeFinishedBody, need, lift, PRF.
  unfold mbind, gets, modify, ret. rewrite Hpsk, Hcr, Hsr. fields.
  destruct (P_hash_length ext (preMasterSecret psk)
              (nums (stringToArray "master secret") ++ concatU clientRandom (Some serverRandom))
              Hne) as (ms & Ems & Hms).
  rewrite Ems. fields. rewrite Hsr.
  destruct (P_hash_length ext ms
              (nums (stringToArray "key expansion") ++ serverRandom ++ clientRandom)
              Hne) as (kb & Ekb & Hkb).
  rewrite Ekb. fields.
  match goal with
  | |- context [P_hash ext ms ?seed] =>
      destruct (P_hash_length ext ms seed Hne) as (fin & Efin & Hfin); rewrite Efin
  end.
  assert (Lms : len ms = 48) by (unfold len; rewrite Hms; reflexivity).
  assert (Lkb : len kb = 48) by (unfold len; rewrite Hkb; reflexivity).
  assert (Lfin : len fin = 48) by (unfold len; rewrite Hfin; reflexivity).
  eexists. eexists. exists ms, kb. split; [reflexivity|]. fields.
  repeat split; try assumption; apply slice_length; lia.
Qed.

End Keys.

(** * More on the block cipher *)

Module AESMore.

Import AES AESAux AESProofs.
Local Open Scope result_scope.

(** ** The inverse transforms are undone by the transforms *)

Lemma mix_invMix_00 (x : Z) : is_byte x ->
  Z.lxor (Z.lxor (Z.lxor (gmul 2 (gmul 14 x)) (gmul 3 (gmul 9 x))) (gmul 13 x)) (gmul 11 x) = x.
Proof.
  intros H. apply Z.eqb_eq.
  exact (forall_bytes (fun x => Z.lxor (Z.lxor (Z.lxor (gmul 2 (gmul 14 x)) (gmul 3 (gmul 9 x))) (gmul 13 x)) (gmul 11 x) =? x)
           ltac:(vm_compute; reflexivity) x H).
Qed.

Lemma mix_invMix_01 (x : Z) : is_byte x ->
  Z.lxor (Z.lxor (Z.lxor (gmul 2 (gmul 11 x)) (gmul 3 (gmul 14 x))) (gmul 9 x)) (gmul 13 x) = 0.
Proof.
  intros H. apply Z.eqb_eq.
  exact (forall_bytes (fun x => Z.lxor (Z.lxor (Z.lxor (gmul 2 (gmul 11 x)) (gmul 3 (gmul 14 x))) (gmul 9 x)) (gmul 13 x) =? 0)
           ltac:(vm_compute; reflexivity) x H).
Qed.

Lemma mix_invMix_02 (x : Z) : is_byte x ->
  Z.lxor (Z.lxor (Z.lxor (gmul 2 (gmul 13 x)) (gmul 3 (gmul 11 x))) (gmul 14 x)) (gmul 9 x) = 0.
Proof.
  intros H. apply Z.eqb_eq.
  exact (forall_bytes (fun x => Z.lxor (Z.lxor (Z.lxor (gmul 2 (gmul 13 x)) (gmul 3 (gmul 11 x))) (gmul 14 x)) (gmul 9 x) =? 0)
           ltac:(vm_compute; reflexivity) x H).
Qed.

Lemma mix_invMix_03 (x : Z) : is_byte x ->
  Z.lxor (Z.lxor (Z.lxor (gmul 2 (gmul 9 x)) (gmul 3 (gmul 13 x))) (gmul 11 x)) (gmul 14 x) = 0.
Proof.
  intros H. apply Z.eqb_eq.
  exact (forall_bytes (fun x => Z.lxor (Z.lxor (Z.lxor (gmul 2 (gmul 9 x)) (gmul 3 (gmul 13 x))) (gmul 11 x)) (gmul 14 x) =? 0)
           ltac:(vm_compute; reflexivity) x H).
Qed.

Lemma mix_invMix_10 (x : Z) : is_byte x ->
  Z.lxor (Z.lxor (Z.lxor (gmul 14 x) (gmul 2 (gmul 9 x))) (gmul 3 (gmul 13 x))) (gmul 11 x) = 0.
Proof.
  intros H. apply Z.eqb_eq.
  exact (forall_bytes (fun x => Z.lxor (Z.lxor (Z.lxor (gmul 14 x) (gmul 2 (gmul 9 x))) (gmul 3 (gmul 13 x))) (gmul 11 x) =? 0)
           ltac:(vm_compute; reflexivity) x H).
Qed.

Lemma mix_invMix_11 (x : Z) : is_byte x ->
  Z.lxor (Z.lxor (Z.lxor (gmul 11 x) (gmul 2 (gmul 14 x))) (gmul 3 (gmul 9 x))) (gmul 13 x) = x.
Proof.
  intros H. apply Z.eqb_eq.
  exact (forall_bytes (fun x => Z.lxor (Z.lxor (Z.lxor (gmul 11 x) (gmul 2 (gmul 14 x))) (gmul 3 (gmul 9 x))) (gmul 13 x) =? x)
           ltac:(vm_compute; reflexivity) x H).
Qed.

Lemma mix_invMix_12 (x : Z) : is_byte x ->
  Z.lxor (Z.lxor (Z.lxor (gmul 13 x) (gmul 2 (gmul 11 x))) (gmul 3 (gmul 14 x))) (gmul 9 x) = 0.
Proof.
  intros H. apply Z.eqb_eq.
  exact (forall_bytes (fun x => Z.lxor (Z.lxor (Z.lxor (gmul 13 x) (gmul 2 (gmul 11 x))) (gmul 3 (gmul 14 x))) (gmul 9 x) =? 0)
           ltac:(vm_compute; reflexivity) x H).
Qed.

Lemma mix_invMix_13 (x : Z) : is_byte x ->
  Z.lxor (Z.lxor (Z.lxor (gmul 9 x) (gmul 2 (gmul 13 x))) (gmul 3 (gmul 11 x))) (gmul 14 x) = 0.
Proof.
  intros H. apply Z.eqb_eq.
  exact (forall_bytes (fun x => Z.lxor (Z.lxor (Z.lxor (gmul 9 x) (gmul 2 (gmul 13 x))) (gmul 3 (gmul 11 x))) (gmul 14 x) =? 0)
           ltac:(vm_compute; reflexivity) x H).
Qed.

Lemma mix_invMix_20 (x : Z) : is_byte x ->
  Z.lxor (Z.lxor (Z.lxor (gmul 14 x) (gmul 9 x)) (gmul 2 (gmul 13 x))) (gmul 3 (gmul 11 x)) = 0.
Proof.
  intros H. apply Z.eqb_eq.
  exact (forall_bytes (fun x => Z.lxor (Z.lxor (Z.lxor (gmul 14 x) (gmul 9 x)) (gmul 2 (gmul 13 x))) (gmul 3 (gmul 11 x)) =? 0)
           ltac:(vm_compute; reflexivity) x H).
Qed.

Lemma mix_invMix_21 (x : Z) : is_byte x ->
  Z.lxor (Z.lxor (Z.lxor (gmul 11 x) (gmul 14 x)) (gmul 2 (gmul 9 x))) (gmul 3 (gmul 13 x)) = 0.
Proof.
  intros H. apply Z.eqb_eq.
  exact (forall_bytes (fun x => Z.lxor (Z.lxor (Z.lxor (gmul 11 x) (gmul 14 x)) (gmul 2 (gmul 9 x))) (gmul 3 (gmul 13 x)) =? 0)
           ltac:(vm_compute; reflexivity) x H).
Qed.

Lemma mix_invMix_22 (x : Z) : is_byte x ->
  Z.lxor (Z.lxor (Z.lxor (gmul 13 x) (gmul 11 x)) (gmul 2 (gmul 14 x))) (gmul 3 (gmul 9 x)) = x.
Proof.
  intros H. apply Z.eqb_eq.
  exact (forall_bytes (fun x => Z.lxor (Z.lxor (Z.lxor (gmul 13 x) (gmul 11 x)) (gmul 2 (gmul 14 x))) (gmul 3 (gmul 9 x)) =? x)
           ltac:(vm_compute; reflexivity) x H).
Qed.

Lemma mix_invMix_23 (x : Z) : is_byte x ->
  Z.lxor (Z.lxor (Z.lxor (gmul 9 x) (gmul 13 x)) (gmul 2 (gmul 11 x))) (gmul 3 (gmul 14 x)) = 0.
Proof.
  intros H. apply Z.eqb_eq.
  exact (forall_bytes (fun x => Z.lxor (Z.lxor (Z.lxor (gmul 9 x) (gmul 13 x)) (gmul 2 (gmul 11 x))) (gmul 3 (gmul 14 x)) =? 0)
           ltac:(vm_compute; reflexivity) x H).
Qed.

Lemma mix_invMix_30 (x : Z) : is_byte x ->
  Z.lxor (Z.lxor (Z.lxor (gmul 3 (gmul 14 x)) (gmul 9 x)) (gmul 13 x)) (gmul 2 (gmul 11 x)) = 0.
Proof.
  intros H. apply Z.eqb_eq.
  exact (forall_bytes (fun x => Z.lxor (Z.lxor (Z.lxor (gmul 3 (gmul 14 x)) (gmul 9 x)) (gmul 13 x)) (gmul 2 (gmul 11 x)) =? 0)
           ltac:(vm_compute; reflexivity) x H).
Qed.

Lemma mix_invMix_31 (x : Z) : is_byte x ->
  Z.lxor (Z.lxor (Z.lxor (gmul 3 (gmul 11 x)) (gmul 14 x)) (gmul 9 x)) (gmul 2 (gmul 13 x)) = 0.
Proof.
  intros H. apply Z.eqb_eq.
  exact (forall_bytes (fun x => Z.lxor (Z.lxor (Z.lxor (gmul 3 (gmul 11 x)) (gmul 14 x)) (gmul 9 x)) (gmul 2 (gmul 13 x)) =? 0)
           ltac:(vm_compute; reflexivity) x H).
Qed.

Lemma mix_invMix_32 (x : Z) : is_byte x ->
  Z.lxor (Z.lxor (Z.lxor (gmul 3 (gmul 13 x)) (gmul 11 x)) (gmul 14 x)) (gmul 2 (gmul 9 x)) = 0.
Proof.
  intros H. apply Z.eqb_eq.
  exact (forall_bytes (fun x => Z.lxor (Z.lxor (Z.lxor (gmul 3 (gmul 13 x)) (gmul 11 x)) (gmul 14 x)) (gmul 2 (gmul 9 x)) =? 0)
           ltac:(vm_compute; reflexivity) x H).
Qed.

Lemma mix_invMix_33 (x : Z) : is_byte x ->
  Z.lxor (Z.lxor (Z.lxor (gmul 3 (gmul 9 x)) (gmul 13 x)) (gmul 11 x)) (gmul 2 (gmul 14 x)) = x.
Proof.
  intros H. apply Z.eqb_eq.
  exact (forall_bytes (fun x => Z.lxor (Z.lxor (Z.lxor (gmul 3 (gmul 9 x)) (gmul 13 x)) (gmul 11 x)) (gmul 2 (gmul 14 x)) =? x)
           ltac:(vm_compute; reflexivity) x H).
Qed.


Lemma mix_invMix_G (a b c d : Z) :
  is_byte a -> is_byte b -> is_byte c -> is_byte d ->
  mixColumnG (Z.lxor (Z.lxor (Z.lxor (gmul 14 a) (gmul 11 b)) (gmul 13 c)) (gmul 9 d))
             (Z.lxor (Z.lxor (Z.lxor (gmul 9 a) (gmul 14 b)) (gmul 11 c)) (gmul 13 d))
             (Z.lxor (Z.lxor (Z.lxor (gmul 13 a) (gmul 9 b)) (gmul 14 c)) (gmul 11 d))
             (Z.lxor (Z.lxor (Z.lxor (gmul 11 a) (gmul 13 b)) (gmul 9 c)) (gmul 14 d))
  = [a; b; c; d].
Proof.
  intros Ha Hb Hc Hd. unfold mixColumnG.
  rewrite !gmul_lxor.
  f_equal; [|f_equal; [|f_equal; [|f_equal]]]; rewrite lxor_transpose.
  - rewrite mix_invMix_00, mix_invMix_01, mix_invMix_02, mix_invMix_03 by assumption.
    rewrite !Z.lxor_0_r. reflexivity.
  - rewrite mix_invMix_10, mix_invMix_11, mix_invMix_12, mix_invMix_13 by assumption.
    rewrite !Z.lxor_0_r. reflexivity.
  - rewrite mix_invMix_20, mix_invMix_21, mix_invMix_22, mix_invMix_23 by assumption.
    rewrite !Z.lxor_0_r, Z.lxor_0_l. reflexivity.
  - rewrite mix_invMix_30, mix_invMix_31, mix_invMix_32, mix_invMix_33 by assumption.
    rewrite !Z.lxor_0_l. reflexivity.
Qed.

Lemma mix_invMix_column (a b c d : Z) :
  is_byte a -> is_byte b -> is_byte c -> is_byte d ->
  invMixColumn a b c d = invMixColumnG a b c d /\
  mixColumn (num_at (invMixColumnG a b c d) 0) (num_at (invMixColumnG a b c d) 1)
            (num_at (invMixColumnG a b c d) 2) (num_at (invMixColumnG a b c d) 3)
  = [a; b; c; d].
Proof.
  intros Ha Hb Hc Hd. split; [apply invMixColumn_G; assumption|].
  cbv [invMixColumnG num_at Z.ltb Z.compare Z.to_nat Pos.to_nat Pos.iter_op Nat.add nth].
  rewrite mixColumn_G by bytes2.
  apply mix_invMix_G; assumption.
Qed.

Lemma invMixColumns_inverse (st : State) :
  byte_state st ->
  exists st', invMixColumns st = Ok st' /\ byte_state st' /\ mixColumns st' = Ok st.
Proof.
  intros H. explode_state H.
  eexists. split; [apply invMixColumns_cells|].
  repeat match goal with
         | |- context [invMixColumn ?a ?b ?c ?d] =>
             rewrite (proj1 (mix_invMix_column a b c d ltac:(assumption)
                        ltac:(assumption) ltac:(assumption) ltac:(assumption)))
         end.
  split.
  - cbv [of_columns map invMixColumnG num_at Z.ltb Z.compare Z.to_nat Pos.to_nat
         Pos.iter_op Nat.add nth].
    bytes2.
  - cbv [of_columns map].
    rewrite mixColumns_cells.
    repeat match goal with
           | |- context [mixColumn (num_at (invMixColumnG ?a ?b ?c ?d) 0) _ _ _] =>
               rewrite (proj2 (mix_invMix_column a b c d ltac:(assumption)
                          ltac:(assumption) ltac:(assumption) ltac:(assumption)))
           end.
    reflexivity.
Qed.

Lemma invSubBytes_inverse (st : State) :
  byte_state st ->
  exists st', invSubBytes st = Ok st' /\ byte_state st' /\ subBytes st' = Ok st.
Proof.
  intros H. explode_state H.
  eexists. split; [apply invSubBytes_cells|]. split; [bytes2|].
  rewrite subBytes_cells.
  repeat match goal with
         | Hx : is_byte ?x |- context [subByte (invSubByte ?x)] =>
             rewrite (proj1 (proj2 (proj2 (subByte_facts x Hx))))
         end.
  reflexivity.
Qed.

Lemma invShiftRows_inverse (st : State) :
  byte_state st ->
  exists st', invShiftRows st = Ok st' /\ byte_state st' /\ shiftRows st' = Ok st.
Proof.
  intros H. explode_state H.
  eexists. split; [apply invShiftRows_cells|]. split; [bytes2|].
  apply shiftRows_cells.
Qed.

Lemma inv_shift_sub_inverse (t : State) :
  byte_state t ->
  exists y u, invShiftRows t = Ok y /\ invSubBytes y = Ok u /\ byte_state u /\
              subBytes u = Ok y /\ shiftRows y = Ok t.
Proof.
  intros H.
  destruct (invShiftRows_inverse t H) as (y & E1 & By & I1).
  destruct (invSubBytes_inverse y By) as (u & E2 & Bu & I2).
  exists y, u. auto.
Qed.

(** ** The rounds of [encrypt] undo the rounds of [decrypt] *)

Section DecRounds.

Variable R : Z.
Variable w : list (list Z).
Hypothesis Hw : schedule_ok w (4 * R).

(** After the rounds [R - 2] down to [r] of [decrypt], started from the
    block [s0] with the last round key added: the state [q]; the rounds
    [r + 1] up to [R - 1] of [encrypt] lead from [u] back to [s0], where [u]
    is [q] with the inverse column mix (for [0 < r]) and the round key [r]
    taken off. *)
Lemma dec_rounds_inverse (m : nat) : forall (s0 : State),
  byte_state s0 -> Z.of_nat (S m) <= R - 1 ->
  exists q0 q u v,
    addRoundKey s0 w ((R - 1) * 4) = Ok q0 /\
    for_down (S m) (R - 2) (decRound w) q0 = Ok q /\ byte_state q /\
    byte_state u /\ addRoundKey v w ((R - 2 - Z.of_nat m) * 4) = Ok u /\
    (if 0 <? R - 2 - Z.of_nat m then mixColumns q = Ok v else q = v) /\
    for_up (S m) (R - 1 - Z.of_nat m) (encRound R w) u = Ok s0.
Proof.
  induction m as [|m IH]; intros s0 Hs0 Hm.
  - destruct (addRoundKey_involution s0 w (4 * R) ((R - 1) * 4) Hw ltac:(lia) ltac:(lia) Hs0)
      as (q0 & E0 & Bq0 & I0).
    destruct (inv_shift_sub_inverse q0 Bq0) as (y & u & E1 & E2 & Bu & I2 & I1).
    destruct (addRoundKey_involution u w (4 * R) ((R - 2) * 4) Hw ltac:(lia) ltac:(lia) Bu)
      as (v & E3 & Bv & I3).
    change (Z.of_nat 0) with 0. rewrite !Z.sub_0_r.
    assert (Hq : exists q, (if 0 <? R - 2 then invMixColumns v else Ok v) = Ok q /\
                           byte_state q /\
                           (if 0 <? R - 2 then mixColumns q = Ok v else q = v)).
    { destruct (0 <? R - 2).
      - destruct (invMixColumns_inverse v Bv) as (q & E4 & Bq & I4). exists q. auto.
      - exists v. auto. }
    destruct Hq as (q & E4 & Bq & I4).
    exists q0, q, u, v. split; [exact E0|]. split; [|split; [exact Bq|split; [exact Bu|]]].
    + cbn [for_down]. unfold decRound. rewrite E1. cbn [bind]. rewrite E2. cbn [bind].
      rewrite E3. cbn [bind]. rewrite E4. reflexivity.
    + split; [exact I3|]. split; [exact I4|].
      cbn [for_up]. unfold encRound. rewrite I2. cbn [bind]. rewrite I1. cbn [bind].
      replace (R - 1 + 1 <? R) with false by (symmetry; apply Z.ltb_ge; lia).
      cbn [bind]. rewrite I0. reflexivity.
  - destruct (IH s0 Hs0 ltac:(lia)) as (q0 & q & u & v & E0 & F1 & Bq & Bu & F2 & F3 & F4).
    rewrite Nat2Z.inj_succ in *.
    set (r := R - 2 - Z.of_nat m) in *.
    assert (Hr : 1 <= r) by (unfold r; lia).
    replace (0 <? r) with true in F3 by (symmetry; apply Z.ltb_lt; lia).
    destruct (inv_shift_sub_inverse q Bq) as (y & u' & E1 & E2 & Bu' & I2 & I1).
    destruct (addRoundKey_involution u' w (4 * R) ((r - 1) * 4) Hw ltac:(lia) ltac:(lia) Bu')
      as (v' & E3 & Bv' & I3).
    assert (Hq : exists q', (if 0 <? r - 1 then invMixColumns v' else Ok v') = Ok q' /\
                            byte_state q' /\
                            (if 0 <? r - 1 then mixColumns q' = Ok v' else q' = v')).
    { destruct (0 <? r - 1).
      - destruct (invMixColumns_inverse v' Bv') as (q' & E4 & Bq' & I4). exists q'. auto.
      - exists v'. auto. }
    destruct Hq as (q' & E4 & Bq' & I4).
    replace (R - 2 - Z.succ (Z.of_nat m)) with (r - 1) by (unfold r; lia).
    replace (R - 1 - Z.succ (Z.of_nat m)) with r by (unfold r; lia).
    exists q0, q', u', v'. split; [exact E0|].
    split; [|split; [exact Bq'|split; [exact Bu'|]]].
    + rewrite for_down_last, F1. cbn [bind].
      replace (R - 2 - Z.of_nat (S m)) with (r - 1) by (unfold r; lia).
      unfold decRound. rewrite E1. cbn [bind]. rewrite E2. cbn [bind].
      rewrite E3. cbn [bind]. exact E4.
    + split; [exact I3|]. split; [exact I4|].
      change (for_up (S (S m)) r (encRound R w) u')
        with (bind (encRound R w r u') (for_up (S m) (r + 1) (encRound R w))).
      unfold encRound at 1. rewrite I2. cbn [bind]. rewrite I1. cbn [bind].
      replace (r + 1 <? R) with true by (symmetry; apply Z.ltb_lt; unfold r; lia).
      rewrite F3. cbn [bind]. rewrite F2. cbn [bind].
      replace (r + 1) with (R - 1 - Z.of_nat m) by (unfold r; lia). exact F4.
Qed.

Lemma dec_rounds_roundtrip (st : State) :
  2 <= R -> byte_state st ->
  exists q0 p u,
    addRoundKey st w ((R - 1) * 4) = Ok q0 /\
    for_range_down (R - 2) 0 (decRound w) q0 = Ok p /\ byte_state p /\
    addRoundKey p w 0 = Ok u /\
    for_range 1 R (encRound R w) u = Ok st.
Proof.
  intros HR Hst.
  destruct (dec_rounds_inverse (Z.to_nat (R - 2)) st Hst ltac:(lia))
    as (q0 & q & u & v & E0 & F1 & Bq & Bu & F2 & F3 & F4).
  rewrite Z2Nat.id in * by lia.
  replace (R - 2 - (R - 2)) with 0 in * by lia.
  replace (R - 1 - (R - 2)) with 1 in * by lia.
  change (0 <? 0) with false in F3. cbv iota in F3. subst v.
  exists q0, q, u. split; [exact E0|]. split; [|split; [exact Bq|split; [exact F2|]]].
  - unfold for_range_down.
    replace (Z.to_nat (R - 2 - 0 + 1)) with (S (Z.to_nat (R - 2))) by lia. exact F1.
  - unfold for_range. replace (Z.to_nat (R - 1)) with (S (Z.to_nat (R - 2))) by lia.
    exact F4.
Qed.

End DecRounds.

(** ** Blocks *)

Ltac byte_list :=
  repeat (constructor; [bytes2|]); constructor.

Lemma encrypt_decrypt_block (c key : list Z) :
  List.length key = 16%nat \/ List.length key = 24%nat \/ List.length key = 32%nat ->
  List.length c = 16%nat ->
  Forall is_byte key -> Forall is_byte c ->
  exists p, decrypt c key = Ok p /\ List.length p = 16%nat /\ Forall is_byte p /\
            encrypt p key = Ok c.
Proof.
  intros Hklen Hclen Hkey Hc.
  destruct (roundLimitOf_cases key Hklen) as (R & ER & HR & Hcase).
  destruct (keyExpansion_ok R key Hcase Hkey) as (w & Ew & Hw).
  explode_list c Hclen. explode_Forall.
  match goal with
  | |- context [decrypt ?b key] =>
      destruct (dec_rounds_roundtrip R w Hw
                  [[nth 0 b 0; nth 4 b 0; nth 8 b 0; nth 12 b 0];
                   [nth 1 b 0; nth 5 b 0; nth 9 b 0; nth 13 b 0];
                   [nth 2 b 0; nth 6 b 0; nth 10 b 0; nth 14 b 0];
                   [nth 3 b 0; nth 7 b 0; nth 11 b 0; nth 15 b 0]] HR)
        as (q0 & p & u & E0 & E1 & Bp & E2 & E3)
  end.
  { cbn [nth]. bytes2. }
  cbn [nth] in E0, E3.
  explode_state Bp.
  eexists. split; [|split; [|split]].
  - rewrite decrypt_unfold, ER. cbn [bind]. rewrite Ew. cbn [bind].
    rewrite loadState_cells. cbn [bind]. rewrite E0. cbn [bind]. rewrite E1. cbn [bind].
    apply storeState_cells.
  - reflexivity.
  - byte_list.
  - rewrite encrypt_unfold, ER. cbn [bind]. rewrite Ew. cbn [bind].
    rewrite loadState_cells. cbn [bind]. rewrite E2. cbn [bind]. rewrite E3. cbn [bind].
    apply storeState_cells.
Qed.

Lemma encrypt_block_shape (block key : list Z) :
  List.length key = 16%nat \/ List.length key = 24%nat \/ List.length key = 32%nat ->
  List.length block = 16%nat ->
  Forall is_byte key -> Forall is_byte block ->
  exists c, encrypt block key = Ok c /\ List.length c = 16%nat /\ Forall is_byte c.
Proof.
  intros Hklen Hblen Hkey Hblock.
  destruct (roundLimitOf_cases key Hklen) as (R & ER & HR & Hcase).
  destruct (keyExpansion_ok R key Hcase Hkey) as (w & Ew & Hw).
  explode_list block Hblen. explode_Forall.
  match goal with
  | |- context [encrypt ?b key] =>
      destruct (rounds_roundtrip R w Hw
                  [[nth 0 b 0; nth 4 b 0; nth 8 b 0; nth 12 b 0];
                   [nth 1 b 0; nth 5 b 0; nth 9 b 0; nth 13 b 0];
                   [nth 2 b 0; nth 6 b 0; nth 10 b 0; nth 14 b 0];
                   [nth 3 b 0; nth 7 b 0; nth 11 b 0; nth 15 b 0]] HR)
        as (s & out & E0 & E1 & Bout & _)
  end.
  { cbn [nth]. bytes2. }
  cbn [nth] in E0.
  explode_state Bout.
  eexists. split; [|split].
  - rewrite encrypt_unfold, ER. cbn [bind]. rewrite Ew. cbn [bind].
    rewrite loadState_cells. cbn [bind]. rewrite E0. cbn [bind]. rewrite E1. cbn [bind].
    apply storeState_cells.
  - reflexivity.
  - byte_list.
Qed.

Lemma illegal_key_length (input key : list Z) :
  List.length key <> 16%nat -> List.length key <> 24%nat -> List.length key <> 32%nat ->
  encrypt input key = Throw "illegal key length" /\
  decrypt input key = Throw "illegal key length".
Proof.
  intros H16 H24 H32.
  assert (E : roundLimitOf key = Throw "illegal key length").
  { unfold roundLimitOf.
    replace (Z.of_nat (List.length key) =? 16) with false by (symmetry; apply Z.eqb_neq; lia).
    replace (Z.of_nat (List.length key) =? 24) with false by (symmetry; apply Z.eqb_neq; lia).
    replace (Z.of_nat (List.length key) =? 32) with false by (symmetry; apply Z.eqb_neq; lia).
    reflexivity. }
  rewrite encrypt_unfold, decrypt_unfold, E. split; reflexivity.
Qed.

(** ** The key schedule starts with the key *)

Lemma expandStep_app (nK i : Z) (words words' : list (list Z)) :
  Z.of_nat (List.length words) = i ->
  expandStep nK i words = Ok words' ->
  exists word, words' = words ++ [word].
Proof.
  intros Hlen E. unfold expandStep in E.
  destruct (row_at words (i - 1)) as [tmp| |]; cbn [bind] in E; try discriminate.
  match type of E with
  | bind ?X _ = _ => destruct X as [tmp2| |]
  end; cbn [bind] in E; try discriminate.
  destruct (row_at words (i - nK)) as [prev| |]; cbn [bind] in E; try discriminate.
  match type of E with
  | bind ?X _ = _ => destruct X as [word| |]
  end; cbn [bind] in E; try discriminate.
  injection E as <-. exists word. apply set_at_end. exact Hlen.
Qed.

Lemma expand_loop (nK : Z) (n : nat) (s : list (list Z)) :
  0 < nK -> Z.of_nat (List.length s) = nK -> Forall byte_row s ->
  nK + Z.of_nat n <= 11 * nK ->
  exists w, for_up n nK (expandStep nK) s = Ok w /\
            schedule_ok w (nK + Z.of_nat n) /\ firstn (Z.to_nat nK) w = s.
Proof.
  intros HnK Hlen Hs Hn.
  destruct (for_up_invariant
              (fun i r => schedule_ok r i /\ firstn (Z.to_nat nK) r = s /\ nK <= i)
              (expandStep nK) n nK s) as (w & Ew & Hw & Hf & _).
  - split; [split; assumption|]. split; [|lia].
    rewrite <- Hlen, Nat2Z.id. apply firstn_all.
  - intros k t Hk (Ht & Hft & Hle).
    destruct (expandStep_ok nK k t) as (t' & Et & Ht'); [lia| |exact Ht|].
    { assert (k / nK < 11) by (apply Z.div_lt_upper_bound; lia). lia. }
    exists t'. split; [exact Et|]. split; [exact Ht'|]. split; [|lia].
    destruct (expandStep_app nK k t t' (proj1 Ht) Et) as (word & ->).
    rewrite firstn_app.
    replace (Z.to_nat nK - List.length t)%nat with 0%nat
      by (destruct Ht as (Hl & _); lia).
    cbn [firstn]. rewrite app_nil_r. exact Hft.
  - exists w. auto.
Qed.

Lemma keyExpansion_key (roundLimit : Z) (key : list Z) :
  (List.length key = 16%nat /\ roundLimit = 11) \/
  (List.length key = 24%nat /\ roundLimit = 13) \/
  (List.length key = 32%nat /\ roundLimit = 15) ->
  Forall is_byte key ->
  exists w, keyExpansion roundLimit key = Ok w /\
            schedule_ok w (4 * roundLimit) /\
            concat (firstn (List.length key / 4) w) = key.
Proof.
  intros Hcase Hkey. rewrite keyExpansion_unfold.
  destruct Hcase as [[Hlen ->]|[[Hlen ->]|[Hlen ->]]]; rewrite Hlen;
    explode_list key Hlen; explode_Forall.
  - match goal with
    | |- context [bind ?first _] =>
        let v := eval cbv in first in change first with v
    end.
    cbn [bind]. change (Z.of_nat 16 / 4) with 4. unfold for_range.
    match goal with
    | |- context [for_up ?n 4 _ ?s] =>
        destruct (expand_loop 4 n s) as (w & Ew & Hw & Hf)
    end.
    + lia.
    + reflexivity.
    + repeat (constructor; [bytes2|]). constructor.
    + lia.
    + exists w. split; [exact Ew|]. split; [exact Hw|].
      change (16 / 4)%nat with (Z.to_nat 4). rewrite Hf. reflexivity.
  - match goal with
    | |- context [bind ?first _] =>
        let v := eval cbv in first in change first with v
    end.
    cbn [bind]. change (Z.of_nat 24 / 4) with 6. unfold for_range.
    match goal with
    | |- context [for_up ?n 6 _ ?s] =>
        destruct (expand_loop 6 n s) as (w & Ew & Hw & Hf)
    end.
    + lia.
    + reflexivity.
    + repeat (constructor; [bytes2|]). constructor.
    + lia.
    + exists w. split; [exact Ew|]. split; [exact Hw|].
      change (24 / 4)%nat with (Z.to_nat 6). rewrite Hf. reflexivity.
  - match goal with
    | |- context [bind ?first _] =>
        let v := eval cbv in first in change first with v
    end.
    cbn [bind]. change (Z.of_nat 32 / 4) with 8. unfold for_range.
    match goal with
    | |- context [for_up ?n 8 _ ?s] =>
        destruct (expand_loop 8 n s) as (w & Ew & Hw & Hf)
    end.
    + lia.
    + reflexivity.
    + repeat (constructor; [bytes2|]). constructor.
    + lia.
    + exists w. split; [exact Ew|]. split; [exact Hw|].
      change (32 / 4)%nat with (Z.to_nat 8). rewrite Hf. reflexivity.
Qed.

(** ** Multiplication in the field *)

Lemma ffm_byte (a b : Z) : is_byte a -> is_byte b -> is_byte (finiteFieldMultiplication a b).
Proof. intros Ha Hb. rewrite ffm_gmul by assumption. apply gmul_is_byte; assumption. Qed.

Lemma ffm_xor (a b c : Z) :
  is_byte a -> is_byte b -> is_byte c ->
  finiteFieldMultiplication a (JS.xor b c)
  = JS.xor (finiteFieldMultiplication a b) (finiteFieldMultiplication a c).
Proof.
  intros Ha Hb Hc.
  rewrite (xor_byte b c) by assumption.
  rewrite !ffm_gmul by (try assumption; apply lxor_is_byte; assumption).
  rewrite xor_byte by (apply gmul_is_byte; assumption).
  apply gmul_lxor.
Qed.

Lemma gmul_comm_check :
  forallb (fun a => forallb (fun b => gmul a b =? gmul b a) all_bytes) all_bytes = true.
Proof. vm_compute. reflexivity. Qed.

Lemma ffm_comm (a b : Z) :
  is_byte a -> is_byte b ->
  finiteFieldMultiplication a b = finiteFieldMultiplication b a.
Proof.
  intros Ha Hb. rewrite !ffm_gmul by assumption.
  apply Z.eqb_eq.
  pose proof (forall_bytes _ gmul_comm_check a Ha) as H. cbn beta in H.
  exact (forall_bytes _ H b Hb).
Qed.

Lemma gmul_one_check :
  forallb (fun a => (gmul 1 a =? a) && (gmul 2 a =? xtime a)) all_bytes = true.
Proof. vm_compute. reflexivity. Qed.

Lemma ffm_one_two (a : Z) :
  is_byte a ->
  finiteFieldMultiplication 1 a = a /\
  finiteFieldMultiplication 2 a = (if a <? 128 then 2 * a else Z.lxor (2 * a) 0x11b).
Proof.
  intros Ha. rewrite !ffm_gmul by (try assumption; unfold is_byte; lia).
  pose proof (forall_bytes _ gmul_one_check a Ha) as H. cbn beta in H.
  apply andb_prop in H. destruct H as (H1 & H2).
  apply Z.eqb_eq in H1, H2. split; [exact H1|]. rewrite H2. unfold xtime.
  unfold is_byte in Ha.
  destruct (Z.ltb_spec a 128).
  - replace (Z.testbit a 7) with false; [reflexivity|].
    symmetry. apply (testbit_high_clear a 7); lia.
  - replace (Z.testbit a 7) with true; [reflexivity|].
    symmetry. rewrite Z.testbit_true by lia. change (2 ^ 7) with 128.
    assert (Hq : a / 128 = 1) by (Z.div_mod_to_equations; lia).
    rewrite Hq. reflexivity.
Qed.

End AESMore.


(** * The claims *)

(** ** C1 *)




(** ** C2 *)

(** C2, as the code has it: handling one record of incoming data emits
    "connected" exactly when the record is a handshake record whose message,
    opened by [_decryptMsg] when [_encrypted] is set, has type Finished; it
    is emitted once then, and no record emits it otherwise. *)
Theorem C2_connected_per_finished_record (ext : Externals) (msg : jsarray) (s : Client) :
  exists l,
    emitted (snd (handleRecord ext msg s)) = emitted s ++ l /\
    (l = [] \/ l = ["disconnected"%string] \/ l = ["connected"%string]) /\
    (l = ["connected"%string] <->
     recordType msg = contentType.HANDSHAKE /\
     exists plain, fst (recordPlain ext msg s) = Ok plain /\
                   messageType plain = handshakeType.FINISHED).
Proof. apply handleRecord_emits. Qed.

(** C2 as stated fails twice over: a Finished message that arrives in the
    clear right after the first ClientHello makes the client emit "connected"
    although no key exists to verify anything; and when the peer's Finished
    arrives twice after a handshake, "connected" is emitted twice. *)
Lemma C2_counterexample :
  (let s := run sampleExternals
              [ConnectDone true; Incoming (plainFinished (repeat 9 12))] sampleClient in
   emitted s = ["connected"%string] /\ _serverWriteKey s = None) /\
  emitted (run sampleExternals
             (toClientFinished ++ [Incoming peerFinished; Incoming peerFinished])
             sampleClient)
  = ["connected"%string; "connected"%string].
Proof. vm_compute. repeat split; reflexivity. Qed.

(** ** C3 *)

(** C3: for every key of 16, 24 or 32 bytes and every block of 16 bytes,
    [encrypt] returns a block and [decrypt] gives the input block back. *)
Theorem C3_decrypt_encrypt (block key : list Z) :
  List.length key = 16%nat \/ List.length key = 24%nat \/ List.length key = 32%nat ->
  List.length block = 16%nat ->
  Forall is_byte key -> Forall is_byte block ->
  exists c, AES.encrypt block key = Ok c /\ AES.decrypt c key = Ok block.
Proof. apply AESProofs.decrypt_encrypt_block. Qed.

Lemma C3_decrypt_encrypt_witness :
  exists c,
    AES.encrypt [0x00; 0x11; 0x22; 0x33; 0x44; 0x55; 0x66; 0x77;
                 0x88; 0x99; 0xaa; 0xbb; 0xcc; 0xdd; 0xee; 0xff]
                [0x00; 0x01; 0x02; 0x03; 0x04; 0x05; 0x06; 0x07;
                 0x08; 0x09; 0x0a; 0x0b; 0x0c; 0x0d; 0x0e; 0x0f] = Ok c /\
    AES.decrypt c [0x00; 0x01; 0x02; 0x03; 0x04; 0x05; 0x06; 0x07;
                   0x08; 0x09; 0x0a; 0x0b; 0x0c; 0x0d; 0x0e; 0x0f]
    = Ok [0x00; 0x11; 0x22; 0x33; 0x44; 0x55; 0x66; 0x77;
          0x88; 0x99; 0xaa; 0xbb; 0xcc; 0xdd; 0xee; 0xff].
Proof.
  apply C3_decrypt_encrypt.
  - left. reflexivity.
  - reflexivity.
  - repeat (constructor; [unfold is_byte; lia|]). constructor.
  - repeat (constructor; [unfold is_byte; lia|]). constructor.
Defined.

(** ** C4 *)

(** C4, as the code has it: with no answer from the peer, the ClientHello is
    sent when the connection is made and again when each of the first two
    timers fires, 200 ms apart: three sends in all. The third timer sends
    nothing and arms no timer, no callback throws, and a timer that fires
    later finds nothing to do. *)
Theorem C4_three_sends (ext : Externals) (psk pskidentity : option string) :
  let events := [ConnectDone true; TimerFire 1; TimerFire 2; TimerFire 3] in
  let s := run ext events (initial psk pskidentity) in
  outcomes ext events (initial psk pskidentity) = [Ok tt; Ok tt; Ok tt; Ok tt] /\
  map fst (sent s) = [0; 200; 400] /\
  map (fun m => firstn 14 (snd m)) (sent s)
  = repeat (nums [22; 0xfe; 0xfd; 0; 0; 0; 0; 0; 0; 0; 0; 0; 54; 1]) 3 /\
  sources s = [] /\
  forall timerId, handle ext (TimerFire timerId) s = (Ok tt, s).
Proof.
  cbv zeta. split; [|split; [|split; [|split]]].
  - vm_compute. reflexivity.
  - vm_compute. reflexivity.
  - vm_compute. reflexivity.
  - vm_compute. reflexivity.
  - intros timerId. unfold handle, mbind, gets.
    replace (sources (run ext [ConnectDone true; TimerFire 1; TimerFire 2; TimerFire 3]
                          (initial psk pskidentity))) with (@nil Source)
      by (vm_compute; reflexivity).
    reflexivity.
Qed.

(** C4 as stated fails: the ClientHello is sent 3 times, not 4, and no timer
    is left that could send it again. *)
Lemma C4_counterexample :
  let s := run sampleExternals [ConnectDone true; TimerFire 1; TimerFire 2; TimerFire 3]
               sampleClient in
  List.length (sent s) <> 4%nat /\ sources s = [].
Proof. vm_compute. split; [discriminate|reflexivity]. Qed.

(** ** C5 *)

(** C5 at the key "00112233" (four bytes): the code writes the length 4, then
    sixteen zero bytes where the claim has four, then the length and the key;
    the result is not the structure that the claim describes. *)
Theorem C5_preMasterSecret_zero_block_fixed :
  preMasterSecret "00112233"
  = nums ([0; 4] ++ repeat 0 16 ++ [0; 4] ++ [0x00; 0x11; 0x22; 0x33]) /\
  preMasterSecret "00112233" <> nums (premaster_rfc4279 [0x00; 0x11; 0x22; 0x33]).
Proof. split; [vm_compute; reflexivity|vm_compute; discriminate]. Qed.

(** ** C6 *)




(** ** C7 *)




(** ** C8 *)




(** ** C9 *)




(** ** C10 *)

(** C10, as the code has it: for [0 <= n < 2^24] and a width [L] among 8,
    16, 24, 32, 40 and 48, [uintToArray n L] has [L/8] elements and
    [arrayToUint] gives back [n] modulo [2^L], which is [n] itself when
    [n < 2^L]. *)
Theorem C10_uintToArray_roundtrip (n L : Z) :
  0 <= n < 2 ^ 24 ->
  In L [8; 16; 24; 32; 40; 48] ->
  Z.of_nat (List.length (uintToArray n L)) = L / 8 /\
  arrayToUint (uintToArray n L) = n mod 2 ^ L /\
  (n < 2 ^ L -> arrayToUint (uintToArray n L) = n).
Proof.
  intros Hn HL. split; [apply uintToArray_length; exact HL|].
  assert (E : arrayToUint (uintToArray n L) = n mod 2 ^ L)
    by (apply arrayToUint_uintToArray; [lia|exact HL]).
  split; [exact E|]. intros Hlt. rewrite E. apply Z.mod_small. lia.
Qed.

Lemma C10_uintToArray_roundtrip_witness :
  Z.of_nat (List.length (uintToArray 0x123456 24)) = 24 / 8 /\
  arrayToUint (uintToArray 0x123456 24) = 0x123456.
Proof.
  destruct (C10_uintToArray_roundtrip 0x123456 24) as (H1 & _ & H3).
  - lia.
  - simpl. auto.
  - split; [exact H1|apply H3; lia].
Defined.

(** C10 as stated fails: 256 is below [2^24], and on 8 bits it decodes
    to 0. *)
Lemma C10_counterexample :
  0 <= 256 < 2 ^ 24 /\ In 8 [8; 16; 24; 32; 40; 48] /\
  arrayToUint (uintToArray 256 8) <> 256.
Proof. split; [lia|]. split; [simpl; auto|]. vm_compute. discriminate. Qed.

(** * Further properties *)

(** ** The integer codec *)

(** X1: bits above the 32nd never reach the output of [uintToArray]: the
    mask [0xFF00000000] is 0 for the 32-bit operators, so the 48-bit and
    40-bit encodings of every number are zero bytes followed by its 32-bit
    encoding, and a number and the number plus [2^32] are encoded alike. *)
Theorem X1_uintToArray_high_bytes (n L : Z) :
  uintToArray n 48 = 0 :: 0 :: uintToArray n 32 /\
  uintToArray n 40 = 0 :: uintToArray n 32 /\
  uintToArray (n + 2 ^ 32) L = uintToArray n L.
Proof.
  split; [|split].
  - unfold uintToArray. cbn [Z.leb Z.compare Pos.compare Pos.compare_cont].
    rewrite !sar_and_wrapped. reflexivity.
  - unfold uintToArray. cbn [Z.leb Z.compare Pos.compare Pos.compare_cont].
    rewrite !sar_and_wrapped. reflexivity.
  - rewrite <- (uintToArray_ToInt32 (n + 2 ^ 32)), ToInt32_period.
    apply uintToArray_ToInt32.
Qed.

(** X2: on 32 bits the round trip through [uintToArray] and [arrayToUint]
    gives the signed 32-bit value of the number: the number itself exactly
    when it lies between [-2^31] and [2^31 - 1]. *)
Theorem X2_roundtrip_32_signed (n : Z) :
  arrayToUint (uintToArray n 32) = JS.ToInt32 n /\
  (arrayToUint (uintToArray n 32) = n <-> - 2 ^ 31 <= n < 2 ^ 31).
Proof.
  split; [apply arrayToUint_uintToArray_32|].
  rewrite arrayToUint_uintToArray_32. split.
  - intros <-. apply ToInt32_range.
  - apply ToInt32_small.
Qed.

(** X3: [arrayToUint] reads a list of bytes as a big-endian number and
    reduces it to a signed 32-bit value; up to three bytes are read
    exactly. *)
Theorem X3_arrayToUint_big_endian (l : list Z) :
  Forall is_byte l ->
  arrayToUint l = JS.ToInt32 (beValue l) /\
  ((List.length l <= 3)%nat -> arrayToUint l = beValue l /\ 0 <= beValue l < 2 ^ 24).
Proof.
  intros Hl. split; [apply arrayToUint_signed; exact Hl|].
  intros H3. pose proof (beValue_bound l Hl) as Hb.
  assert (Hp : 256 ^ Z.of_nat (List.length l) <= 2 ^ 24).
  { change (2 ^ 24) with (256 ^ 3). apply Z.pow_le_mono_r; lia. }
  split; [|lia].
  rewrite arrayToUint_signed by exact Hl. apply ToInt32_small. lia.
Qed.

Lemma X3_arrayToUint_big_endian_witness :
  arrayToUint [0x12; 0x34; 0x56] = JS.ToInt32 (beValue [0x12; 0x34; 0x56]) /\
  arrayToUint [0x12; 0x34; 0x56] = beValue [0x12; 0x34; 0x56].
Proof.
  destruct (X3_arrayToUint_big_endian [0x12; 0x34; 0x56]) as (H1 & H2).
  - repeat (constructor; [unfold is_byte; lia|]). constructor.
  - split; [exact H1|]. apply H2. simpl. lia.
Defined.

(** X4: [bytesUpToArray] returns for every number; for a positive number
    below [2^31] the result is its shortest big-endian encoding: between one
    and four bytes, the first of them not zero, which [arrayToUint] reads
    back; a negative number gives the empty array. *)
Theorem X4_bytesUpToArray (n : Z) :
  (exists l, bytesUpToArray n = Ok l) /\
  (n < 0 -> bytesUpToArray n = Ok []) /\
  (0 < n < 2 ^ 31 ->
   exists l, bytesUpToArray n = Ok l /\ Forall is_byte l /\
             (1 <= List.length l <= 4)%nat /\ nth 0 l 0 <> 0 /\
             beValue l = n /\ arrayToUint l = n).
Proof.
  split; [apply bytesUpToArray_total|]. split.
  - intros Hn. unfold bytesUpToArray, bytesUpToArray_fuel.
    replace (n =? 0) with false by (symmetry; apply Z.eqb_neq; lia).
    rewrite (bytesUpToArrayLoop_turn 63).
    replace (0 <? n) with false by (symmetry; apply Z.ltb_ge; lia). reflexivity.
  - intros Hn.
    destruct (bytesUpToArray_positive n Hn) as (l & E & Hb & Hv & Hl & Hnz).
    exists l. repeat split; try assumption; try lia.
    rewrite arrayToUint_signed by exact Hb. rewrite Hv. apply ToInt32_small. lia.
Qed.

Lemma X4_bytesUpToArray_witness :
  exists l, bytesUpToArray 0x1234 = Ok l /\ beValue l = 0x1234 /\ arrayToUint l = 0x1234.
Proof.
  destruct (proj2 (proj2 (X4_bytesUpToArray 0x1234))) as (l & E & _ & _ & _ & Hv & Ha).
  - lia.
  - exists l. auto.
Defined.

(** X5: [stringToArray] gives one byte for each character of the string,
    its code. *)
Theorem X5_stringToArray_codes (s : string) :
  stringToArray s = map charCode (list_ascii_of_string s) /\
  List.length (stringToArray s) = String.length s /\
  Forall is_byte (stringToArray s).
Proof.
  rewrite stringToArray_map. split; [reflexivity|]. split.
  - rewrite length_map. apply length_list_ascii.
  - apply Forall_forall. intros x Hx. apply in_map_iff in Hx.
    destruct Hx as (c & <- & _). apply charCode_byte.
Qed.

(** ** Reading and building messages *)

(** X6: [popNextN] always returns [n] elements: the first [n] elements of
    the message, followed by [undefined] for each element that the message
    is short of; the message keeps what comes after them. *)
Theorem X6_popNextN_pads (msg : jsarray) (n : nat) :
  popNextN msg n
  = (firstn n msg ++ repeat Undef (n - List.length msg), skipn n msg) /\
  List.length (fst (popNextN msg n)) = n.
Proof.
  rewrite popNextN_spec. split; [reflexivity|].
  cbn [fst]. rewrite length_app, length_firstn, repeat_length. lia.
Qed.

(** X7: building a ClientHello for a packet whose session id is not 0
    throws a TypeError: the code calls [this.bytesUpToArray], and
    [bytesUpToArray] is a function of the module, not a method. *)
Theorem X7_clientHello_session_id (ext : Externals) (packet : OutPacket) (s : Client) :
  sessionId packet <> 0 ->
  fst (_createHandshakeClientHelloBody ext packet s) = Throw "TypeError".
Proof. apply helloBody_sessionId. Qed.

Lemma X7_clientHello_session_id_witness :
  fst (_createHandshakeClientHelloBody sampleExternals
         (mkOutPacket contentType.HANDSHAKE (Some handshakeType.CLIENT_HELLO)
                      0 (Num 0) 5 None 0 None) sampleClient)
  = Throw "TypeError".
Proof.
  apply (X7_clientHello_session_id sampleExternals
           (mkOutPacket contentType.HANDSHAKE (Some handshakeType.CLIENT_HELLO)
                        0 (Num 0) 5 None 0 None) sampleClient).
  simpl. lia.
Defined.

(** X8: a ClientHello that [_createPacket] builds is read back by
    [_readPacket] as a handshake record of version 0xfefd and epoch 0 with
    the record sequence number, the message type 1, the handshake sequence
    number and the body length of the packet it was built from, and nothing
    is left of the data. *)
Theorem X8_clientHello_reads_back (ext : Externals) (h q : Z) (r c : list Z)
  (s s0 : Client) :
  0 <= h < 2 ^ 31 -> 0 <= q < 2 ^ 16 ->
  Z.of_nat (List.length r) + Z.of_nat (List.length c) < 2 ^ 16 - 26 ->
  _encrypted s0 = false ->
  let packet := mkOutPacket contentType.HANDSHAKE (Some handshakeType.CLIENT_HELLO)
                            0 (Num h) 0 (Some (nums c)) q (Some (nums r)) in
  exists msg,
    fst (_createPacket ext packet s) = Ok (msg, packet) /\
    fst (_readPacket ext msg s0)
    = Ok (mkInPacket 22 0xfefd 0 h (Some 1) (Some q) (Some 0)
            (Some (Z.of_nat (14 + List.length r + List.length c))) SubNone, []).
Proof. apply clientHello_read_back. Qed.

Lemma X8_clientHello_reads_back_witness :
  exists msg,
    fst (_createPacket sampleExternals
           (mkOutPacket contentType.HANDSHAKE (Some handshakeType.CLIENT_HELLO)
                        0 (Num 1) 0 (Some (nums [5; 6; 7])) 1 (Some (nums (repeat 7 28))))
           sampleClient)
    = Ok (msg, mkOutPacket contentType.HANDSHAKE (Some handshakeType.CLIENT_HELLO)
                 0 (Num 1) 0 (Some (nums [5; 6; 7])) 1 (Some (nums (repeat 7 28)))) /\
    fst (_readPacket sampleExternals msg sampleClient)
    = Ok (mkInPacket 22 0xfefd 0 1 (Some 1) (Some 1) (Some 0)
            (Some (Z.of_nat (14 + List.length (repeat 7 28) + List.length [5; 6; 7])))
            SubNone, []).
Proof.
  apply (X8_clientHello_reads_back sampleExternals 1 1 (repeat 7 28) [5; 6; 7]
           sampleClient sampleClient).
  - lia.
  - lia.
  - simpl. lia.
  - reflexivity.
Defined.

(** X9: reading a ServerHello record while no protection is expected gives
    the fields of the message and stores the 4 bytes of time followed by the
    28 random bytes as [_serverRandom]. *)
Theorem X9_serverHello_read (ext : Externals) (time random : list Z) (s : Client) :
  List.length time = 4%nat -> List.length random = 28%nat ->
  _encrypted s = false ->
  let r := _readPacket ext (nums (serverHello time random)) s in
  fst r = Ok (mkInPacket 22 0xfefd 0 1 (Some 2) (Some 1) (Some 0) (Some 38)
                (SubServerHello 0xfefd (nums time) (nums random) 0 [] 0x00a8), []) /\
  _serverRandom (snd r) = Some (nums (time ++ random)) /\
  List.length (time ++ random) = 32%nat.
Proof.
  intros Ht Hr He.
  assert (Hb : List.length (be 2 0xfefd ++ time ++ random ++ [0] ++ be 2 0x00a8 ++ [0])
               = 38%nat).
  { rewrite !length_app, !be_length, Ht, Hr. reflexivity. }
  assert (E : exists s1,
    _readPacket ext (nums (serverHello time random)) s
    = (Ok (mkInPacket 22 0xfefd 0 1 (Some 2) (Some 1) (Some 0) (Some 38)
             (SubServerHello 0xfefd (nums time) (nums random) 0 [] 0x00a8), []),
       set__serverRandom (Some (nums (time ++ random))) s1)).
  { rewrite <- (app_nil_r (nums (serverHello time random))). unfold serverHello.
    rewrite readPacket_peerHandshake by (try lia; try assumption; rewrite Hb; lia).
    rewrite Hb.
    unfold mbind at 1.
    assert (Es : exists s1, storeIncoming (Num 2)
                   (nums (peerHandshake 2 1
                      (be 2 0xfefd ++ time ++ random ++ [0] ++ be 2 0x00a8 ++ [0]))) s
                 = (Ok tt, s1)).
    { unfold storeIncoming, mbind, gets, modify, ret.
      destruct (_handshakeInProgress s); eexists; reflexivity. }
    destruct Es as (s1 & Es). rewrite Es. exists s1.
    unfold mbind.
    pose proof (readHandshakePacket_serverHello 0xfefd 0x00a8 time random [] [0] s1
                  ltac:(lia) ltac:(lia) Ht Hr ltac:(simpl; lia)) as Hrd.
    match goal with
    | |- context [_readHandshakePacket ?m ?t s1] =>
        change (_readHandshakePacket m t s1)
          with (_readHandshakePacket
                  (nums (be 2 0xfefd ++ time ++ random
                         ++ be 1 (Z.of_nat (@List.length Z [])) ++ []
                         ++ be 2 0x00a8 ++ [0]))
                  handshakeType.SERVER_HELLO s1)
    end.
    rewrite Hrd. reflexivity. }
  destruct E as (s1 & E). cbv zeta. rewrite E. cbn [fst snd]. fields.
  split; [reflexivity|]. split; [reflexivity|].
  rewrite length_app, Ht, Hr. reflexivity.
Qed.

Lemma X9_serverHello_read_witness :
  _serverRandom
    (snd (_readPacket sampleExternals
            (nums (serverHello [1; 2; 3; 4] (repeat 7 28))) sampleClient))
  = Some (nums ([1; 2; 3; 4] ++ repeat 7 28)).
Proof.
  apply (X9_serverHello_read sampleExternals [1; 2; 3; 4] (repeat 7 28) sampleClient);
    reflexivity.
Defined.

(** ** Key derivation *)

(** X10: [P_hash] returns exactly 48 elements whenever [HMAC] never returns
    an empty array; when [HMAC] returns digests of 32 bytes, they are the
    first 48 bytes of [HMAC(secret, A1 ++ seed) ++ HMAC(secret, A2 ++ seed)]
    with [A1 = HMAC(secret, seed)] and [A2 = HMAC(secret, A1)]: two turns of
    the loop. *)
Theorem X10_P_hash (ext : Externals) (secret seed : jsarray) :
  ((forall k m, HMAC ext k m <> []) ->
   exists r, P_hash ext secret seed = Ok r /\ List.length r = 48%nat) /\
  ((forall k m, List.length (HMAC ext k m) = 32%nat) ->
   let A1 := HMAC ext secret seed in
   let A2 := HMAC ext secret A1 in
   P_hash ext secret seed
   = Ok (HMAC ext secret (A1 ++ seed) ++ firstn 16 (HMAC ext secret (A2 ++ seed)))).
Proof.
  split.
  - apply P_hash_length.
  - apply P_hash_digests.
Qed.

Lemma X10_P_hash_witness :
  (exists r, P_hash sampleExternals [Num 1] [Num 2] = Ok r /\ List.length r = 48%nat) /\
  P_hash sampleExternals [Num 1] [Num 2] = Ok (repeat (Num 0) 48).
Proof.
  split.
  - apply (proj1 (X10_P_hash sampleExternals [Num 1] [Num 2])).
    intros k m. simpl. discriminate.
  - apply (proj2 (X10_P_hash sampleExternals [Num 1] [Num 2])).
    intros k m. reflexivity.
Defined.



(** X12: when [HMAC] never returns an empty array and the key and both
    randoms are set, [_createHandshakeFinishedBody] returns 12 bytes of
    verify data and leaves a master secret and a key block of 48 bytes; the
    key block is cut into write keys of 16 bytes and IVs of 4 bytes, client
    before server. Nothing is sent and no signal is emitted. *)
Theorem X12_finished_body_keys (ext : Externals) (packet : OutPacket) (s : Client)
  (psk : string) (clientRandom serverRandom : jsarray) :
  (forall k m, HMAC ext k m <> []) ->
  _psk s = Some psk -> _clientRandom s = Some clientRandom ->
  _serverRandom s = Some serverRandom ->
  exists verify s' masterSecret keyBlock,
    _createHandshakeFinishedBody ext packet s = (Ok verify, s') /\
    len verify = 12 /\
    _masterSecret s' = Some masterSecret /\ len masterSecret = 48 /\
    _keyBlock s' = Some keyBlock /\ len keyBlock = 48 /\
    _clientWriteKey s' = Some (slice keyBlock 0 16) /\
    _serverWriteKey s' = Some (slice keyBlock 16 32) /\
    _clientIV s' = Some (slice keyBlock 32 36) /\
    _serverIV s' = Some (slice keyBlock 36 40) /\
    len (slice keyBlock 0 16) = 16 /\ len (slice keyBlock 16 32) = 16 /\
    len (slice keyBlock 32 36) = 4 /\ len (slice keyBlock 36 40) = 4 /\
    emitted s' = emitted s /\ sent s' = sent s.
Proof. apply finishedBody_keys. Qed.

Lemma X12_finished_body_keys_witness :
  exists verify s',
    _createHandshakeFinishedBody sampleExternals (dataPacket 0)
      (run sampleExternals
         [ConnectDone true; Incoming (serverHello [1; 2; 3; 4] (repeat 7 28))] sampleClient)
    = (Ok verify, s') /\ len verify = 12.
Proof.
  destruct (X12_finished_body_keys sampleExternals (dataPacket 0)
              (run sampleExternals
                 [ConnectDone true; Incoming (serverHello [1; 2; 3; 4] (repeat 7 28))]
                 sampleClient)
              samplePsk
              (nums (be 4 0 ++ helloRandom sampleExternals 0))
              (nums ([1; 2; 3; 4] ++ repeat 7 28)))
    as (verify & s' & _ & _ & E & Hl & _).
  - intros k m. simpl. discriminate.
  - vm_compute. reflexivity.
  - vm_compute. reflexivity.
  - vm_compute. reflexivity.
  - exists verify, s'. split; assumption.
Defined.

(** ** Protected records *)





(** ** Closing the bridge *)

(** X15: on a connected client [closeBridge] emits "disconnected" once,
    empties [timers], removes the sources that [timers] names, cancels the
    writes in flight and the reads, and closes the socket; it sends nothing
    and leaves [_connection] and [_encrypted] as they are. Before the
    connection is made it only clears the timers. *)
Theorem X15_closeBridge (s : Client) :
  fst (closeBridge s) = Ok tt /\
  (_connection s = true ->
   let s' := snd (closeBridge s) in
   emitted s' = emitted s ++ ["disconnected"%string] /\
   timers s' = [] /\
   (forall src, In src (sources s') ->
      In src (sources s) /\ (src_id src = 0 \/ ~ In (src_id src) (timers s))) /\
   Forall (fun w => snd w = true) (pendingWrites s') /\
   outputCancelled s' = true /\ inputCancelled s' = true /\ socketClosed s' = true /\
   sent s' = sent s /\ _connection s' = true /\ _encrypted s' = _encrypted s) /\
  (_connection s = false ->
   let s' := snd (closeBridge s) in
   emitted s' = emitted s /\ timers s' = [] /\ sent s' = sent s /\
   outputCancelled s' = outputCancelled s /\ socketClosed s' = socketClosed s).
Proof.
  split; [apply closeBridge_ok|]. split.
  - apply closeBridge_connected.
  - apply closeBridge_unconnected.
Qed.

Lemma X15_closeBridge_witness :
  let s := step sampleExternals sampleClient (ConnectDone true) in
  emitted (snd (closeBridge s)) = ["disconnected"%string] /\
  sources (snd (closeBridge s)) = [] /\
  emitted (snd (closeBridge sampleClient)) = [].
Proof.
  cbv zeta.
  destruct (X15_closeBridge (step sampleExternals sampleClient (ConnectDone true)))
    as (_ & H1 & _).
  destruct (X15_closeBridge sampleClient) as (_ & _ & H2).
  destruct (H1 eq_refl) as (E1 & _). destruct (H2 eq_refl) as (E2 & _).
  split; [exact E1|]. split; [reflexivity|exact E2].
Defined.



(** X17: once the reads are cancelled, as [closeBridge] does, the
    completion of a read drops the data that arrived: nothing is parsed,
    nothing is emitted or sent, and no further read is started. *)
Theorem X17_incoming_after_close (ext : Externals) (data : list Z) (s : Client) :
  inputCancelled s = true ->
  handle ext (Incoming data) s
  = (Ok tt, if reading s then set_reading false s else s).
Proof. intros H. apply incoming_after_close. right. exact H. Qed.

Lemma X17_incoming_after_close_witness :
  let s := run sampleExternals [ConnectDone true; CallCloseBridge] sampleClient in
  handle sampleExternals (Incoming (serverHello [1; 2; 3; 4] (repeat 7 28))) s
  = (Ok tt, set_reading false s).
Proof.
  cbv zeta.
  apply (X17_incoming_after_close sampleExternals
           (serverHello [1; 2; 3; 4] (repeat 7 28))
           (run sampleExternals [ConnectDone true; CallCloseBridge] sampleClient)).
  reflexivity.
Defined.

(** X18: a timer that fires when the handshake is no longer in progress
    sends nothing, cancels nothing and arms no new timer. *)
Theorem X18_timer_after_handshake (ext : Externals) (timerId : Z) (s : Client) :
  _handshakeInProgress s = false ->
  let s' := step ext s (TimerFire timerId) in
  fst (handle ext (TimerFire timerId) s) = Ok tt /\
  sent s' = sent s /\ pendingWrites s' = pendingWrites s /\ emitted s' = emitted s /\
  outputCancelled s' = outputCancelled s /\
  incl (sources s') (sources s) /\
  (forall src, In src (sources s') -> src_id src <> timerId).
Proof. apply timer_after_handshake. Qed.

Lemma X18_timer_after_handshake_witness :
  let s := run sampleExternals toClientFinished sampleClient in
  sent (step sampleExternals s (TimerFire 1)) = sent s.
Proof.
  cbv zeta.
  destruct (X18_timer_after_handshake sampleExternals 1
              (run sampleExternals toClientFinished sampleClient) eq_refl)
    as (_ & E & _).
  exact E.
Defined.

(** X19: after [closeBridge], [sendEncrypted] still returns true on a
    client that completed the handshake and still counts the record, but no
    record is handed to the output stream. *)
Theorem X19_send_after_close (ext : Externals) (cleartext : jsarray) (s : Client)
  (n : Z) (iv : jsarray) :
  _connection s = true -> _encrypted s = true -> streamSeq s = Num n -> n < 2 ^ 53 ->
  _clientIV s = Some iv ->
  exists s',
    sendEncrypted ext cleartext (snd (closeBridge s)) = (Ok true, s') /\
    streamSeq s' = Num (n + 1) /\ sent s' = sent s.
Proof.
  intros Hc He Hs Hn Hiv.
  destruct (closeBridge_connected s Hc)
    as (_ & _ & _ & _ & Ho & _ & _ & Hsent & Hc' & He').
  assert (Hs' : streamSeq (snd (closeBridge s)) = Num n).
  { unfold closeBridge, clearTimers, cancelOutput, emit, mbind, modify, gets, ret. fields.
    rewrite Hc. fields. exact Hs. }
  assert (Hiv' : _clientIV (snd (closeBridge s)) = Some iv).
  { unfold closeBridge, clearTimers, cancelOutput, emit, mbind, modify, gets, ret. fields.
    rewrite Hc. fields. exact Hiv. }
  destruct (sendEncrypted_encrypted ext cleartext (snd (closeBridge s)) n iv
              ltac:(rewrite He'; exact He) Hs' Hn Hiv' Hc')
    as (body & s' & E & Hq & _ & _ & _ & _ & _ & _ & Hsent').
  exists s'. split; [exact E|]. split; [exact Hq|].
  rewrite Hsent', Ho. exact Hsent.
Qed.

Lemma X19_send_after_close_witness :
  let s := run sampleExternals (toClientFinished ++ [Incoming peerFinished]) sampleClient in
  exists s',
    sendEncrypted sampleExternals [Num 1] (snd (closeBridge s)) = (Ok true, s') /\
    streamSeq s' = Num (0 + 1) /\ sent s' = sent s.
Proof.
  cbv zeta.
  apply (X19_send_after_close sampleExternals [Num 1]
           (run sampleExternals (toClientFinished ++ [Incoming peerFinished]) sampleClient)
           0 (slice (repeat (Num 0) 48) 32 36)).
  - vm_compute. reflexivity.
  - vm_compute. reflexivity.
  - vm_compute. reflexivity.
  - lia.
  - vm_compute. reflexivity.
Defined.

(** ** The handshake *)

(** X20: [sendEncrypted] never emits a signal and never changes the
    handshake flags, the timers, the keys or the stored handshake messages;
    it always leaves [_readyToSend] false. *)
Theorem X20_sendEncrypted_frame (ext : Externals) (cleartext : jsarray) (s : Client) :
  let s' := snd (sendEncrypted ext cleartext s) in
  emitted s' = emitted s /\ _encrypted s' = _encrypted s /\
  _handshakeInProgress s' = _handshakeInProgress s /\
  sources s' = sources s /\ timers s' = timers s /\
  _clientWriteKey s' = _clientWriteKey s /\ _clientIV s' = _clientIV s /\
  _serverWriteKey s' = _serverWriteKey s /\ _serverIV s' = _serverIV s /\
  _handshakeMessages s' = _handshakeMessages s /\
  _readyToSend s' = Some false.
Proof. apply sendEncrypted_frame. Qed.

(** X21: [_sendHandshakeFinished] marks the handshake as done and the
    channel as protected before it builds the message: the flags are set
    also when building or sending the Finished message throws. *)
Theorem X21_finished_sets_flags (ext : Externals) (s : Client) :
  _encrypted (snd (_sendHandshakeFinished ext s)) = true /\
  _handshakeInProgress (snd (_sendHandshakeFinished ext s)) = false.
Proof. apply sendHandshakeFinished_flags. Qed.

(** X22: the second flight goes out one message per completed write: the
    ClientKeyExchange with the identity (record sequence number 2, handshake
    sequence number 2), then the ChangeCipherSpec (record sequence number
    3), then the Finished, whose sending sets [_encrypted] and clears
    [_handshakeInProgress]; until then both flags are unchanged. *)
Theorem X22_second_flight (ext : Externals) (id : string) (s : Client) :
  _pskIdentity s = Some id ->
  Z.of_nat (String.length id) < 2 ^ 16 - 16 ->
  _connection s = true -> outputCancelled s = false -> pendingWrites s = [] ->
  let body := be 2 (Z.of_nat (String.length id)) ++ map charCode (list_ascii_of_string id) in
  let s1 := snd (_sendKeyExchange ext s) in
  let s2 := step ext s1 WriteDone in
  let s3 := step ext s2 WriteDone in
  sent s1 = sent s ++ [(now s, nums (peerRecord 22 0 2 (peerHandshake 16 2 body)))] /\
  pendingWrites s1 = [(CbSendHandshakeCipherSpec, false)] /\
  sent s2 = sent s1 ++ [(now s, nums (peerRecord 20 0 3 [1]))] /\
  pendingWrites s2 = [(CbSendHandshakeFinished, false)] /\
  _encrypted s2 = _encrypted s /\ _handshakeInProgress s2 = _handshakeInProgress s /\
  _encrypted s3 = true /\ _handshakeInProgress s3 = false.
Proof. apply second_flight. Qed.

Lemma X22_second_flight_witness :
  let s := run sampleExternals [ConnectDone true; WriteDone] sampleClient in
  let s1 := snd (_sendKeyExchange sampleExternals s) in
  pendingWrites s1 = [(CbSendHandshakeCipherSpec, false)] /\
  _encrypted (step sampleExternals (step sampleExternals s1 WriteDone) WriteDone) = true.
Proof.
  cbv zeta.
  destruct (X22_second_flight sampleExternals sampleIdentity
              (run sampleExternals [ConnectDone true; WriteDone] sampleClient))
    as (_ & H2 & _ & _ & _ & _ & H7 & _).
  - reflexivity.
  - simpl. lia.
  - reflexivity.
  - reflexivity.
  - reflexivity.
  - split; [exact H2|exact H7].
Defined.

(** ** The block cipher *)

(** X23: [encrypt] undoes [decrypt]: for every key of 16, 24 or 32 bytes
    and every block of 16 bytes, [decrypt] returns a block of 16 bytes that
    [encrypt] maps back to the input. *)
Theorem X23_encrypt_decrypt (c key : list Z) :
  List.length key = 16%nat \/ List.length key = 24%nat \/ List.length key = 32%nat ->
  List.length c = 16%nat ->
  Forall is_byte key -> Forall is_byte c ->
  exists p, AES.decrypt c key = Ok p /\ List.length p = 16%nat /\ Forall is_byte p /\
            AES.encrypt p key = Ok c.
Proof. apply AESMore.encrypt_decrypt_block. Qed.

Lemma X23_encrypt_decrypt_witness :
  exists p,
    AES.decrypt [0x69; 0xc4; 0xe0; 0xd8; 0x6a; 0x7b; 0x04; 0x30;
                 0xd8; 0xcd; 0xb7; 0x80; 0x70; 0xb4; 0xc5; 0x5a]
                [0x00; 0x01; 0x02; 0x03; 0x04; 0x05; 0x06; 0x07;
                 0x08; 0x09; 0x0a; 0x0b; 0x0c; 0x0d; 0x0e; 0x0f] = Ok p /\
    AES.encrypt p [0x00; 0x01; 0x02; 0x03; 0x04; 0x05; 0x06; 0x07;
                   0x08; 0x09; 0x0a; 0x0b; 0x0c; 0x0d; 0x0e; 0x0f]
    = Ok [0x69; 0xc4; 0xe0; 0xd8; 0x6a; 0x7b; 0x04; 0x30;
          0xd8; 0xcd; 0xb7; 0x80; 0x70; 0xb4; 0xc5; 0x5a].
Proof.
  destruct (X23_encrypt_decrypt
              [0x69; 0xc4; 0xe0; 0xd8; 0x6a; 0x7b; 0x04; 0x30;
               0xd8; 0xcd; 0xb7; 0x80; 0x70; 0xb4; 0xc5; 0x5a]
              [0x00; 0x01; 0x02; 0x03; 0x04; 0x05; 0x06; 0x07;
               0x08; 0x09; 0x0a; 0x0b; 0x0c; 0x0d; 0x0e; 0x0f])
    as (p & E1 & _ & _ & E2).
  - left. reflexivity.
  - reflexivity.
  - repeat (constructor; [unfold is_byte; lia|]). constructor.
  - repeat (constructor; [unfold is_byte; lia|]). constructor.
  - exists p. split; assumption.
Defined.

(** X24: for a key of 16, 24 or 32 bytes and a block of 16 bytes,
    [encrypt] returns 16 bytes. *)
Theorem X24_encrypt_shape (block key : list Z) :
  List.length key = 16%nat \/ List.length key = 24%nat \/ List.length key = 32%nat ->
  List.length block = 16%nat ->
  Forall is_byte key -> Forall is_byte block ->
  exists c, AES.encrypt block key = Ok c /\ List.length c = 16%nat /\ Forall is_byte c.
Proof. apply AESMore.encrypt_block_shape. Qed.

Lemma X24_encrypt_shape_witness :
  exists c,
    AES.encrypt (repeat 0 16) (repeat 0 24) = Ok c /\ List.length c = 16%nat.
Proof.
  destruct (X24_encrypt_shape (repeat 0 16) (repeat 0 24)) as (c & E & Hl & _).
  - right. left. reflexivity.
  - reflexivity.
  - repeat (constructor; [unfold is_byte; lia|]). constructor.
  - repeat (constructor; [unfold is_byte; lia|]). constructor.
  - exists c. split; assumption.
Defined.

(** X25: with a key of any other length than 16, 24 or 32, [encrypt] and
    [decrypt] throw "illegal key length" before they look at the input. *)
Theorem X25_illegal_key_length (input key : list Z) :
  List.length key <> 16%nat -> List.length key <> 24%nat -> List.length key <> 32%nat ->
  AES.encrypt input key = Throw "illegal key length" /\
  AES.decrypt input key = Throw "illegal key length".
Proof. apply AESMore.illegal_key_length. Qed.

Lemma X25_illegal_key_length_witness :
  AES.encrypt (repeat 0 16) (repeat 0 17) = Throw "illegal key length" /\
  AES.decrypt (repeat 0 16) (repeat 0 17) = Throw "illegal key length".
Proof.
  apply (X25_illegal_key_length (repeat 0 16) (repeat 0 17)); simpl; lia.
Defined.

(** X26: [keyExpansion] returns [4 * roundLimit] words of four bytes, and
    the first words are the key itself. *)
Theorem X26_keyExpansion (roundLimit : Z) (key : list Z) :
  (List.length key = 16%nat /\ roundLimit = 11) \/
  (List.length key = 24%nat /\ roundLimit = 13) \/
  (List.length key = 32%nat /\ roundLimit = 15) ->
  Forall is_byte key ->
  exists w, AES.keyExpansion roundLimit key = Ok w /\
            Z.of_nat (List.length w) = 4 * roundLimit /\
            Forall (fun word => List.length word = 4%nat /\ Forall is_byte word) w /\
            concat (firstn (List.length key / 4) w) = key.
Proof.
  intros Hcase Hkey.
  destruct (AESMore.keyExpansion_key roundLimit key Hcase Hkey) as (w & E & (Hl & Hw) & Hk).
  exists w. auto.
Qed.

Lemma X26_keyExpansion_witness :
  exists w, AES.keyExpansion 11 (map Z.of_nat (seq 0 16)) = Ok w /\
            Z.of_nat (List.length w) = 4 * 11.
Proof.
  destruct (X26_keyExpansion 11 (map Z.of_nat (seq 0 16))) as (w & E & Hl & _).
  - left. split; reflexivity.
  - repeat (constructor; [unfold is_byte; simpl; lia|]). constructor.
  - exists w. split; assumption.
Defined.

(** X27: on a state of bytes, [subBytes] and [invSubBytes] undo each other,
    and so do [shiftRows] and [invShiftRows]. *)
Theorem X27_sub_shift_inverse (st : AES.State) :
  AESAux.byte_state st ->
  (exists st', AES.subBytes st = Ok st' /\ AES.invSubBytes st' = Ok st) /\
  (exists st', AES.invSubBytes st = Ok st' /\ AES.subBytes st' = Ok st) /\
  (exists st', AES.shiftRows st = Ok st' /\ AES.invShiftRows st' = Ok st) /\
  (exists st', AES.invShiftRows st = Ok st' /\ AES.shiftRows st' = Ok st).
Proof.
  intros H.
  destruct (AESProofs.subBytes_inverse st H) as (a & A1 & _ & A2).
  destruct (AESMore.invSubBytes_inverse st H) as (b & B1 & _ & B2).
  destruct (AESProofs.shiftRows_inverse st H) as (c & C1 & _ & C2).
  destruct (AESMore.invShiftRows_inverse st H) as (d & D1 & _ & D2).
  split; [exists a; auto|]. split; [exists b; auto|]. split; [exists c; auto|exists d; auto].
Qed.

Lemma X27_sub_shift_inverse_witness :
  exists st',
    AES.shiftRows sampleState = Ok st' /\ AES.invShiftRows st' = Ok sampleState.
Proof.
  apply (X27_sub_shift_inverse sampleState).
  split; [reflexivity|].
  repeat (constructor;
          [split; [reflexivity|repeat (constructor; [unfold is_byte; lia|]); constructor]|]).
  constructor.
Defined.

(** X28: on a state of bytes, [mixColumns] and [invMixColumns] undo each
    other. *)
Theorem X28_mixColumns_inverse (st : AES.State) :
  AESAux.byte_state st ->
  (exists st', AES.mixColumns st = Ok st' /\ AESAux.byte_state st' /\
               AES.invMixColumns st' = Ok st) /\
  (exists st', AES.invMixColumns st = Ok st' /\ AESAux.byte_state st' /\
               AES.mixColumns st' = Ok st).
Proof.
  intros H. split.
  - apply AESProofs.mixColumns_inverse. exact H.
  - apply AESMore.invMixColumns_inverse. exact H.
Qed.

Lemma X28_mixColumns_inverse_witness :
  exists st',
    AES.mixColumns sampleState = Ok st' /\ AES.invMixColumns st' = Ok sampleState.
Proof.
  destruct (X28_mixColumns_inverse sampleState) as ((st' & E1 & _ & E2) & _).
  - split; [reflexivity|].
    repeat (constructor;
            [split; [reflexivity|repeat (constructor; [unfold is_byte; lia|]); constructor]|]).
    constructor.
  - exists st'. split; assumption.
Defined.

(** X29: adding a round key twice gives the state back: [addRoundKey] with
    the same four words of a schedule of byte words is its own inverse on a
    state of bytes. *)
Theorem X29_addRoundKey_involution (st : AES.State) (w : list (list Z)) (offset : Z) :
  Forall (fun word => List.length word = 4%nat /\ Forall is_byte word) w ->
  0 <= offset -> offset + 4 <= Z.of_nat (List.length w) ->
  AESAux.byte_state st ->
  exists st', AES.addRoundKey st w offset = Ok st' /\ AESAux.byte_state st' /\
              AES.addRoundKey st' w offset = Ok st.
Proof.
  intros Hw Ho Hn Hst.
  apply (AESProofs.addRoundKey_involution st w (Z.of_nat (List.length w)) offset);
    try assumption.
  split; [reflexivity|exact Hw].
Qed.

Lemma X29_addRoundKey_involution_witness :
  exists st',
    AES.addRoundKey sampleState
                    [[1; 1; 1; 1]; [2; 2; 2; 2]; [3; 3; 3; 3]; [4; 4; 4; 4]] 0 = Ok st' /\
    AES.addRoundKey st' [[1; 1; 1; 1]; [2; 2; 2; 2]; [3; 3; 3; 3]; [4; 4; 4; 4]] 0
    = Ok sampleState.
Proof.
  destruct (X29_addRoundKey_involution sampleState
              [[1; 1; 1; 1]; [2; 2; 2; 2]; [3; 3; 3; 3]; [4; 4; 4; 4]] 0)
    as (st' & E1 & _ & E2).
  - repeat (constructor;
            [split; [reflexivity|repeat (constructor; [unfold is_byte; lia|]); constructor]|]).
    constructor.
  - lia.
  - simpl. lia.
  - split; [reflexivity|].
    repeat (constructor;
            [split; [reflexivity|repeat (constructor; [unfold is_byte; lia|]); constructor]|]).
    constructor.
  - exists st'. split; assumption.
Defined.

(** X30: on bytes, [finiteFieldMultiplication] returns a byte, is
    commutative, distributes over [^], has 1 as its unit, and multiplying
    by 2 is a shift to the left followed by a reduction by 0x11b when the
    top bit was set. *)
Theorem X30_finiteFieldMultiplication (a b c : Z) :
  is_byte a -> is_byte b -> is_byte c ->
  is_byte (AES.finiteFieldMultiplication a b) /\
  AES.finiteFieldMultiplication a b = AES.finiteFieldMultiplication b a /\
  AES.finiteFieldMultiplication a (JS.xor b c)
  = JS.xor (AES.finiteFieldMultiplication a b) (AES.finiteFieldMultiplication a c) /\
  AES.finiteFieldMultiplication 1 a = a /\
  AES.finiteFieldMultiplication 2 a = (if a <? 128 then 2 * a else Z.lxor (2 * a) 0x11b).
Proof.
  intros Ha Hb Hc.
  split; [apply AESMore.ffm_byte; assumption|].
  split; [apply AESMore.ffm_comm; assumption|].
  split; [apply AESMore.ffm_xor; assumption|].
  apply AESMore.ffm_one_two. exact Ha.
Qed.

Lemma X30_finiteFieldMultiplication_witness :
  AES.finiteFieldMultiplication 0x57 0x83 = AES.finiteFieldMultiplication 0x83 0x57 /\
  AES.finiteFieldMultiplication 2 0x57 = 2 * 0x57.
Proof.
  destruct (X30_finiteFieldMultiplication 0x57 0x83 0) as (_ & H2 & _ & _ & H5);
    try (unfold is_byte; lia).
  split; [exact H2|exact H5].
Defined.
